(** * mclearn.active_learner: the pool-based active-learning loop

    A shallow embedding of [src/mclearn/active_learner.py]:
    [active_learn] (the seed phase and the query loop) and
    [run_active_learning_with_heuristic] (the experiment routine that
    slices the data set into trials), together with the numpy operations
    they are written with.

    numpy arrays are lists; an exception is the name of its Python class;
    the state that lives outside the function's local variables (numpy's
    global random state, the classifier object, the committee) is one
    abstract world that every call threads through. The element types of
    the arrays are kept abstract; where numpy converts values (the
    labelled arrays are float64 arrays, the offsets of [np.arange] are
    [int64] numbers) the conversion is part of the model.

    Not embedded: [active_learning_experiment], whose body calls
    scikit-learn functions under names the module never binds, and
    [scripts/training_classifiers.py], which is floating-point statistics
    and pandas group-by over scikit-learn's splitters. *)

From Stdlib Require Import ZArith Lia.
From stdpp Require Import base option list strings gmap.

(** ** Exceptions and results *)

(** A raised exception is identified by the name of its class. *)
Definition exn := string.

Inductive result (A : Type) : Type :=
| Ok (a : A)
| Raise (e : exn).
Arguments Ok {A} a.
Arguments Raise {A} e.

#[global] Instance result_ret : MRet result := @Ok.
#[global] Instance result_bind : MBind result := fun A B f m =>
  match m with
  | Ok a => f a
  | Raise e => Raise e
  end.

Definition is_ok {A} (r : result A) : bool :=
  match r with Ok _ => true | Raise _ => false end.

Definition ValueError : exn := "ValueError"%string.
Definition IndexError : exn := "IndexError"%string.
Definition ZeroDivisionError : exn := "ZeroDivisionError"%string.
Definition TypeError : exn := "TypeError"%string.

(** ** The numpy operations used by the learner *)

Module Np.
Section Arrays.
Context {A : Type}.

(** [a[i]] for one integer [i]: an index in [-n, n) is accepted, a
    negative one counts from the end; anything else is an IndexError. *)
Definition norm_index (n : nat) (i : Z) : result nat :=
  if bool_decide (0 ≤ i < Z.of_nat n)%Z then Ok (Z.to_nat i)
  else if bool_decide (- Z.of_nat n ≤ i < 0)%Z then Ok (Z.to_nat (i + Z.of_nat n))
  else Raise IndexError.

(** [a[idx]] for an array [idx] of non-negative indices (fancy indexing):
    a new array with the rows in the order of [idx]. *)
Fixpoint take_idx (a : list A) (idx : list nat) : result (list A) :=
  match idx with
  | [] => Ok []
  | i :: idx' =>
      match a !! i with
      | None => Raise IndexError
      | Some x => xs ← take_idx a idx'; Ok (x :: xs)
      end
  end.

Fixpoint norm_indices (n : nat) (idx : list Z) : result (list nat) :=
  match idx with
  | [] => Ok []
  | i :: idx' => j ← norm_index n i; js ← norm_indices n idx'; Ok (j :: js)
  end.

(** [a[idx]] for an integer array [idx] that may hold negative indices. *)
Definition take_z (a : list A) (idx : list Z) : result (list A) :=
  js ← norm_indices (length a) idx; take_idx a js.

(** [np.delete(a, idx)] along the first axis: a new array without the
    rows whose position is listed in [idx]. A position listed twice is
    removed once. The learner only passes positions that have just been
    used to index an array of the same length, so the out-of-range case of
    [np.delete] never arises; this definition leaves such positions out. *)
Fixpoint delete_from (k : nat) (a : list A) (idx : list nat) : list A :=
  match a with
  | [] => []
  | x :: a' =>
      if bool_decide (k ∈ idx) then delete_from (S k) a' idx
      else x :: delete_from (S k) a' idx
  end.

Definition delete (a : list A) (idx : list nat) : list A := delete_from 0 a idx.

(** The rows [np.delete] removes, in array order (used in proofs only). *)
Fixpoint picked_from (k : nat) (a : list A) (idx : list nat) : list A :=
  match a with
  | [] => []
  | x :: a' =>
      if bool_decide (k ∈ idx) then x :: picked_from (S k) a' idx
      else picked_from (S k) a' idx
  end.

(** [a[i:j]] with Python's clamping of the bounds. *)
Definition slice_bound (n : nat) (i : Z) : nat :=
  if bool_decide (i < 0)%Z then Z.to_nat (Z.max (i + Z.of_nat n) 0)
  else Nat.min (Z.to_nat i) n.

Definition slice (a : list A) (i j : Z) : list A :=
  let lo := slice_bound (length a) i in
  let hi := slice_bound (length a) j in
  take (hi - lo) (drop lo a).

(** [a[mask]] for a boolean array: the rows where the mask is true; the
    mask must be as long as the array. *)
Definition take_mask (a : list A) (mask : list bool) : result (list A) :=
  if bool_decide (length a = length mask)
  then Ok (fst <$> filter (λ p, snd p = true) (zip a mask))
  else Raise IndexError.

(** [np.repeat(x, n)] for a scalar [x]. *)
Definition repeat (x : A) (n : Z) : result (list A) :=
  if bool_decide (n < 0)%Z then Raise ValueError
  else Ok (replicate (Z.to_nat n) x).
End Arrays.

(** The values of numpy's default integer type. *)
Definition int64 (z : Z) : bool := bool_decide (- 2 ^ 63 ≤ z < 2 ^ 63)%Z.

(** [np.arange(0, stop, step)] for Python integers [stop] and [step] that
    fit [int64]: an [int64] array. (What numpy returns for larger
    arguments is not an array of integers in general; the experiment
    routine below asks its environment.) *)
Definition arange0 (stop step : Z) : result (list Z) :=
  if bool_decide (step = 0)%Z then Raise ZeroDivisionError
  else
    let n := Z.to_nat (Z.max 0 ((stop + step - Z.sgn step) / step)) in
    Ok ((λ k, Z.of_nat k * step)%Z <$> seq 0 n).
End Np.

(** ** What the learner is given from outside *)

(** The objects [active_learn] works with but does not define. [world] is
    everything mutable that outlives a call: the state of numpy's global
    random generator, the fitted state of the classifier objects and of the
    committee. [rng_sample n k w] is the sample that
    [np.random.choice(np.arange(0, n), k, replace=False)] draws in world [w]
    when [0 <= k <= n]. [choice_rejects_empty] tells which numpy is
    installed: the releases of the repository's time raise ValueError for an
    empty population even when no sample is asked for, later ones return an
    empty sample. [fit] is [classifier.fit(X, y)], which retrains the
    classifier object in place.

    [promote_row] and [promote_label] are the conversions that [np.append]
    and [np.concatenate] apply to the rows and labels they copy into the
    labelled arrays, which start as empty float64 arrays: an integer
    becomes the nearest float64 (another number above 2^53), a float64 or
    a string stays what it is. [wide_offsets stop step] is what numpy makes
    of [np.arange(0, stop, step)] when [stop] or [step] does not fit
    [int64]: [None] when the offsets are still integers, [Some e] when
    they are float64 numbers, which a slice refuses with exception [e]
    (TypeError). *)
Record externals (label : Type) : Type := {
  row : Type;
  acc : Type;
  classifier_obj : Type;
  committee_obj : Type;
  world : Type;
  rng_sample : nat → nat → world → list nat * world;
  choice_rejects_empty : bool;
  fit : classifier_obj → list row → list label → world → world;
  promote_row : row → row;
  promote_label : label → label;
  wide_offsets : Z → Z → option exn;
}.
Arguments row {label} e.
Arguments acc {label} e.
Arguments classifier_obj {label} e.
Arguments committee_obj {label} e.
Arguments world {label} e.
Arguments rng_sample {label} e n k w.
Arguments choice_rejects_empty {label} e.
Arguments fit {label} e c X y w.
Arguments promote_row {label} e x.
Arguments promote_label {label} e y.
Arguments wide_offsets {label} e stop step.

(** The heuristic: [heuristic(X_candidates, X_train=, y_train=, n_classes=,
    classifier=, committee=, bag_size=)] returns an integer index array into
    the candidates; it may refit the committee and draw random numbers. *)
Definition heuristic_fn {label} (E : externals label) : Type :=
  list (row E) → list (row E) → list label → Z → classifier_obj E →
  option (committee_obj E) → option Z → world E → list Z * world E.

(** [compute_accuracy(classifier, testing_pool, testing_oracle)]. *)
Definition accuracy_fn {label} (E : externals label) : Type :=
  classifier_obj E → list (row E) → list label → world E → acc E.

(** The contract of sampling without replacement: [k] distinct positions
    below [n]. *)
Definition sample_ok {label} (E : externals label) : Prop :=
  ∀ n k w, k ≤ n →
    NoDup (rng_sample E n k w).1 ∧
    Forall (λ i, i < n) (rng_sample E n k w).1 ∧
    length (rng_sample E n k w).1 = k.

(** [np.random.choice(np.arange(0, n), size, replace=False)]. *)
Definition np_random_choice {label} (E : externals label)
    (n : nat) (size : Z) (w : world E) : result (list nat * world E) :=
  if bool_decide (size < 0)%Z then Raise ValueError
  else if bool_decide (n = 0) && choice_rejects_empty E then Raise ValueError
  else if bool_decide (Z.of_nat n < size)%Z then Raise ValueError
  else Ok (rng_sample E n (Z.to_nat size) w).

(** ** active_learn *)

(** The arguments of [active_learn] ([verbose] only prints progress). *)
Record config {label} (E : externals label) : Type := {
  training_pool : list (row E);
  testing_pool : list (row E);
  training_oracle : list label;
  testing_oracle : list label;
  total_n : Z;
  initial_n : Z;
  random_n : Z;
  active_learning_heuristic : heuristic_fn E;
  classifier : classifier_obj E;
  compute_accuracy : accuracy_fn E;
  n_classes : Z;
  committee : option (committee_obj E);
  bag_size : option Z;
}.
Arguments training_pool {label E} c.
Arguments testing_pool {label E} c.
Arguments training_oracle {label E} c.
Arguments testing_oracle {label E} c.
Arguments total_n {label E} c.
Arguments initial_n {label E} c.
Arguments random_n {label E} c.
Arguments active_learning_heuristic {label E} c.
Arguments classifier {label E} c.
Arguments compute_accuracy {label E} c.
Arguments n_classes {label E} c.
Arguments committee {label E} c.
Arguments bag_size {label E} c.

(** The local variables of [active_learn] that live across iterations. *)
Record state {label} (E : externals label) : Type := {
  unlabelled_pool : list (row E);
  unlabelled_oracle : list label;
  X_train : list (row E);
  y_train : list label;
  learning_curve : list (acc E);
}.
Arguments unlabelled_pool {label E} s.
Arguments unlabelled_oracle {label E} s.
Arguments X_train {label E} s.
Arguments y_train {label E} s.
Arguments learning_curve {label E} s.

Section ActiveLearn.
Context {label : Type} (E : externals label).
Implicit Types (c : config E) (s : state E) (w : world E).

(** Lines 81-105: copy the pool, draw the seed sample, move it to the
    labelled set, fit and score. The world is returned also when the phase
    raises: an exception does not undo what was drawn or fitted before it.
    [X_train] and [y_train] start as empty float64 arrays, so the sample is
    converted when it is appended. *)
Definition seed_phase_run c w : world E * result (state E) :=
  let unlabelled_pool0 := training_pool c in
  let unlabelled_oracle0 := training_oracle c in
  match np_random_choice E (length unlabelled_oracle0) (initial_n c) w with
  | Raise e => (w, Raise e)
  | Ok (candidate_index, w) =>
      match Np.take_idx unlabelled_pool0 candidate_index with
      | Raise e => (w, Raise e)
      | Ok X_train_candidates =>
          match Np.take_idx unlabelled_oracle0 candidate_index with
          | Raise e => (w, Raise e)
          | Ok y_train_candidates =>
              let X_train1 := [] ++ (promote_row E <$> X_train_candidates) in
              let y_train1 := [] ++ (promote_label E <$> y_train_candidates) in
              let unlabelled_pool1 := Np.delete unlabelled_pool0 candidate_index in
              let unlabelled_oracle1 := Np.delete unlabelled_oracle0 candidate_index in
              let w := fit E (classifier c) X_train1 y_train1 w in
              let accuracy :=
                compute_accuracy c (classifier c) (testing_pool c) (testing_oracle c) w in
              (w, Ok {| unlabelled_pool := unlabelled_pool1;
                        unlabelled_oracle := unlabelled_oracle1;
                        X_train := X_train1;
                        y_train := y_train1;
                        learning_curve := [] ++ [accuracy] |})
          end
      end
  end.

(** The seed phase as the rest of the function sees it: the state and the
    world, or the exception. *)
Definition seed_phase c w : result (state E * world E) :=
  match seed_phase_run c w with
  | (w', Ok s) => Ok (s, w')
  | (_, Raise e) => Raise e
  end.

(** Line 111. *)
Definition candidate_size c s : Z :=
  Z.min (random_n c) (Z.of_nat (length (unlabelled_oracle s))).

(** Lines 111-116: the candidate batch of one iteration, as positions in
    the unlabelled pool, rows and labels. *)
Definition draw_candidates c s w
    : result (list nat * list (row E) * list label * world E) :=
  '(candidate_index, w) ←
    np_random_choice E (length (unlabelled_oracle s)) (candidate_size c s) w;
  X_train_candidates ← Np.take_idx (unlabelled_pool s) candidate_index;
  y_train_candidates ← Np.take_idx (unlabelled_oracle s) candidate_index;
  Ok (candidate_index, X_train_candidates, y_train_candidates, w).

(** Lines 111-135: the body of the while loop. The selected rows and
    labels are converted to the type of the labelled arrays when they are
    appended; the rows and labels already there stay as they are. *)
Definition query_step c s w : result (state E * world E) :=
  '(candidate_index, X_train_candidates, y_train_candidates, w) ←
    draw_candidates c s w;
  let '(best_index, w) :=
    active_learning_heuristic c X_train_candidates (X_train s) (y_train s)
      (n_classes c) (classifier c) (committee c) (bag_size c) w in
  X_best ← Np.take_z X_train_candidates best_index;
  let X_train1 := X_train s ++ (promote_row E <$> X_best) in
  y_best ← Np.take_z y_train_candidates best_index;
  let y_train1 := y_train s ++ (promote_label E <$> y_best) in
  best_index_in_unlabelled ← Np.take_z candidate_index best_index;
  let unlabelled_pool1 := Np.delete (unlabelled_pool s) best_index_in_unlabelled in
  let unlabelled_oracle1 := Np.delete (unlabelled_oracle s) best_index_in_unlabelled in
  let w := fit E (classifier c) X_train1 y_train1 w in
  let accuracy := compute_accuracy c (classifier c) (testing_pool c) (testing_oracle c) w in
  Ok ({| unlabelled_pool := unlabelled_pool1;
         unlabelled_oracle := unlabelled_oracle1;
         X_train := X_train1;
         y_train := y_train1;
         learning_curve := learning_curve s ++ [accuracy] |}, w).

(** Line 108: the loop test. *)
Definition continues c s : bool :=
  bool_decide (Z.of_nat (length (y_train s)) < total_n c)%Z.

(** The while loop, with a bound on the number of iterations: [None] when
    the bound is reached with the loop still running. *)
Fixpoint query_loop (fuel : nat) c s w : option (result (state E * world E)) :=
  if continues c s then
    match fuel with
    | O => None
    | S fuel' =>
        match query_step c s w with
        | Raise e => Some (Raise e)
        | Ok (s', w') => query_loop fuel' c s' w'
        end
    end
  else Some (Ok (s, w)).

(** A run up to the end of the loop, with the final state. *)
Definition active_learn_run (fuel : nat) c w : option (result (state E * world E)) :=
  match seed_phase c w with
  | Raise e => Some (Raise e)
  | Ok (s, w') => query_loop fuel c s w'
  end.

(** [active_learn]: the final world and the returned learning curve. *)
Definition active_learn (fuel : nat) c w : option (result (list (acc E) * world E)) :=
  match active_learn_run fuel c w with
  | None => None
  | Some (Raise e) => Some (Raise e)
  | Some (Ok (s, w')) => Some (Ok (learning_curve s, w'))
  end.

(** The loop as a relation, without a bound: [loop_result c s w r] when
    the loop started in [s] and [w] ends with [r]. *)
Inductive loop_result c : state E → world E → result (state E * world E) → Prop :=
| loop_exit s w :
    continues c s = false → loop_result c s w (Ok (s, w))
| loop_raise s w e :
    continues c s = true → query_step c s w = Raise e →
    loop_result c s w (Raise e)
| loop_next s w s' w' r :
    continues c s = true → query_step c s w = Ok (s', w') →
    loop_result c s' w' r → loop_result c s w r.

(** A run of [active_learn] as a relation: the learning curve or the
    exception it ends with. *)
Inductive run_result c w : result (list (acc E)) → Prop :=
| run_seed_raise e :
    seed_phase c w = Raise e → run_result c w (Raise e)
| run_loop_raise s w' e :
    seed_phase c w = Ok (s, w') → loop_result c s w' (Raise e) →
    run_result c w (Raise e)
| run_return s w' s' w'' :
    seed_phase c w = Ok (s, w') → loop_result c s w' (Ok (s', w'')) →
    run_result c w (Ok (learning_curve s')).

(** The states a run goes through: the state after the seed phase and
    the state after each iteration of the loop. *)
Inductive reachable c w0 : state E → world E → Prop :=
| reach_seed s w :
    seed_phase c w0 = Ok (s, w) → reachable c w0 s w
| reach_step s w s' w' :
    reachable c w0 s w → continues c s = true →
    query_step c s w = Ok (s', w') → reachable c w0 s' w'.
End ActiveLearn.

(** ** run_active_learning_with_heuristic *)

Module Experiment.
(** The arguments of [run_active_learning_with_heuristic]. The class
    labels are strings: the routine compares them with ['Galaxy'],
    ['Star'] and ['Quasar']. *)
Record args (E : externals string) : Type := {
  heursitic : heuristic_fn E;
  classifier : classifier_obj E;
  training_pool : list (row E);
  testing_pool : list (row E);
  training_oracle : list string;
  testing_oracle : list string;
  balanced_pool : bool;
  full_sample_size : Z;
  no_trials : Z;
  total_n : Z;
  initial_n : Z;
  random_n : Z;
  committee : option (committee_obj E);
  bag_size : option Z;
  pickle_path : option string;
}.
Arguments heursitic {E} a.
Arguments classifier {E} a.
Arguments training_pool {E} a.
Arguments testing_pool {E} a.
Arguments training_oracle {E} a.
Arguments testing_oracle {E} a.
Arguments balanced_pool {E} a.
Arguments full_sample_size {E} a.
Arguments no_trials {E} a.
Arguments total_n {E} a.
Arguments initial_n {E} a.
Arguments random_n {E} a.
Arguments committee {E} a.
Arguments bag_size {E} a.
Arguments pickle_path {E} a.

(** The files written by [pickle.dump]: a path holds the pickled list of
    learning curves (the format of the blob is not modelled). *)
Abbreviation files E := (gmap string (list (list (acc E)))).

(** Python's truth value of [pickle_path]: [None] and the empty string are
    false. *)
Definition truthy (p : option string) : bool :=
  match p with
  | None => false
  | Some s => negb (String.eqb s "")
  end.

Section Run.
Context (E : externals string).
(** [mclearn.performance.compute_balanced_accuracy], which is not part
    of this file of the repository. *)
Context (compute_balanced_accuracy : accuracy_fn E).
Implicit Types (a : args E) (w : world E).

(** Line 179. *)
Definition sub_sample_size a : Z := (full_sample_size a / 3)%Z.

(** Lines 182-187. *)
Definition i_max a : Z :=
  if balanced_pool a then (sub_sample_size a * no_trials a)%Z
  else (full_sample_size a * no_trials a)%Z.
Definition i_step a : Z :=
  if balanced_pool a then sub_sample_size a else full_sample_size a.

(** Lines 190-208: the training pool and oracle of the trial at offset
    [i]. *)
Definition training_sub a (i : Z) : result (list (row E) * list string) :=
  if balanced_pool a then
    let is_galaxy := (λ y, bool_decide (y = "Galaxy"%string)) <$> training_oracle a in
    let is_star := (λ y, bool_decide (y = "Star"%string)) <$> training_oracle a in
    let is_quasar := (λ y, bool_decide (y = "Quasar"%string)) <$> training_oracle a in
    galaxy_features ← Np.take_mask (training_pool a) is_galaxy;
    star_features ← Np.take_mask (training_pool a) is_star;
    quasar_features ← Np.take_mask (training_pool a) is_quasar;
    let training_galaxy := Np.slice galaxy_features i (i + sub_sample_size a) in
    let training_star := Np.slice star_features i (i + sub_sample_size a) in
    let training_quasar := Np.slice quasar_features i (i + sub_sample_size a) in
    let training_sub_pool := training_galaxy ++ training_star ++ training_quasar in
    labels_galaxy ← Np.repeat "Galaxy"%string (sub_sample_size a);
    labels_star ← Np.repeat "Star"%string (sub_sample_size a);
    labels_quasar ← Np.repeat "Quasar"%string (sub_sample_size a);
    let training_sub_oracle := labels_galaxy ++ labels_star ++ labels_quasar in
    Ok (training_sub_pool, training_sub_oracle)
  else
    Ok (Np.slice (training_pool a) i (i + full_sample_size a),
        Np.slice (training_oracle a) i (i + full_sample_size a)).

(** Lines 211-216: the call of [active_learn] for one trial. *)
Definition trial_config a (sub : list (row E) * list string) : config E :=
  Build_config _ E sub.1 (testing_pool a) sub.2 (testing_oracle a)
    (total_n a) (initial_n a) (random_n a) (heursitic a) (classifier a)
    compute_balanced_accuracy 3%Z (committee a) (bag_size a).

(** Lines 189-218: the loop over the trial offsets; each call of
    [active_learn] runs with the bound [fuel] on its iterations. *)
Fixpoint run_trials (fuel : nat) a (offsets : list Z)
    (learning_curves : list (list (acc E))) w
    : option (result (list (list (acc E)) * world E)) :=
  match offsets with
  | [] => Some (Ok (learning_curves, w))
  | i :: offsets' =>
      match training_sub a i with
      | Raise e => Some (Raise e)
      | Ok sub =>
          match active_learn E fuel (trial_config a sub) w with
          | None => None
          | Some (Raise e) => Some (Raise e)
          | Some (Ok (learning_curve, w')) =>
              run_trials fuel a offsets' (learning_curves ++ [learning_curve]) w'
          end
      end
  end.

(** The trials at [offsets] run one after the other: the trial at offset
    [i] calls [active_learn] on the training data that lines 190-208 build
    for [i] (without balancing: rows and labels [i] to
    [i + full_sample_size] of the data set), in the world the trial before
    it has left. [trials_ran fuel a offsets w curves w'] holds when every
    trial returns; [curves] are their learning curves, in the order of the
    trials, and [w'] is the world after the last one. *)
Inductive trials_ran (fuel : nat) a
    : list Z → world E → list (list (acc E)) → world E → Prop :=
| trials_ran_nil w : trials_ran fuel a [] w [] w
| trials_ran_cons i offsets w sub curve w1 curves w' :
    training_sub a i = Ok sub →
    (balanced_pool a = false →
     sub = (Np.slice (training_pool a) i (i + full_sample_size a),
            Np.slice (training_oracle a) i (i + full_sample_size a))) →
    active_learn E fuel
      (Build_config string E sub.1 (testing_pool a) sub.2 (testing_oracle a)
         (total_n a) (initial_n a) (random_n a) (heursitic a) (classifier a)
         compute_balanced_accuracy 3%Z (committee a) (bag_size a)) w
      = Some (Ok (curve, w1)) →
    trials_ran fuel a offsets w1 curves w' →
    trials_ran fuel a (i :: offsets) w (curve :: curves) w'.

(** The type of the offsets that [np.arange] returns at line 189: [None]
    for integers, [Some e] for float64 numbers, which a slice refuses with
    exception [e]. *)
Definition float_offsets a : option exn :=
  if Np.int64 (i_max a) && Np.int64 (i_step a) then None
  else wide_offsets E (i_max a) (i_step a).

(** Lines 190-208 for a float64 offset: with [balanced_pool] the masks are
    applied first, then the first slice raises [e]. *)
Definition training_sub_float a (e : exn) : exn :=
  if balanced_pool a then
    let is_galaxy := (λ y, bool_decide (y = "Galaxy"%string)) <$> training_oracle a in
    let is_star := (λ y, bool_decide (y = "Star"%string)) <$> training_oracle a in
    let is_quasar := (λ y, bool_decide (y = "Quasar"%string)) <$> training_oracle a in
    match
      (galaxy_features ← Np.take_mask (training_pool a) is_galaxy;
       star_features ← Np.take_mask (training_pool a) is_star;
       Np.take_mask (training_pool a) is_quasar)
    with
    | Raise e' => e'
    | Ok _ => e
    end
  else e.

(** The whole routine: the returned Python value ([None] when the
    function ends without [return]), the files and the world. *)
Definition run_active_learning_with_heuristic (fuel : nat) a
    (fs : files E) w
    : option (result (option (list (list (acc E))) * files E * world E)) :=
  match Np.arange0 (i_max a) (i_step a) with
  | Raise e => Some (Raise e)
  | Ok offsets =>
      let trials :=
        match float_offsets a, offsets with
        | None, _ => run_trials fuel a offsets [] w
        | Some e, [] => Some (Ok ([], w))
        | Some e, _ :: _ => Some (Raise (training_sub_float a e))
        end in
      match trials with
      | None => None
      | Some (Raise e) => Some (Raise e)
      | Some (Ok (learning_curves, w')) =>
          if truthy (pickle_path a) then
            Some (Ok (None, <[default ""%string (pickle_path a) := learning_curves]> fs, w'))
          else
            Some (Ok (Some learning_curves, fs, w'))
      end
  end.
End Run.
End Experiment.

(** ** Contracts of the heuristic and the partition of the pool *)

Section Contracts.
Context {label : Type} (E : externals label).

(** On a non-empty candidate batch the heuristic returns at least one
    index, each within the batch. *)
Definition selects_some (h : heuristic_fn E) : Prop :=
  ∀ Xc X y nc cl cm bs w, Xc ≠ [] →
    (h Xc X y nc cl cm bs w).1 ≠ [] ∧
    Forall (λ i, 0 ≤ i < Z.of_nat (length Xc))%Z (h Xc X y nc cl cm bs w).1.

(** ... and the indices are pairwise different. *)
Definition selects_distinct (h : heuristic_fn E) : Prop :=
  ∀ Xc X y nc cl cm bs w, Xc ≠ [] →
    (h Xc X y nc cl cm bs w).1 ≠ [] ∧
    NoDup (h Xc X y nc cl cm bs w).1 ∧
    Forall (λ i, 0 ≤ i < Z.of_nat (length Xc))%Z (h Xc X y nc cl cm bs w).1.

(** On a non-empty candidate batch the heuristic returns exactly one
    index within the batch. *)
Definition selects_one (h : heuristic_fn E) : Prop :=
  ∀ Xc X y nc cl cm bs w, Xc ≠ [] →
    ∃ i, (h Xc X y nc cl cm bs w).1 = [i] ∧ (0 ≤ i < Z.of_nat (length Xc))%Z.

(** The partition of the training data by position. [L] lists the
    positions, in the original pool, of the rows of the labelled set, in
    the order they were queried; [U] the positions of the labels the
    oracle still holds and [P] those of the rows left in the pool, both in
    the order of the original pool ([U] and [P] are the same list when the
    pool has as many rows as labels, otherwise one is the start of the
    other). The labelled set holds the rows and labels at the positions [L]
    as [np.append] and [np.concatenate] have converted them. *)
Record partition_inv (c : config E) (s : state E) (L U P : list nat) : Prop := {
  inv_labels : L ++ U ≡ₚ seq 0 (length (training_oracle c));
  inv_rows : L ++ P ≡ₚ seq 0 (length (training_pool c));
  inv_same : U `prefix_of` P ∨ P `prefix_of` U;
  inv_X_train :
    Forall2 (λ i x, promote_row E <$> training_pool c !! i = Some x) L (X_train s);
  inv_y_train :
    Forall2 (λ i y, promote_label E <$> training_oracle c !! i = Some y) L (y_train s);
  inv_pool :
    Forall2 (λ i x, training_pool c !! i = Some x) P (unlabelled_pool s);
  inv_oracle :
    Forall2 (λ i y, training_oracle c !! i = Some y) U (unlabelled_oracle s);
}.

(** Rows never get lost: the labels and the pool together are at least
    as many as the original pool, whatever the heuristic returns. *)
Definition none_lost (c : config E) (s : state E) : Prop :=
  length (training_oracle c) ≤ length (y_train s) + length (unlabelled_oracle s).
End Contracts.

(** ** A small concrete instance *)

(** Rows are small numbers, which the labelled arrays hold exactly, the
    world is the counter of the random generator and
    the number of rows the classifier was last fitted on; the accuracy
    function reports that number, so a learning curve reads as the size of
    the labelled set at each fit. The sample of [k] out of [n] is the start
    of [0 .. n-1] rotated by the counter. *)
Module Demo.
Definition env (rejects_empty : bool) : externals string :=
  {| row := nat;
     acc := nat;
     classifier_obj := unit;
     committee_obj := unit;
     world := nat * nat;
     rng_sample := λ n k w, (take k (rotate w.1 (seq 0 n)), (S w.1, w.2));
     choice_rejects_empty := rejects_empty;
     fit := λ _ X _ w, (w.1, length X);
     promote_row := λ x, x;
     promote_label := λ y, y;
     wide_offsets := λ _ _, Some TypeError |}.

Definition fitted_rows {r} : accuracy_fn (env r) := λ _ _ _ w, w.2.

(** A heuristic that always selects the single highest-index candidate. *)
Definition highest_index {r} : heuristic_fn (env r) :=
  λ Xc _ _ _ _ _ _ w, ([Z.of_nat (length Xc) - 1]%Z, w).

(** A heuristic that selects the first candidate, and nothing when the
    batch is empty. *)
Definition first_if_any {r} : heuristic_fn (env r) :=
  λ Xc _ _ _ _ _ _ w, (if Xc is [] then [] else [0%Z], w).

(** A heuristic that selects nothing. *)
Definition selects_nothing {r} : heuristic_fn (env r) :=
  λ _ _ _ _ _ _ _ w, ([], w).

(** A heuristic that returns an index past the end of the batch. *)
Definition past_the_end {r} : heuristic_fn (env r) :=
  λ Xc _ _ _ _ _ _ w, ([Z.of_nat (length Xc)], w).

(** A heuristic that selects the last candidate by the index [-1]. *)
Definition minus_one {r} : heuristic_fn (env r) :=
  λ _ _ _ _ _ _ _ w, ([-1]%Z, w).

(** A heuristic that selects the first candidate twice. *)
Definition first_twice {r} : heuristic_fn (env r) :=
  λ _ _ _ _ _ _ _ w, ([0; 0]%Z, w).

(** A heuristic that selects every candidate of the batch. *)
Definition every_candidate {r} : heuristic_fn (env r) :=
  λ Xc _ _ _ _ _ _ w, (Z.of_nat <$> seq 0 (length Xc), w).

(** A pool of [n] rows [0 .. n-1], the first half labelled ["a"] and the
    rest ["b"]. *)
Definition pool (n : nat) : list nat := seq 0 n.
Definition oracle (n : nat) : list string :=
  replicate (n / 2) "a"%string ++ replicate (n - n / 2) "b"%string.

Definition cfg {r} (n : nat) (total initial random : Z) (h : heuristic_fn (env r))
    : config (env r) :=
  @Build_config string (env r) (pool n) (seq 1000 2) (oracle n) ["a"%string; "b"%string]
    total initial random h tt (@fitted_rows r) 2%Z None None.

(** The same with more rows than labels: [n + extra] rows, [n] labels. *)
Definition cfg_extra_rows {r} (n extra : nat) (total initial random : Z)
    (h : heuristic_fn (env r)) : config (env r) :=
  @Build_config string (env r) (pool (n + extra)) (seq 1000 2) (oracle n)
    ["a"%string; "b"%string]
    total initial random h tt (@fitted_rows r) 2%Z None None.

(** The state after a seed phase with [initial_n = 0] on a pool of [n]. *)
Definition unseeded {r} (n : nat) : state (env r) :=
  @Build_state string (env r) (pool n) (oracle n) [] [] [0].

(** Arguments of the experiment routine over a given data set. *)
Definition experiment {r} (rows : list nat) (labels : list string)
    (balanced : bool) (full trials total initial random : Z)
    (h : heuristic_fn (env r)) (path : option string) : Experiment.args (env r) :=
  Experiment.Build_args (env r) h tt rows (seq 1000 2) labels
    ["a"%string; "b"%string] balanced full trials total initial random
    None None path.
End Demo.

(** ** active_learn over a store of arrays *)

(** The same function with the arrays as Python has them: objects in a
    store, reached through references. The caller passes references to its
    four arrays; every numpy operation of [active_learn] ([copy], fancy
    indexing, [np.append], [np.concatenate], [np.delete], [np.empty],
    [np.array]) returns a new array, and the local variables are rebound to
    it. The classifier, the heuristic and the accuracy function receive
    references too; as in the rest of this file they are taken to read the
    arrays they are given and to keep their own state in the world. Index
    arrays are local values. *)
Module Heap.
Section Store.
Context {label : Type} (E : externals label).

(** Feature matrices and label vectors live in two typed stores; a
    reference is a position in one of them. *)
Record store : Type := {
  mats : list (list (row E));
  vecs : list (list label);
}.

(** A computation on the store that may raise. The store is returned in
    both cases: an exception does not undo allocations. *)
Definition M (A : Type) : Type := store → store * result A.

Definition ret {A} (a : A) : M A := λ h, (h, Ok a).

Definition bind {A B} (m : M A) (f : A → M B) : M B := λ h,
  match m h with
  | (h1, Ok a) => f a h1
  | (h1, Raise e) => (h1, Raise e)
  end.

Definition lift {A} (r : result A) : M A := λ h, (h, r).

#[global] Instance store_ret : MRet M := @ret.
#[global] Instance store_bind : MBind M := λ A B f m, bind m f.

(** Reading through a reference. Python has no dangling references; the
    empty array stands for the case that does not arise. *)
Definition read_mat (h : store) (r : nat) : list (row E) := default [] (mats h !! r).
Definition read_vec (h : store) (r : nat) : list label := default [] (vecs h !! r).

Definition get_mat (r : nat) : M (list (row E)) := λ h, (h, Ok (read_mat h r)).
Definition get_vec (r : nat) : M (list label) := λ h, (h, Ok (read_vec h r)).

(** Allocation of a new array: the reference returned is fresh. *)
Definition alloc_mat (h : store) (m : list (row E)) : store :=
  {| mats := mats h ++ [m]; vecs := vecs h |}.
Definition alloc_vec (h : store) (v : list label) : store :=
  {| mats := mats h; vecs := vecs h ++ [v] |}.

Definition new_mat (m : list (row E)) : M nat := λ h,
  (alloc_mat h m, Ok (length (mats h))).
Definition new_vec (v : list label) : M nat := λ h,
  (alloc_vec h v, Ok (length (vecs h))).

(** [a.copy()]. *)
Definition copy_mat (r : nat) : M nat := bind (get_mat r) new_mat.
Definition copy_vec (r : nat) : M nat := bind (get_vec r) new_vec.

(** [a[idx]] for an index array. *)
Definition index_mat (r : nat) (idx : list nat) : M nat :=
  bind (get_mat r) (λ a, bind (lift (Np.take_idx a idx)) new_mat).
Definition index_vec (r : nat) (idx : list nat) : M nat :=
  bind (get_vec r) (λ a, bind (lift (Np.take_idx a idx)) new_vec).
Definition index_mat_z (r : nat) (idx : list Z) : M nat :=
  bind (get_mat r) (λ a, bind (lift (Np.take_z a idx)) new_mat).
Definition index_vec_z (r : nat) (idx : list Z) : M nat :=
  bind (get_vec r) (λ a, bind (lift (Np.take_z a idx)) new_vec).

(** [np.append(a, b, axis=0)] and [np.concatenate((a, b))] for [a] one
    of the labelled arrays: [b] is converted to the type of [a]. *)
Definition append_mat (r1 r2 : nat) : M nat :=
  bind (get_mat r1) (λ a, bind (get_mat r2) (λ b, new_mat (a ++ (promote_row E <$> b)))).
Definition concatenate_vec (r1 r2 : nat) : M nat :=
  bind (get_vec r1) (λ a, bind (get_vec r2) (λ b, new_vec (a ++ (promote_label E <$> b)))).

(** [np.delete(a, idx, axis=0)]. *)
Definition delete_mat (r : nat) (idx : list nat) : M nat :=
  bind (get_mat r) (λ a, new_mat (Np.delete a idx)).
Definition delete_vec (r : nat) (idx : list nat) : M nat :=
  bind (get_vec r) (λ a, new_vec (Np.delete a idx)).

(** The arguments of [active_learn], the arrays by reference. *)
Record args : Type := {
  training_pool : nat;
  testing_pool : nat;
  training_oracle : nat;
  testing_oracle : nat;
  total_n : Z;
  initial_n : Z;
  random_n : Z;
  active_learning_heuristic : heuristic_fn E;
  classifier : classifier_obj E;
  compute_accuracy : accuracy_fn E;
  n_classes : Z;
  committee : option (committee_obj E);
  bag_size : option Z;
}.

(** The local variables that live across iterations: four references and
    the Python list of accuracies. *)
Record locals : Type := {
  unlabelled_pool : nat;
  unlabelled_oracle : nat;
  X_train : nat;
  y_train : nat;
  learning_curve : list (acc E);
}.

(** Lines 81-105. *)
Definition seed_phase (a : args) (w : world E) : M (locals * world E) :=
  unlabelled_pool0 ← copy_mat (training_pool a);
  unlabelled_oracle0 ← copy_vec (training_oracle a);
  X_train0 ← new_mat [];
  y_train0 ← new_vec [];
  oracle ← get_vec unlabelled_oracle0;
  '(candidate_index, w) ← lift (np_random_choice E (length oracle) (initial_n a) w);
  X_train_candidates ← index_mat unlabelled_pool0 candidate_index;
  y_train_candidates ← index_vec unlabelled_oracle0 candidate_index;
  X_train1 ← append_mat X_train0 X_train_candidates;
  y_train1 ← concatenate_vec y_train0 y_train_candidates;
  unlabelled_pool1 ← delete_mat unlabelled_pool0 candidate_index;
  unlabelled_oracle1 ← delete_vec unlabelled_oracle0 candidate_index;
  X ← get_mat X_train1;
  y ← get_vec y_train1;
  let w := fit E (classifier a) X y w in
  X_test ← get_mat (testing_pool a);
  y_test ← get_vec (testing_oracle a);
  let accuracy := compute_accuracy a (classifier a) X_test y_test w in
  ret ({| unlabelled_pool := unlabelled_pool1;
          unlabelled_oracle := unlabelled_oracle1;
          X_train := X_train1;
          y_train := y_train1;
          learning_curve := [] ++ [accuracy] |}, w).

(** Lines 111-135. *)
Definition query_step (a : args) (s : locals) (w : world E) : M (locals * world E) :=
  oracle ← get_vec (unlabelled_oracle s);
  let candindate_size := Z.min (random_n a) (Z.of_nat (length oracle)) in
  '(candidate_index, w) ← lift (np_random_choice E (length oracle) candindate_size w);
  X_train_candidates ← index_mat (unlabelled_pool s) candidate_index;
  y_train_candidates ← index_vec (unlabelled_oracle s) candidate_index;
  Xc ← get_mat X_train_candidates;
  X ← get_mat (X_train s);
  y ← get_vec (y_train s);
  let '(best_index, w) :=
    active_learning_heuristic a Xc X y (n_classes a) (classifier a)
      (committee a) (bag_size a) w in
  X_best ← index_mat_z X_train_candidates best_index;
  X_train1 ← append_mat (X_train s) X_best;
  y_best ← index_vec_z y_train_candidates best_index;
  y_train1 ← concatenate_vec (y_train s) y_best;
  best_index_in_unlabelled ← lift (Np.take_z candidate_index best_index);
  unlabelled_pool1 ← delete_mat (unlabelled_pool s) best_index_in_unlabelled;
  unlabelled_oracle1 ← delete_vec (unlabelled_oracle s) best_index_in_unlabelled;
  X1 ← get_mat X_train1;
  y1 ← get_vec y_train1;
  let w := fit E (classifier a) X1 y1 w in
  X_test ← get_mat (testing_pool a);
  y_test ← get_vec (testing_oracle a);
  let accuracy := compute_accuracy a (classifier a) X_test y_test w in
  ret ({| unlabelled_pool := unlabelled_pool1;
          unlabelled_oracle := unlabelled_oracle1;
          X_train := X_train1;
          y_train := y_train1;
          learning_curve := learning_curve s ++ [accuracy] |}, w).

(** Line 108. *)
Definition continues (a : args) (s : locals) (h : store) : bool :=
  bool_decide (Z.of_nat (length (read_vec h (y_train s))) < total_n a)%Z.

(** The while loop with a bound on its iterations; the store is returned
    also when the bound is reached. *)
Fixpoint query_loop (fuel : nat) (a : args) (s : locals) (w : world E) (h : store)
    : store * option (result (locals * world E)) :=
  if continues a s h then
    match fuel with
    | O => (h, None)
    | S fuel' =>
        match query_step a s w h with
        | (h1, Raise e) => (h1, Some (Raise e))
        | (h1, Ok (s', w')) => query_loop fuel' a s' w' h1
        end
    end
  else (h, Some (Ok (s, w))).

(** [active_learn]: the store it leaves, and the returned curve. *)
Definition active_learn (fuel : nat) (a : args) (w : world E) (h : store)
    : store * option (result (list (acc E) * world E)) :=
  match seed_phase a w h with
  | (h1, Raise e) => (h1, Some (Raise e))
  | (h1, Ok (s, w')) =>
      match query_loop fuel a s w' h1 with
      | (h2, None) => (h2, None)
      | (h2, Some (Raise e)) => (h2, Some (Raise e))
      | (h2, Some (Ok (s', w''))) => (h2, Some (Ok (learning_curve s', w'')))
      end
  end.

(** The arguments as [active_learn] on values sees them: the arrays the
    references point to in store [h]. *)
Definition to_config (a : args) (h : store) : config E :=
  Build_config label E
    (read_mat h (training_pool a)) (read_mat h (testing_pool a))
    (read_vec h (training_oracle a)) (read_vec h (testing_oracle a))
    (total_n a) (initial_n a) (random_n a) (active_learning_heuristic a)
    (classifier a) (compute_accuracy a) (n_classes a) (committee a) (bag_size a).

(** The arrays the local variables point to. *)
Definition to_state (s : locals) (h : store) : state E :=
  Build_state label E
    (read_mat h (unlabelled_pool s)) (read_vec h (unlabelled_oracle s))
    (read_mat h (X_train s)) (read_vec h (y_train s)) (learning_curve s).

(** The caller's references point to arrays of store [h]. *)
Definition allocated (a : args) (h : store) : Prop :=
  training_pool a < length (mats h) ∧ testing_pool a < length (mats h) ∧
  training_oracle a < length (vecs h) ∧ testing_oracle a < length (vecs h).

Definition locals_allocated (s : locals) (h : store) : Prop :=
  unlabelled_pool s < length (mats h) ∧ X_train s < length (mats h) ∧
  unlabelled_oracle s < length (vecs h) ∧ y_train s < length (vecs h).

(** Store [h'] has every array of [h], unchanged, and maybe more. *)
Definition extends (h h' : store) : Prop :=
  mats h `prefix_of` mats h' ∧ vecs h `prefix_of` vecs h'.

(** A computation that only allocates. *)
Definition grows {A} (m : M A) : Prop := ∀ h, extends h (m h).1.
End Store.
End Heap.

(** The concrete instance over a store: the caller's four arrays. *)
Module DemoHeap.
Definition store (n : nat) : Heap.store (Demo.env true) :=
  @Heap.Build_store string (Demo.env true)
    [Demo.pool n; seq 1000 2] [Demo.oracle n; ["a"%string; "b"%string]].

Definition args (total initial random : Z) (h : heuristic_fn (Demo.env true))
    : Heap.args (Demo.env true) :=
  @Heap.Build_args string (Demo.env true) 0 1 0 1 total initial random h tt
    (@Demo.fitted_rows true) 2%Z None None.
End DemoHeap.

(** The arguments with another test set. *)
Definition with_test_set {label} {E : externals label} (c : config E)
    (X_test : list (row E)) (y_test : list label) : config E :=
  Build_config label E (training_pool c) X_test (training_oracle c) y_test
    (total_n c) (initial_n c) (random_n c) (active_learning_heuristic c)
    (classifier c) (compute_accuracy c) (n_classes c) (committee c) (bag_size c).

(** What a run leaves of the training data: the two sets, the number of
    accuracies recorded, and the world. *)
Definition training_outcome {label} {E : externals label}
    (r : option (result (state E * world E)))
    : option (result (list (row E) * list label * list (row E) * list label
                      * nat * world E)) :=
  match r with
  | None => None
  | Some (Raise e) => Some (Raise e)
  | Some (Ok (s, w)) =>
      Some (Ok (unlabelled_pool s, unlabelled_oracle s, X_train s, y_train s,
                length (learning_curve s), w))
  end.

(** The heuristic returns indices that numpy accepts for a batch of [n]
    candidates: each in [-n, n). *)
Definition selects_within {label} (E : externals label) (h : heuristic_fn E) : Prop :=
  ∀ Xc X y nc cl cm bs w,
    Forall (λ i, - Z.of_nat (length Xc) ≤ i < Z.of_nat (length Xc))%Z
      (h Xc X y nc cl cm bs w).1.

(** The position that numpy reads for an accepted index [i] of an array
    of length [n]. *)
Definition position (n : nat) (i : Z) : nat := Z.to_nat (i `mod` Z.of_nat n).

(** A row and its label as the labelled arrays hold them. *)
Definition promote_pair {label} (E : externals label) (p : row E * label)
    : row E * label :=
  (promote_row E p.1, promote_label E p.2).

(** The rows of the labelled set carry the labels the oracle holds for
    them (each pair of the labelled set is a pair of the training data, as
    converted by [np.append] and [np.concatenate]), and the rest of the
    pool is still lined up with the rest of the oracle. *)
Definition aligned {label} (E : externals label) (c : config E) (s : state E) : Prop :=
  length (X_train s) = length (y_train s) ∧
  Forall (λ p, p ∈ promote_pair E <$> zip (training_pool c) (training_oracle c))
    (zip (X_train s) (y_train s)) ∧
  zip (unlabelled_pool s) (unlabelled_oracle s)
    `sublist_of` zip (training_pool c) (training_oracle c).

(** The arguments with another feature matrix for the training pool. *)
Definition with_training_pool {label} {E : externals label} (c : config E)
    (X : list (row E)) : config E :=
  Build_config label E X (testing_pool c) (training_oracle c) (testing_oracle c)
    (total_n c) (initial_n c) (random_n c) (active_learning_heuristic c)
    (classifier c) (compute_accuracy c) (n_classes c) (committee c) (bag_size c).

(** Two states of the loop that differ by surplus rows at the end of the
    unlabelled pool only. *)
Definition same_but_surplus {label} {E : externals label}
    (surplus : list (row E)) (s1 s2 : state E) : Prop :=
  unlabelled_pool s1 = unlabelled_pool s2 ++ surplus ∧
  length (unlabelled_pool s2) = length (unlabelled_oracle s2) ∧
  unlabelled_oracle s1 = unlabelled_oracle s2 ∧
  X_train s1 = X_train s2 ∧ y_train s1 = y_train s2 ∧
  learning_curve s1 = learning_curve s2.

(** The rows of a data set that the oracle labels [cls], in the order of
    the data set, and the labels of a balanced trial of [n] rows per
    class. *)
Definition rows_of_class {R} (pool : list R) (oracle : list string) (cls : string)
    : list R :=
  fst <$> filter (λ p, p.2 = cls) (zip pool oracle).

Definition balanced_labels (n : nat) : list string :=
  replicate n "Galaxy"%string ++ replicate n "Star"%string
    ++ replicate n "Quasar"%string.

(** Two states of the loop that agree on everything the learner has seen:
    the rows, and the labels queried so far. The labels still held by the
    oracle may differ. *)
Definition same_but_hidden_labels {label} {E : externals label}
    (s1 s2 : state E) : Prop :=
  unlabelled_pool s1 = unlabelled_pool s2 ∧
  length (unlabelled_oracle s1) = length (unlabelled_oracle s2) ∧
  X_train s1 = X_train s2 ∧ y_train s1 = y_train s2.


(** * Properties of the numpy operations *)

Lemma bind_Ok {A B} (m : result A) (f : A → result B) (b : B) :
  m ≫= f = Ok b ↔ ∃ a, m = Ok a ∧ f a = Ok b.
Proof.
  destruct m as [a|e]; simpl; split.
  - eauto.
  - intros (a' & [= <-] & H). exact H.
  - discriminate.
  - intros (a' & [=] & _).
Qed.

Lemma bind_Raise {A B} (m : result A) (f : A → result B) (e : exn) :
  m ≫= f = Raise e ↔ m = Raise e ∨ ∃ a, m = Ok a ∧ f a = Raise e.
Proof.
  destruct m as [a|e']; simpl; split.
  - eauto.
  - intros [[=]|(a' & [= <-] & H)]. exact H.
  - intros [= <-]. by left.
  - intros [[= <-]|(a' & [=] & _)]. done.
Qed.

Section ArrayFacts.
Context {A : Type}.
Implicit Types (a : list A) (idx : list nat).

Lemma take_idx_Ok a idx xs :
  Np.take_idx a idx = Ok xs ↔ Forall2 (λ i x, a !! i = Some x) idx xs.
Proof.
  revert xs. induction idx as [|i idx IH]; intros xs; simpl.
  - split.
    + intros [= <-]. constructor.
    + intros H. by inversion H.
  - destruct (a !! i) as [x|] eqn:Hi.
    + rewrite bind_Ok. split.
      * intros (ys & Hys & [= <-]). constructor; [done|]. by apply IH.
      * intros H. inversion H as [|? y ? ys Hy Hrest]; subst.
        exists ys. split; [by apply IH|]. congruence.
    + split; [discriminate|].
      intros H. inversion H; subst. congruence.
Qed.

Lemma take_idx_length a idx xs :
  Np.take_idx a idx = Ok xs → length xs = length idx.
Proof. rewrite take_idx_Ok. intros H. symmetry. by eapply Forall2_length. Qed.

Lemma take_idx_Raise a idx e :
  Np.take_idx a idx = Raise e → e = IndexError ∧ Exists (λ i, length a ≤ i) idx.
Proof.
  induction idx as [|i idx IH]; simpl; [discriminate|].
  destruct (a !! i) as [x|] eqn:Hi.
  - rewrite bind_Raise. intros [H|(xs & _ & [=])].
    destruct (IH H) as [-> Hex]. split; [done|]. by apply Exists_cons_tl.
  - intros [= <-]. split; [done|]. apply Exists_cons_hd.
    by apply lookup_ge_None.
Qed.

Lemma take_idx_in_range a idx :
  Forall (λ i, i < length a) idx → ∃ xs, Np.take_idx a idx = Ok xs.
Proof.
  intros H. destruct (Np.take_idx a idx) as [xs|e] eqn:Heq; [eauto|].
  apply take_idx_Raise in Heq as [_ Hex].
  apply Exists_exists in Hex as (i & Hi & Hge).
  rewrite Forall_forall in H. specialize (H i Hi). lia.
Qed.

Lemma take_idx_Ok_in_range a idx xs :
  Np.take_idx a idx = Ok xs → Forall (λ i, i < length a) idx.
Proof.
  rewrite take_idx_Ok. intros H. induction H as [|i x idx xs Hi _ IH]; constructor.
  - by eapply lookup_lt_Some.
  - exact IH.
Qed.

Lemma take_idx_nil a : Np.take_idx a [] = Ok [].
Proof. done. Qed.

(** ** [np.delete] splits the array *)

Lemma picked_from_nil k a : Np.picked_from k a [] = [].
Proof.
  revert k. induction a as [|x a IH]; intros k; cbn [Np.picked_from]; [done|].
  rewrite bool_decide_eq_false_2; [apply IH|]. apply not_elem_of_nil.
Qed.

Lemma delete_from_nil k a : Np.delete_from k a [] = a.
Proof.
  revert k. induction a as [|x a IH]; intros k; cbn [Np.delete_from]; [done|].
  rewrite bool_decide_eq_false_2; [by rewrite IH|]. apply not_elem_of_nil.
Qed.

Lemma picked_delete_perm k a idx :
  Np.picked_from k a idx ++ Np.delete_from k a idx ≡ₚ a.
Proof.
  revert k. induction a as [|x a IH]; intros k; simpl; [done|].
  case_bool_decide; simpl.
  - by rewrite IH.
  - rewrite <- Permutation_middle. by rewrite IH.
Qed.

Lemma picked_from_below k a j idx :
  j < k → Np.picked_from k a (j :: idx) = Np.picked_from k a idx.
Proof.
  revert k. induction a as [|x a IH]; intros k Hlt; simpl; [done|].
  rewrite (IH (S k)) by lia.
  assert (k ∈ j :: idx ↔ k ∈ idx) as Hiff.
  { rewrite elem_of_cons. split; [intros [->|]; [lia|done]|by right]. }
  by rewrite (bool_decide_ext _ _ Hiff).
Qed.

Lemma picked_from_add k a i x idx :
  a !! i = Some x → k + i ∉ idx →
  Np.picked_from k a (k + i :: idx) ≡ₚ x :: Np.picked_from k a idx.
Proof.
  revert k i. induction a as [|y a IH]; intros k i Hi Hnot; [done|].
  destruct i as [|i]; simpl in *.
  - injection Hi as ->. rewrite Nat.add_0_r in *.
    rewrite bool_decide_eq_true_2 by (apply elem_of_cons; left; reflexivity).
    rewrite bool_decide_eq_false_2 by done.
    by rewrite picked_from_below by lia.
  - replace (k + S i) with (S k + i) in * by lia.
    assert (k ∈ S k + i :: idx ↔ k ∈ idx) as Hiff.
    { rewrite elem_of_cons. split; [intros [?|]; [lia|done]|by right]. }
    rewrite (bool_decide_ext _ _ Hiff).
    case_bool_decide.
    + rewrite (IH (S k) i) by done. apply perm_swap.
    + by apply IH.
Qed.

Lemma take_idx_picked a idx xs :
  Np.take_idx a idx = Ok xs → NoDup idx → xs ≡ₚ Np.picked_from 0 a idx.
Proof.
  rewrite take_idx_Ok. intros H. induction H as [|i x idx xs Hi _ IH]; intros Hnd.
  - by rewrite picked_from_nil.
  - apply NoDup_cons in Hnd as [Hnot Hnd].
    rewrite (picked_from_add 0 a i x idx Hi Hnot). by rewrite IH.
Qed.

(** Taking the rows at distinct positions and deleting the same positions
    splits the array: nothing is lost and nothing is doubled. *)
Lemma take_delete_perm a idx xs :
  Np.take_idx a idx = Ok xs → NoDup idx → xs ++ Np.delete a idx ≡ₚ a.
Proof.
  intros Hxs Hnd. rewrite (take_idx_picked a idx xs Hxs Hnd).
  apply picked_delete_perm.
Qed.

Lemma delete_nil a : Np.delete a [] = a.
Proof. apply delete_from_nil. Qed.

Lemma delete_from_length_le k a idx :
  length (Np.delete_from k a idx) ≤ length a.
Proof.
  revert k. induction a as [|x a IH]; intros k; simpl; [done|].
  specialize (IH (S k)). case_bool_decide; simpl; lia.
Qed.

Lemma picked_from_length_le k a idx :
  length (Np.picked_from k a idx) ≤ length idx.
Proof.
  revert k a. induction idx as [|i idx IH]; intros k a.
  - by rewrite picked_from_nil.
  - destruct (decide (k ≤ i ∧ is_Some (a !! (i - k)) ∧ i ∉ idx)) as [(Hk & [x Hx] & Hnot)|Hno].
    + replace i with (k + (i - k)) at 1 by lia.
      rewrite picked_from_add; [|done|by replace (k + (i - k)) with i by lia].
      simpl. specialize (IH k a). lia.
    + transitivity (length (Np.picked_from k a idx)); [|specialize (IH k a); simpl; lia].
      apply Nat.eq_le_incl. f_equal.
      clear IH. revert k Hno. induction a as [|y a IHa]; intros k Hno; simpl; [done|].
      assert (k ∈ i :: idx ↔ k ∈ idx) as Hiff.
      { rewrite elem_of_cons. split; [|by right]. intros [->|]; [|done].
        destruct (decide (i ∈ idx)); [done|]. exfalso. apply Hno.
        rewrite Nat.sub_diag. simpl. eauto. }
      rewrite (bool_decide_ext _ _ Hiff).
      rewrite IHa; [done|].
      intros (Hk & [x Hx] & Hnot). apply Hno. split; [lia|]. split; [|done].
      exists x. replace (i - k) with (S (i - S k)) by lia. done.
Qed.

(** [np.delete] removes at most as many rows as positions are listed. *)
Lemma delete_length_ge a idx :
  length a ≤ length (Np.delete a idx) + length idx.
Proof.
  pose proof (picked_delete_perm 0 a idx) as Hp.
  apply Permutation_length in Hp. rewrite length_app, ?length_fmap in Hp.
  pose proof (picked_from_length_le 0 a idx). unfold Np.delete. lia.
Qed.

Lemma take_delete_length a idx xs :
  Np.take_idx a idx = Ok xs → NoDup idx →
  length (Np.delete a idx) + length idx = length a.
Proof.
  intros Hxs Hnd. pose proof (take_delete_perm a idx xs Hxs Hnd) as Hp.
  apply Permutation_length in Hp. rewrite length_app, ?length_fmap in Hp.
  apply take_idx_length in Hxs. lia.
Qed.
End ArrayFacts.

Section IndexFacts.
Context {A : Type}.
Implicit Types (a : list A) (idx : list Z) (js : list nat).

Lemma norm_index_Ok n i j :
  Np.norm_index n i = Ok j → j < n.
Proof.
  unfold Np.norm_index. repeat case_bool_decide; intros [= <-]; lia.
Qed.

Lemma norm_index_Raise n i e :
  Np.norm_index n i = Raise e ↔
  e = IndexError ∧ (i < - Z.of_nat n ∨ Z.of_nat n ≤ i)%Z.
Proof.
  unfold Np.norm_index. repeat case_bool_decide; split;
    try discriminate; try (intros [_ ?]; lia).
  - intros [= <-]. split; [done|lia].
  - by intros [-> _].
Qed.

Lemma norm_index_in_range n i :
  (0 ≤ i < Z.of_nat n)%Z → Np.norm_index n i = Ok (Z.to_nat i).
Proof. intros H. unfold Np.norm_index. by rewrite bool_decide_eq_true_2. Qed.

Lemma norm_indices_Ok n idx js :
  Np.norm_indices n idx = Ok js →
  length js = length idx ∧ Forall (λ j, j < n) js.
Proof.
  revert js. induction idx as [|i idx IH]; intros js; simpl.
  - intros [= <-]. by split.
  - rewrite bind_Ok. intros (j & Hj & H). apply bind_Ok in H as (js' & Hjs' & [= <-]).
    destruct (IH js' Hjs') as [Hlen Hall]. split; [simpl; lia|].
    constructor; [by eapply norm_index_Ok|done].
Qed.

Lemma norm_indices_Raise n idx e :
  Np.norm_indices n idx = Raise e ↔
  e = IndexError ∧ Exists (λ i, i < - Z.of_nat n ∨ Z.of_nat n ≤ i)%Z idx.
Proof.
  induction idx as [|i idx IH]; simpl.
  - split; [discriminate|]. intros [_ H]. by apply Exists_nil in H.
  - rewrite bind_Raise, Exists_cons, norm_index_Raise. split.
    + intros [[-> Hi]|(j & Hj & H)]; [split; [done|by left]|].
      apply bind_Raise in H as [H|(js & _ & [=])].
      apply IH in H as [-> H]. split; [done|by right].
    + intros [-> [Hi|Hex]]; [by left|].
      destruct (Np.norm_index n i) as [j|e'] eqn:Hj.
      * right. exists j. split; [done|]. apply bind_Raise. left. by apply IH.
      * left. apply norm_index_Raise in Hj as [_ Hc]. done.
Qed.

Lemma norm_indices_in_range n idx :
  Forall (λ i, 0 ≤ i < Z.of_nat n)%Z idx →
  Np.norm_indices n idx = Ok (Z.to_nat <$> idx).
Proof.
  induction 1 as [|i idx Hi _ IH]; simpl; [done|].
  by rewrite norm_index_in_range, IH.
Qed.

Lemma norm_indices_empty_array idx js :
  Np.norm_indices 0 idx = Ok js → idx = [] ∧ js = [].
Proof.
  destruct idx as [|i idx]; simpl.
  - by intros [= <-].
  - rewrite bind_Ok. intros (j & Hj & _). apply norm_index_Ok in Hj. lia.
Qed.

Lemma NoDup_to_nat idx :
  Forall (λ i, 0 ≤ i)%Z idx → NoDup idx → NoDup (Z.to_nat <$> idx).
Proof.
  intros Hall Hnd. induction Hnd as [|i idx Hnot Hnd IH]; simpl; [constructor|].
  apply Forall_cons in Hall as [Hi Hall]. constructor; [|by apply IH].
  rewrite list_elem_of_fmap. intros (i' & Heq & Hin).
  rewrite Forall_forall in Hall. specialize (Hall i' Hin).
  assert (i = i') as -> by lia. done.
Qed.

Lemma take_z_Ok a idx xs :
  Np.take_z a idx = Ok xs ↔
  ∃ js, Np.norm_indices (length a) idx = Ok js ∧ Np.take_idx a js = Ok xs.
Proof. unfold Np.take_z. apply bind_Ok. Qed.

Lemma take_z_Raise a idx e :
  Np.take_z a idx = Raise e ↔
  e = IndexError ∧
  Exists (λ i, i < - Z.of_nat (length a) ∨ Z.of_nat (length a) ≤ i)%Z idx.
Proof.
  unfold Np.take_z. rewrite bind_Raise, norm_indices_Raise. split.
  - intros [H|(js & Hjs & Ht)]; [done|].
    apply norm_indices_Ok in Hjs as [_ Hall].
    apply take_idx_in_range in Hall as [xs Hxs]. congruence.
  - auto.
Qed.

(** Indexing twice: [a[cidx][js]] is [a[cidx[js]]]. *)
Lemma take_idx_compose a (cidx js biu : list nat) xc xb :
  Np.take_idx a cidx = Ok xc → Np.take_idx cidx js = Ok biu →
  Np.take_idx xc js = Ok xb → Np.take_idx a biu = Ok xb.
Proof.
  rewrite !take_idx_Ok. intros Hc Hb. revert xb.
  induction Hb as [|j i js biu Hj _ IH]; intros xb Hx.
  - inversion Hx; subst. constructor.
  - inversion Hx as [|? x ? xb' Hxj Hrest]; subst. constructor; [|by apply IH].
    destruct (Forall2_lookup_l _ _ _ _ _ Hc Hj) as (x' & Hx' & Hai).
    congruence.
Qed.

Lemma take_idx_NoDup (cidx js biu : list nat) :
  Np.take_idx cidx js = Ok biu → NoDup cidx → NoDup js → NoDup biu.
Proof.
  rewrite take_idx_Ok. intros Hb Hc Hjs.
  induction Hb as [|j i js biu Hj Hb IH]; [constructor|].
  apply NoDup_cons in Hjs as [Hnot Hjs]. constructor; [|by apply IH].
  intros Hin. apply list_elem_of_lookup in Hin as [k Hk].
  destruct (Forall2_lookup_r _ _ _ _ _ Hb Hk) as (j' & Hj' & Hcj').
  assert (j = j') as -> by exact (NoDup_lookup cidx j j' i Hc Hj Hcj').
  apply Hnot. by eapply list_elem_of_lookup_2.
Qed.

Lemma take_idx_zip {B} a (b : list B) (idx : list nat) xs ys :
  Np.take_idx a idx = Ok xs → Np.take_idx b idx = Ok ys →
  Np.take_idx (zip a b) idx = Ok (zip xs ys).
Proof.
  rewrite !take_idx_Ok. intros Ha. revert ys.
  induction Ha as [|i x idx xs Hi _ IH]; intros ys Hb.
  - inversion Hb; subst. constructor.
  - inversion Hb as [|? y ? ys' Hy Hrest]; subst. simpl. constructor; [|by apply IH].
    rewrite lookup_zip_with, Hi, Hy. done.
Qed.

Lemma delete_from_zip {B} k a (b : list B) (idx : list nat) :
  Np.delete_from k (zip a b) idx = zip (Np.delete_from k a idx) (Np.delete_from k b idx).
Proof.
  revert k b. induction a as [|x a IH]; intros k b; [done|].
  destruct b as [|y b]; simpl.
  - by rewrite zip_with_nil_r.
  - case_bool_decide; simpl; by rewrite IH.
Qed.

Lemma delete_zip {B} a (b : list B) (idx : list nat) :
  Np.delete (zip a b) idx = zip (Np.delete a idx) (Np.delete b idx).
Proof. apply delete_from_zip. Qed.
End IndexFacts.

(** ** Positions *)

Section PositionFacts.
Context {A : Type}.
Implicit Types (a : list A) (idx : list nat).

Lemma delete_from_length_eq {B} k a (b : list B) idx :
  length a = length b →
  length (Np.delete_from k a idx) = length (Np.delete_from k b idx).
Proof.
  revert k b. induction a as [|x a IH]; intros k [|y b] Hlen; simplify_eq/=; [done|].
  case_bool_decide; simpl; by rewrite (IH (S k) b).
Qed.

Lemma delete_from_Forall2 {B} (R : A → B → Prop) k a (b : list B) idx :
  Forall2 R a b → Forall2 R (Np.delete_from k a idx) (Np.delete_from k b idx).
Proof.
  intros H. revert k. induction H as [|x y a b Hxy _ IH]; intros k; simpl.
  - constructor.
  - case_bool_decide; [apply IH|]. constructor; [done|apply IH].
Qed.

Lemma take_idx_Forall2 {B} (R : A → B → Prop) a (b : list B) idx xs ys :
  Forall2 R a b → Np.take_idx a idx = Ok xs → Np.take_idx b idx = Ok ys →
  Forall2 R xs ys.
Proof.
  intros HR Hxs Hys. apply take_idx_Ok in Hxs, Hys.
  revert ys Hys. induction Hxs as [|i x idx xs Hi _ IH]; intros ys Hys.
  - apply Forall2_nil_inv_l in Hys as ->. constructor.
  - apply Forall2_cons_inv_l in Hys as (y & ys' & Hy & Hys & ->).
    constructor; [|by apply IH].
    by eapply Forall2_lookup_lr.
Qed.

Lemma seq_positions a : Forall2 (λ i x, a !! i = Some x) (seq 0 (length a)) a.
Proof.
  apply Forall2_same_length_lookup_2; [by rewrite length_seq|].
  intros i j x Hj Hx. apply lookup_seq in Hj as [-> _]. done.
Qed.

Lemma take_idx_seq n idx :
  Forall (λ i, i < n) idx → Np.take_idx (seq 0 n) idx = Ok idx.
Proof.
  induction 1 as [|i idx Hi _ IH]; [done|].
  simpl. rewrite lookup_seq_lt by done. simpl. by rewrite IH.
Qed.

Lemma delete_from_app k a b idx :
  Np.delete_from k (a ++ b) idx
  = Np.delete_from k a idx ++ Np.delete_from (k + length a) b idx.
Proof.
  revert k. induction a as [|x a IH]; intros k; simpl.
  - by rewrite Nat.add_0_r.
  - rewrite IH. replace (S k + length a) with (k + S (length a)) by lia.
    by case_bool_decide.
Qed.

Lemma delete_from_prefix k a b idx :
  a `prefix_of` b → Np.delete_from k a idx `prefix_of` Np.delete_from k b idx.
Proof. intros [b' ->]. rewrite delete_from_app. by apply prefix_app_r. Qed.

Lemma take_idx_prefix a b idx xs :
  a `prefix_of` b → Np.take_idx a idx = Ok xs → Np.take_idx b idx = Ok xs.
Proof.
  intros [b' ->] Hxs. apply take_idx_Ok. apply take_idx_Ok in Hxs.
  eapply Forall2_impl; [exact Hxs|]. intros i x Hi. by apply lookup_app_l_Some.
Qed.
Lemma take_idx_elem_of a idx xs :
  Np.take_idx a idx = Ok xs → Forall (λ x, x ∈ a) xs.
Proof.
  intros H. apply take_idx_Ok in H.
  induction H as [|i x idx xs Hi _ IH]; constructor; [|done].
  by eapply list_elem_of_lookup_2.
Qed.
End PositionFacts.

(** * Properties of the learner *)

Section LearnerFacts.
Context {label : Type} (E : externals label).
Implicit Types (c : config E) (s : state E) (w : world E).

Lemma choice_Ok n size w idx w' :
  sample_ok E → np_random_choice E n size w = Ok (idx, w') →
  (0 ≤ size ≤ Z.of_nat n)%Z ∧ NoDup idx ∧ Forall (λ i, i < n) idx ∧
  length idx = Z.to_nat size.
Proof.
  intros Hs. unfold np_random_choice.
  case_bool_decide; [discriminate|].
  destruct (bool_decide (n = 0) && choice_rejects_empty E); [discriminate|].
  case_bool_decide; [discriminate|].
  intros [= Heq]. destruct (Hs n (Z.to_nat size) w) as (Hnd & Hall & Hlen); [lia|].
  rewrite Heq in *. simpl in *. repeat split; (lia || done).
Qed.

Lemma choice_Raise n size w e :
  np_random_choice E n size w = Raise e → e = ValueError.
Proof.
  unfold np_random_choice.
  case_bool_decide; [by intros [= <-]|].
  destruct (bool_decide (n = 0) && choice_rejects_empty E); [by intros [= <-]|].
  case_bool_decide; [by intros [= <-]|discriminate].
Qed.

Lemma choice_succeeds n size w :
  (0 ≤ size ≤ Z.of_nat n)%Z → n ≠ 0 ∨ choice_rejects_empty E = false →
  np_random_choice E n size w = Ok (rng_sample E n (Z.to_nat size) w).
Proof.
  intros Hsize Hne. unfold np_random_choice.
  rewrite bool_decide_eq_false_2 by lia.
  rewrite (bool_decide_eq_false_2 (_ < _)%Z) by lia.
  destruct Hne as [Hn| ->].
  - by rewrite bool_decide_eq_false_2.
  - by rewrite andb_false_r.
Qed.

Lemma choice_too_many n size w :
  (Z.of_nat n < size)%Z → np_random_choice E n size w = Raise ValueError.
Proof.
  intros H. unfold np_random_choice.
  case_bool_decide; [done|].
  destruct (_ && _); [done|]. by rewrite bool_decide_eq_true_2.
Qed.

Lemma choice_empty_rejected size w :
  choice_rejects_empty E = true → np_random_choice E 0 size w = Raise ValueError.
Proof.
  intros H. unfold np_random_choice. rewrite H.
  case_bool_decide; [done|]. by rewrite bool_decide_eq_true_2.
Qed.

(** The seed phase as a chain of steps that may raise. *)
Lemma seed_phase_unfold c w :
  seed_phase E c w =
    ('(idx, w1) ← np_random_choice E (length (training_oracle c)) (initial_n c) w;
     Xc ← Np.take_idx (training_pool c) idx;
     yc ← Np.take_idx (training_oracle c) idx;
     Ok (Build_state label E
           (Np.delete (training_pool c) idx) (Np.delete (training_oracle c) idx)
           (promote_row E <$> Xc) (promote_label E <$> yc)
           [compute_accuracy c (classifier c) (testing_pool c) (testing_oracle c)
              (fit E (classifier c) (promote_row E <$> Xc) (promote_label E <$> yc) w1)],
         fit E (classifier c) (promote_row E <$> Xc) (promote_label E <$> yc) w1)).
Proof.
  unfold seed_phase, seed_phase_run.
  destruct (np_random_choice E _ _ w) as [[idx w1]|e]; simpl; [|done].
  destruct (Np.take_idx (training_pool c) idx) as [Xc|e]; simpl; [|done].
  by destruct (Np.take_idx (training_oracle c) idx) as [yc|e].
Qed.

(** What a successful seed phase has done. *)
Lemma seed_phase_Ok c w s w' :
  seed_phase E c w = Ok (s, w') →
  ∃ idx w1 Xc yc,
    np_random_choice E (length (training_oracle c)) (initial_n c) w = Ok (idx, w1) ∧
    Np.take_idx (training_pool c) idx = Ok Xc ∧
    Np.take_idx (training_oracle c) idx = Ok yc ∧
    X_train s = promote_row E <$> Xc ∧
    y_train s = promote_label E <$> yc ∧
    unlabelled_pool s = Np.delete (training_pool c) idx ∧
    unlabelled_oracle s = Np.delete (training_oracle c) idx ∧
    length (learning_curve s) = 1 ∧
    w' = fit E (classifier c) (X_train s) (y_train s) w1.
Proof.
  rewrite seed_phase_unfold, bind_Ok. intros ([idx w1] & Hch & H).
  apply bind_Ok in H as (Xc & HXc & H). apply bind_Ok in H as (yc & Hyc & H).
  injection H as <- <-. simpl. by exists idx, w1, Xc, yc.
Qed.

(** What a successful iteration has done: [cidx] is the candidate batch
    as positions in the unlabelled pool, [js] the selected positions in
    the batch, [biu] the selected positions in the unlabelled pool. *)
Lemma query_step_Ok c s w s' w' :
  query_step E c s w = Ok (s', w') →
  ∃ cidx w1 Xc yc js biu Xb yb,
    np_random_choice E (length (unlabelled_oracle s)) (candidate_size E c s) w
      = Ok (cidx, w1) ∧
    Np.take_idx (unlabelled_pool s) cidx = Ok Xc ∧
    Np.take_idx (unlabelled_oracle s) cidx = Ok yc ∧
    Np.norm_indices (length cidx)
      (active_learning_heuristic c Xc (X_train s) (y_train s) (n_classes c)
         (classifier c) (committee c) (bag_size c) w1).1 = Ok js ∧
    Np.take_idx cidx js = Ok biu ∧
    Np.take_idx (unlabelled_pool s) biu = Ok Xb ∧
    Np.take_idx (unlabelled_oracle s) biu = Ok yb ∧
    X_train s' = X_train s ++ (promote_row E <$> Xb) ∧
    y_train s' = y_train s ++ (promote_label E <$> yb) ∧
    unlabelled_pool s' = Np.delete (unlabelled_pool s) biu ∧
    unlabelled_oracle s' = Np.delete (unlabelled_oracle s) biu ∧
    length (learning_curve s') = S (length (learning_curve s)).
Proof.
  unfold query_step, draw_candidates. rewrite !bind_Ok.
  intros ([[[cidx Xc] yc] w1] & Hdraw & H).
  apply bind_Ok in Hdraw as ([cidx' w1'] & Hch & Hdraw).
  apply bind_Ok in Hdraw as (Xc' & HXc & Hdraw).
  apply bind_Ok in Hdraw as (yc' & Hyc & Hdraw).
  injection Hdraw as -> -> -> ->.
  destruct (active_learning_heuristic c Xc _ _ _ _ _ _ w1) as [best w2] eqn:Hh.
  apply bind_Ok in H as (Xb & HXb & H). apply bind_Ok in H as (yb & Hyb & H).
  apply bind_Ok in H as (biu & Hbiu & H). injection H as <- <-. simpl.
  apply take_z_Ok in HXb as (js & Hjs & HXb).
  apply take_z_Ok in Hyb as (js' & Hjs' & Hyb).
  apply take_z_Ok in Hbiu as (js'' & Hjs'' & Hbiu).
  rewrite (take_idx_length _ _ _ HXc) in Hjs.
  rewrite (take_idx_length _ _ _ Hyc) in Hjs'.
  assert (js' = js) as -> by congruence. assert (js'' = js) as -> by congruence.
  exists cidx, w1, Xc, yc, js, biu, Xb, yb. rewrite Hh. simpl.
  split_and!; try done.
  - by apply (take_idx_compose _ cidx js biu Xc Xb).
  - by apply (take_idx_compose _ cidx js biu yc yb).
  - rewrite length_app, ?length_fmap. simpl. lia.
Qed.

(** The sizes that the partition by position gives. *)
Lemma partition_inv_sizes c s L U P :
  partition_inv E c s L U P →
  length (y_train s) + length (unlabelled_oracle s) = length (training_oracle c) ∧
  length (X_train s) + length (unlabelled_pool s) = length (training_pool c) ∧
  length (X_train s) = length L ∧ length (y_train s) = length L.
Proof.
  intros [Hl Hr _ HX Hy Hp Ho].
  apply Permutation_length in Hl, Hr. rewrite length_app, length_seq in Hl, Hr.
  apply Forall2_length in HX, Hy, Hp, Ho. lia.
Qed.

(** The seed phase establishes the partition. *)
Lemma seed_phase_inv c w s w' :
  sample_ok E → seed_phase E c w = Ok (s, w') →
  ∃ L U P, partition_inv E c s L U P.
Proof.
  intros Hs Hseed.
  apply seed_phase_Ok in Hseed
    as (idx & w1 & Xc & yc & Hch & HXc & Hyc & HX & Hy & Hp & Ho & _).
  apply (choice_Ok _ _ _ _ _ Hs) in Hch as (_ & Hnd & Hrange & _).
  pose proof (take_idx_Ok_in_range _ _ _ HXc) as Hrange'.
  exists idx, (Np.delete (seq 0 (length (training_oracle c))) idx),
    (Np.delete (seq 0 (length (training_pool c))) idx).
  split.
  - apply take_delete_perm; [|done]. by apply take_idx_seq.
  - apply take_delete_perm; [|done]. by apply take_idx_seq.
  - destruct (decide (length (training_oracle c) ≤ length (training_pool c))) as [Hle|Hgt].
    + left. apply delete_from_prefix.
      replace (length (training_pool c))
        with (length (training_oracle c)
              + (length (training_pool c) - length (training_oracle c))) by lia.
      rewrite seq_app. by apply prefix_app_r.
    + right. apply delete_from_prefix.
      replace (length (training_oracle c))
        with (length (training_pool c)
              + (length (training_oracle c) - length (training_pool c))) by lia.
      rewrite seq_app. by apply prefix_app_r.
  - rewrite HX. apply Forall2_fmap_r. apply take_idx_Ok in HXc.
    eapply Forall2_impl; [exact HXc|]. intros i x ->. done.
  - rewrite Hy. apply Forall2_fmap_r. apply take_idx_Ok in Hyc.
    eapply Forall2_impl; [exact Hyc|]. intros i y ->. done.
  - rewrite Hp. apply delete_from_Forall2, seq_positions.
  - rewrite Ho. apply delete_from_Forall2, seq_positions.
Qed.

(** The positions selected in the batch are pairwise different when the
    heuristic returns distinct indices within the batch. *)
Lemma selected_NoDup c s w cidx w1 Xc js biu :
  sample_ok E → selects_distinct E (active_learning_heuristic c) →
  np_random_choice E (length (unlabelled_oracle s)) (candidate_size E c s) w
    = Ok (cidx, w1) →
  Np.take_idx (unlabelled_pool s) cidx = Ok Xc →
  Np.norm_indices (length cidx)
    (active_learning_heuristic c Xc (X_train s) (y_train s) (n_classes c)
       (classifier c) (committee c) (bag_size c) w1).1 = Ok js →
  Np.take_idx cidx js = Ok biu →
  NoDup biu.
Proof.
  intros Hs Hh Hch HXc Hjs Hbiu.
  apply (choice_Ok _ _ _ _ _ Hs) in Hch as (_ & Hnd & _ & _).
  assert (NoDup js) as Hndjs.
  { destruct (decide (Xc = [])) as [->|Hne].
    - apply take_idx_length in HXc. rewrite <- HXc in Hjs. simpl in Hjs.
      apply norm_indices_empty_array in Hjs as [_ ->]. constructor.
    - destruct (Hh Xc (X_train s) (y_train s) (n_classes c) (classifier c)
                  (committee c) (bag_size c) w1 Hne) as (_ & Hndb & Hall).
      rewrite (take_idx_length _ _ _ HXc) in Hall.
      rewrite (norm_indices_in_range _ _ Hall) in Hjs. injection Hjs as <-.
      apply NoDup_to_nat; [|done]. eapply Forall_impl; [exact Hall|].
      simpl. intros; lia. }
  by apply (take_idx_NoDup _ _ _ Hbiu Hnd Hndjs).
Qed.

(** One iteration preserves the partition when the positions selected in
    the batch are pairwise different: the positions queried are appended
    to [L] and leave [U] and [P]. *)
Lemma query_step_inv c s w s' w' L U P :
  sample_ok E → selects_distinct E (active_learning_heuristic c) →
  partition_inv E c s L U P → query_step E c s w = Ok (s', w') →
  ∃ L' U' P', partition_inv E c s' L' U' P' ∧ L `prefix_of` L'.
Proof.
  intros Hs Hh [Hlabels Hrows Hsame HX Hy Hp Ho] Hstep.
  apply query_step_Ok in Hstep
    as (cidx & w1 & Xc & yc & js & biu & Xb & yb & Hch & HXc & Hyc & Hjs & Hbiu
        & HXb & Hyb & HX' & Hy' & Hp' & Ho' & _).
  pose proof (selected_NoDup c s w cidx w1 Xc js biu Hs Hh Hch HXc Hjs Hbiu) as Hndb.
  destruct (take_idx_in_range U biu) as [Lb HLb].
  { rewrite (Forall2_length _ _ _ Ho). by eapply take_idx_Ok_in_range. }
  assert (Np.take_idx P biu = Ok Lb) as HLb'.
  { destruct Hsame as [Hpre|Hpre]; [by eapply take_idx_prefix|].
    destruct (take_idx_in_range P biu) as [Lb' HLb'].
    { rewrite (Forall2_length _ _ _ Hp). by eapply take_idx_Ok_in_range. }
    pose proof (take_idx_prefix _ _ _ _ Hpre HLb'). congruence. }
  exists (L ++ Lb), (Np.delete U biu), (Np.delete P biu). split; [|by apply prefix_app_r].
  split.
  - rewrite <- (assoc_L (++)), (take_delete_perm _ _ _ HLb Hndb). done.
  - rewrite <- (assoc_L (++)), (take_delete_perm _ _ _ HLb' Hndb). done.
  - destruct Hsame as [Hpre|Hpre]; [left|right]; by apply delete_from_prefix.
  - rewrite HX'. apply Forall2_app; [done|]. apply Forall2_fmap_r.
    pose proof (take_idx_Forall2 _ _ _ _ _ _ Hp HLb' HXb) as Hrows'.
    eapply Forall2_impl; [exact Hrows'|]. intros i x ->. done.
  - rewrite Hy'. apply Forall2_app; [done|]. apply Forall2_fmap_r.
    pose proof (take_idx_Forall2 _ _ _ _ _ _ Ho HLb Hyb) as Hlabels'.
    eapply Forall2_impl; [exact Hlabels'|]. intros i y ->. done.
  - rewrite Hp'. by apply delete_from_Forall2.
  - rewrite Ho'. by apply delete_from_Forall2.
Qed.

Lemma reachable_inv c w0 s w :
  sample_ok E → selects_distinct E (active_learning_heuristic c) →
  reachable E c w0 s w → ∃ L U P, partition_inv E c s L U P.
Proof.
  intros Hs Hh Hr. induction Hr as [s w Hseed|s w s' w' _ IH _ Hstep].
  - by eapply seed_phase_inv.
  - destruct IH as (L & U & P & Hinv).
    destruct (query_step_inv c s w s' w' L U P Hs Hh Hinv Hstep)
      as (L' & U' & P' & Hinv' & _).
    by exists L', U', P'.
Qed.
End LearnerFacts.

Section LoopFacts.
Context {label : Type} (E : externals label).
Implicit Types (c : config E) (s : state E) (w : world E).

(** An iteration adds as many labels as the heuristic returned indices,
    and removes at most as many rows from the pool. *)
Lemma query_step_sizes c s w s' w' :
  query_step E c s w = Ok (s', w') →
  ∃ k,
    length (y_train s') = length (y_train s) + k ∧
    length (X_train s') = length (X_train s) + k ∧
    length (unlabelled_oracle s) ≤ length (unlabelled_oracle s') + k ∧
    length (unlabelled_pool s) ≤ length (unlabelled_pool s') + k ∧
    length (learning_curve s') = S (length (learning_curve s)).
Proof.
  intros Hstep. apply query_step_Ok in Hstep
    as (cidx & w1 & Xc & yc & js & biu & Xb & yb & _ & _ & _ & _ & Hbiu
        & HXb & Hyb & -> & -> & -> & -> & Hcurve).
  exists (length biu). rewrite !length_app, !length_fmap.
  apply take_idx_length in HXb, Hyb.
  pose proof (delete_length_ge (unlabelled_oracle s) biu).
  pose proof (delete_length_ge (unlabelled_pool s) biu).
  split_and!; (lia || done).
Qed.

(** With a sample of distinct positions and a heuristic that selects
    exactly one candidate, an iteration on a non-empty pool succeeds and
    moves exactly one row. *)
Lemma query_step_one c s w :
  sample_ok E → selects_one E (active_learning_heuristic c) →
  (1 ≤ random_n c)%Z →
  length (unlabelled_pool s) = length (unlabelled_oracle s) →
  unlabelled_oracle s ≠ [] →
  ∃ s' w',
    query_step E c s w = Ok (s', w') ∧
    length (y_train s') = S (length (y_train s)) ∧
    length (X_train s') = S (length (X_train s)) ∧
    S (length (unlabelled_oracle s')) = length (unlabelled_oracle s) ∧
    length (unlabelled_pool s') = length (unlabelled_oracle s') ∧
    length (learning_curve s') = S (length (learning_curve s)).
Proof.
  intros Hs Hone Hrand Hlen Hne.
  assert (0 < length (unlabelled_oracle s)) as Hpos.
  { destruct (unlabelled_oracle s); [done|simpl; lia]. }
  destruct (query_step E c s w) as [[s' w']|e] eqn:Hstep.
  - exists s', w'. split; [done|].
    apply query_step_Ok in Hstep
      as (cidx & w1 & Xc & yc & js & biu & Xb & yb & Hch & HXc & Hyc & Hjs & Hbiu
          & HXb & Hyb & -> & -> & -> & -> & Hcurve).
    apply (choice_Ok _ _ _ _ _ _ Hs) in Hch as (Hsize & Hnd & Hall & Hlenc).
    unfold candidate_size in *.
    assert (Xc ≠ []) as HXne.
    { apply take_idx_length in HXc. intros ->. simpl in HXc. lia. }
    destruct (Hone Xc (X_train s) (y_train s) (n_classes c) (classifier c)
                (committee c) (bag_size c) w1 HXne) as (i & Hi & Hrange).
    rewrite Hi in Hjs. simpl in Hjs.
    apply bind_Ok in Hjs as (j & Hj & [= <-]).
    assert (NoDup [j]) as Hndj by (apply NoDup_singleton).
    pose proof (take_idx_NoDup _ _ _ Hbiu Hnd Hndj) as Hndb.
    pose proof (take_delete_length _ _ _ HXb Hndb) as HdX.
    pose proof (take_delete_length _ _ _ Hyb Hndb) as Hdy.
    apply take_idx_length in HXb, Hyb, Hbiu. simpl in *.
    rewrite !length_app, ?length_fmap. split_and!; (lia || done).
  - exfalso. unfold query_step, draw_candidates in Hstep.
    rewrite (choice_succeeds E) in Hstep by (unfold candidate_size; lia).
    destruct (Hs (length (unlabelled_oracle s))
                (Z.to_nat (candidate_size E c s)) w) as (Hnd & Hall & Hlenc);
      [unfold candidate_size; lia|].
    destruct (rng_sample E _ _ w) as [cidx w1]. simpl in *.
    destruct (take_idx_in_range (unlabelled_pool s) cidx) as [Xc HXc];
      [by rewrite Hlen|].
    destruct (take_idx_in_range (unlabelled_oracle s) cidx) as [yc Hyc]; [done|].
    rewrite HXc, Hyc in Hstep. simpl in Hstep.
    assert (Xc ≠ []) as HXne.
    { apply take_idx_length in HXc. intros ->. simpl in HXc.
      unfold candidate_size in *. lia. }
    destruct (Hone Xc (X_train s) (y_train s) (n_classes c) (classifier c)
                (committee c) (bag_size c) w1 HXne) as (i & Hi & Hrange).
    destruct (active_learning_heuristic c Xc _ _ _ _ _ _ w1) as [best w2].
    simpl in Hi. subst best.
    pose proof (take_idx_length _ _ _ HXc) as HlX.
    pose proof (take_idx_length _ _ _ Hyc) as Hly.
    assert (∀ {B} (a : list B), length a = length cidx →
              ∃ x, Np.take_z a [i] = Ok [x]) as Htake.
    { intros B a Ha. unfold Np.take_z. simpl.
      rewrite norm_index_in_range by lia. simpl.
      destruct (a !! Z.to_nat i) as [x|] eqn:Hx; [by exists x|].
      apply lookup_ge_None in Hx. lia. }
    destruct (Htake _ Xc HlX) as [x Hx]. destruct (Htake _ yc Hly) as [y Hy].
    destruct (Htake _ cidx eq_refl) as [b Hb].
    rewrite Hx in Hstep. simpl in Hstep. rewrite Hy in Hstep. simpl in Hstep.
    rewrite Hb in Hstep. simpl in Hstep. discriminate.
Qed.
End LoopFacts.

Section RunFacts.
Context {label : Type} (E : externals label).
Implicit Types (c : config E) (s : state E) (w : world E).

Lemma seed_phase_too_many c w :
  (Z.of_nat (length (training_oracle c)) < initial_n c)%Z →
  seed_phase E c w = Raise ValueError.
Proof. intros H. rewrite seed_phase_unfold. by rewrite choice_too_many. Qed.

Lemma seed_phase_negative c w :
  (initial_n c < 0)%Z → seed_phase E c w = Raise ValueError.
Proof.
  intros H. rewrite seed_phase_unfold. unfold np_random_choice.
  by rewrite bool_decide_eq_true_2.
Qed.

Lemma seed_phase_succeeds c w :
  sample_ok E → (0 ≤ initial_n c ≤ Z.of_nat (length (training_oracle c)))%Z →
  length (training_pool c) = length (training_oracle c) →
  training_oracle c ≠ [] ∨ choice_rejects_empty E = false →
  ∃ s w',
    seed_phase E c w = Ok (s, w') ∧
    Z.of_nat (length (y_train s)) = initial_n c ∧
    length (X_train s) = length (y_train s) ∧
    length (unlabelled_oracle s) + length (y_train s) = length (training_oracle c) ∧
    length (unlabelled_pool s) = length (unlabelled_oracle s) ∧
    length (learning_curve s) = 1.
Proof.
  intros Hs Hn Hlen Hne. rewrite seed_phase_unfold.
  rewrite (choice_succeeds E); [|done|].
  2: { destruct Hne as [Hne|Hne]; [left|by right].
       destruct (training_oracle c); [done|simpl; lia]. }
  destruct (Hs (length (training_oracle c)) (Z.to_nat (initial_n c)) w)
    as (Hnd & Hall & Hlenc); [lia|].
  destruct (rng_sample E _ _ w) as [idx w1]. simpl in *.
  destruct (take_idx_in_range (training_pool c) idx) as [Xc HXc]; [by rewrite Hlen|].
  destruct (take_idx_in_range (training_oracle c) idx) as [yc Hyc]; [done|].
  rewrite HXc, Hyc. simpl. eexists _, _. split; [done|]. simpl.
  pose proof (take_delete_length _ _ _ HXc Hnd).
  pose proof (take_delete_length _ _ _ Hyc Hnd).
  apply take_idx_length in HXc, Hyc. rewrite !length_fmap. split_and!; lia.
Qed.

Lemma query_loop_stop fuel c s w :
  continues E c s = false → query_loop E fuel c s w = Some (Ok (s, w)).
Proof. intros H. destruct fuel; simpl; by rewrite H. Qed.

Lemma query_loop_step fuel c s w :
  continues E c s = true →
  query_loop E (S fuel) c s w =
    match query_step E c s w with
    | Raise e => Some (Raise e)
    | Ok (s', w') => query_loop E fuel c s' w'
    end.
Proof. intros H. simpl. by rewrite H. Qed.

(** More fuel does not change the outcome of a loop that has ended. *)
Lemma query_loop_mono fuel fuel' c s w r :
  query_loop E fuel c s w = Some r → fuel ≤ fuel' →
  query_loop E fuel' c s w = Some r.
Proof.
  revert fuel' s w. induction fuel as [|fuel IH]; intros fuel' s w Hr Hle.
  - simpl in Hr. destruct (continues E c s) eqn:Hc; [done|].
    by rewrite query_loop_stop.
  - destruct (continues E c s) eqn:Hc; [|by rewrite query_loop_stop in *].
    destruct fuel' as [|fuel']; [lia|].
    rewrite query_loop_step in * by done.
    destruct (query_step E c s w) as [[s' w']|e]; [|done].
    apply IH; [done|lia].
Qed.

(** The bounded loop and the loop relation agree. *)
Lemma query_loop_result fuel c s w r :
  query_loop E fuel c s w = Some r → loop_result E c s w r.
Proof.
  revert s w. induction fuel as [|fuel IH]; intros s w Hr.
  - simpl in Hr. destruct (continues E c s) eqn:Hc; [done|].
    injection Hr as <-. by constructor.
  - destruct (continues E c s) eqn:Hc.
    + rewrite query_loop_step in Hr by done.
      destruct (query_step E c s w) as [[s' w']|e] eqn:Hstep.
      * eapply loop_next; eauto.
      * injection Hr as <-. by apply loop_raise.
    + rewrite query_loop_stop in Hr by done. injection Hr as <-. by constructor.
Qed.

Lemma loop_result_query_loop c s w r :
  loop_result E c s w r → ∃ fuel, query_loop E fuel c s w = Some r.
Proof.
  induction 1 as [s w Hc|s w e Hc Hstep|s w s' w' r Hc Hstep _ [fuel IH]].
  - exists 0. by rewrite query_loop_stop.
  - exists 1. by rewrite query_loop_step, Hstep.
  - exists (S fuel). by rewrite query_loop_step, Hstep.
Qed.

Lemma loop_result_det c s w r1 r2 :
  loop_result E c s w r1 → loop_result E c s w r2 → r1 = r2.
Proof.
  intros H1. revert r2.
  induction H1 as [s w Hc|s w e Hc Hstep|s w s' w' r Hc Hstep _ IH];
    intros r2 H2; inversion H2; subst; try congruence.
  apply IH. congruence.
Qed.

(** The final state of the loop is one of the states the run goes
    through, and the loop test fails there. *)
Lemma query_loop_reachable fuel c w0 s w s' w' :
  reachable E c w0 s w → query_loop E fuel c s w = Some (Ok (s', w')) →
  reachable E c w0 s' w' ∧ continues E c s' = false.
Proof.
  revert s w. induction fuel as [|fuel IH]; intros s w Hr Hloop.
  - simpl in Hloop. destruct (continues E c s) eqn:Hc; [done|].
    by injection Hloop as <- <-.
  - destruct (continues E c s) eqn:Hc.
    + rewrite query_loop_step in Hloop by done.
      destruct (query_step E c s w) as [[s1 w1]|e] eqn:Hstep; [|done].
      eapply IH; [|done]. by eapply reach_step.
    + rewrite query_loop_stop in Hloop by done. by injection Hloop as <- <-.
Qed.

Lemma active_learn_run_reachable fuel c w s' w' :
  active_learn_run E fuel c w = Some (Ok (s', w')) →
  reachable E c w s' w' ∧ continues E c s' = false.
Proof.
  unfold active_learn_run. destruct (seed_phase E c w) as [[s w1]|e] eqn:Hseed; [|done].
  apply query_loop_reachable. by constructor.
Qed.

(** The loop with a heuristic that selects exactly one candidate: from a
    state that lacks [m] labels, with at least [m] rows in the pool, it
    runs [m] iterations and stops. *)
Lemma query_loop_one c :
  sample_ok E → selects_one E (active_learning_heuristic c) →
  (1 ≤ random_n c)%Z →
  ∀ m fuel s w,
    length (unlabelled_pool s) = length (unlabelled_oracle s) →
    (Z.of_nat (length (y_train s)) + Z.of_nat m = total_n c)%Z →
    m ≤ length (unlabelled_oracle s) → m ≤ fuel →
    ∃ s' w',
      query_loop E fuel c s w = Some (Ok (s', w')) ∧
      length (y_train s') = length (y_train s) + m ∧
      length (X_train s') = length (X_train s) + m ∧
      length (unlabelled_oracle s') + m = length (unlabelled_oracle s) ∧
      length (unlabelled_pool s') = length (unlabelled_oracle s') ∧
      length (learning_curve s') = length (learning_curve s) + m.
Proof.
  intros Hs Hone Hrand. induction m as [|m IH]; intros fuel s w Hlen Htot Hm Hfuel.
  - exists s, w. rewrite query_loop_stop.
    + split_and!; (lia || done).
    + unfold continues. apply bool_decide_eq_false_2. lia.
  - destruct fuel as [|fuel]; [lia|].
    rewrite query_loop_step by (unfold continues; apply bool_decide_eq_true_2; lia).
    destruct (query_step_one E c s w Hs Hone Hrand Hlen)
      as (s1 & w1 & Hstep & Hy & HX & Hu & Hp & Hcv).
    { intros Hnil. rewrite Hnil in Hm. simpl in Hm. lia. }
    rewrite Hstep.
    destruct (IH fuel s1 w1) as (s' & w' & Hloop & Hy' & HX' & Hu' & Hp' & Hcv');
      [done|lia|lia|lia|].
    exists s', w'. split; [done|]. split_and!; lia.
Qed.
End RunFacts.

Section ContractFacts.
Context {label : Type} (E : externals label).

Lemma selects_one_distinct (h : heuristic_fn E) :
  selects_one E h → selects_distinct E h.
Proof.
  intros H Xc X y nc cl cm bs w Hne.
  destruct (H Xc X y nc cl cm bs w Hne) as (i & -> & Hi).
  split_and!; [done|apply NoDup_singleton|by constructor].
Qed.

Lemma selects_distinct_some (h : heuristic_fn E) :
  selects_distinct E h → selects_some E h.
Proof.
  intros H Xc X y nc cl cm bs w Hne.
  destruct (H Xc X y nc cl cm bs w Hne) as (? & ? & ?). by split.
Qed.
End ContractFacts.

(** ** The concrete instance meets the contracts *)

Lemma rotate_perm {A} (n : nat) (l : list A) : rotate n l ≡ₚ l.
Proof.
  unfold rotate. rewrite (comm (++)). by rewrite take_drop.
Qed.

Lemma demo_sample_ok r : sample_ok (Demo.env r).
Proof.
  intros n k w Hk. simpl. split_and!.
  - apply (sublist_NoDup _ (rotate w.1 (seq 0 n))); [|apply sublist_take].
    rewrite rotate_perm. apply NoDup_seq.
  - apply Forall_take. rewrite rotate_perm. apply Forall_seq. intros; lia.
  - rewrite length_take, length_rotate, length_seq. lia.
Qed.

Lemma highest_index_selects_one r : selects_one (Demo.env r) Demo.highest_index.
Proof.
  intros Xc X y nc cl cm bs w Hne. eexists. split; [reflexivity|].
  destruct Xc; [done|]. simpl length. lia.
Qed.

Lemma first_if_any_selects_one r : selects_one (Demo.env r) Demo.first_if_any.
Proof.
  intros Xc X y nc cl cm bs w Hne. exists 0%Z.
  destruct Xc; [done|]. split; [done|]. simpl length. lia.
Qed.

(** * The partition of the pool (active_learn, lines 81-130) *)

(** C1. At every state of a run (after the seed phase and after each
    iteration of the loop), when every sample holds distinct positions and
    the heuristic returns distinct indices within the batch, the labelled
    set and the unlabelled pool partition the positions of the original
    pool. There are lists [L], [U] and [P] of positions such that the
    labelled set holds the rows and labels at the positions [L], in the
    order they were queried and as [np.append] and [np.concatenate] have
    converted them (to float64 for numbers); the oracle still holds the
    labels at [U] and the pool the rows at [P], unchanged and in their
    original order; [L] with [U] is a rearrangement of the positions of the
    labels and [L] with [P] one of the positions of the rows. So the sizes
    add up to the size of the original pool, no position is in the labelled
    set twice or on both sides, and none is missing. *)
Theorem partition_invariant {label} (E : externals label)
    (c : config E) (w0 : world E) (s : state E) (w : world E) :
  sample_ok E →
  selects_distinct E (active_learning_heuristic c) →
  reachable E c w0 s w →
  ∃ L U P,
    partition_inv E c s L U P ∧
    length (unlabelled_pool s) + length (X_train s) = length (training_pool c) ∧
    length (unlabelled_oracle s) + length (y_train s) = length (training_oracle c) ∧
    NoDup L ∧ NoDup U ∧ NoDup P ∧
    (∀ i, i ∈ L → (i ∉ U) ∧ (i ∉ P)) ∧
    (∀ i, i < length (training_oracle c) → i ∈ L ∨ i ∈ U) ∧
    (∀ i, i < length (training_pool c) → i ∈ L ∨ i ∈ P).
Proof.
  intros Hs Hh Hr.
  destruct (reachable_inv E c w0 s w Hs Hh Hr) as (L & U & P & Hinv).
  exists L, U, P. split; [done|].
  destruct (partition_inv_sizes E c s L U P Hinv) as (Hy & HX & _ & _).
  destruct Hinv as [Hlabels Hrows _ _ _ _ _].
  assert (NoDup (L ++ U)) as HndU by (rewrite Hlabels; apply NoDup_seq).
  assert (NoDup (L ++ P)) as HndP by (rewrite Hrows; apply NoDup_seq).
  apply NoDup_app in HndU as (HndL & HdisjU & HndU).
  apply NoDup_app in HndP as (_ & HdisjP & HndP).
  split_and!; try done; try lia.
  - intros i Hi. split; [by apply HdisjU|by apply HdisjP].
  - intros i Hi. apply elem_of_app. rewrite Hlabels. apply elem_of_seq. lia.
  - intros i Hi. apply elem_of_app. rewrite Hrows. apply elem_of_seq. lia.
Qed.

Lemma partition_invariant_witness :
  ∃ s w,
    active_learn_run (Demo.env true) 100
      (Demo.cfg 10 5 2 3 Demo.highest_index) (7, 0) = Some (Ok (s, w)) ∧
    X_train s = [7; 8; 2; 5; 0] ∧
    ∃ L U P,
      partition_inv (Demo.env true) (Demo.cfg 10 5 2 3 Demo.highest_index) s L U P ∧
      length (unlabelled_pool s) + length (X_train s) = 10 ∧
      length (unlabelled_oracle s) + length (y_train s) = 10 ∧
      NoDup L ∧ NoDup U ∧ NoDup P ∧
      (∀ i, i ∈ L → (i ∉ U) ∧ (i ∉ P)) ∧
      (∀ i, i < 10 → i ∈ L ∨ i ∈ U) ∧
      (∀ i, i < 10 → i ∈ L ∨ i ∈ P).
Proof.
  eexists _, _. split; [vm_compute; reflexivity|]. split; [reflexivity|].
  apply (partition_invariant (Demo.env true)
           (Demo.cfg 10 5 2 3 Demo.highest_index) (7, 0) _ (11, 5)).
  - apply demo_sample_ok.
  - apply selects_one_distinct, highest_index_selects_one.
  - apply (active_learn_run_reachable _ 100). vm_compute. reflexivity.
Defined.

(** * The length of the learning curve (active_learn, lines 78-144) *)

(** C3. With a heuristic that selects exactly one candidate per iteration,
    [random_n >= 1] and [0 <= initial_n <= total_n <= size of the pool], the
    run returns, the learning curve has [total_n - initial_n + 1] entries,
    the labelled set ends with [total_n] rows and the unlabelled pool with
    the rest. (An empty pool needs a numpy that samples nothing from an
    empty population.) *)
Theorem curve_length {label} (E : externals label) (c : config E) (w : world E)
    (fuel : nat) :
  sample_ok E →
  selects_one E (active_learning_heuristic c) →
  (1 ≤ random_n c)%Z →
  (0 ≤ initial_n c ≤ total_n c)%Z →
  (total_n c ≤ Z.of_nat (length (training_oracle c)))%Z →
  length (training_pool c) = length (training_oracle c) →
  training_oracle c ≠ [] ∨ choice_rejects_empty E = false →
  Z.to_nat (total_n c - initial_n c) ≤ fuel →
  ∃ s w',
    active_learn_run E fuel c w = Some (Ok (s, w')) ∧
    active_learn E fuel c w = Some (Ok (learning_curve s, w')) ∧
    Z.of_nat (length (learning_curve s)) = (total_n c - initial_n c + 1)%Z ∧
    Z.of_nat (length (y_train s)) = total_n c ∧
    length (X_train s) = length (y_train s) ∧
    (Z.of_nat (length (unlabelled_pool s))
     = Z.of_nat (length (training_pool c)) - total_n c)%Z.
Proof.
  intros Hs Hone Hrand Hinit Htot Hlen Hne Hfuel.
  destruct (seed_phase_succeeds E c w Hs) as (s0 & w0 & Hseed & Hy0 & HX0 & Hu0 & Hp0 & Hc0);
    [lia|done|done|].
  destruct (query_loop_one E c Hs Hone Hrand (Z.to_nat (total_n c - initial_n c))
              fuel s0 w0) as (s & w' & Hloop & Hy & HX & Hu & Hp & Hcv);
    [done|lia|lia|done|].
  exists s, w'. unfold active_learn, active_learn_run. rewrite Hseed, Hloop.
  split_and!; (done || lia).
Qed.

(** The scenario of the specification: a pool of 100, [initial_n = 10],
    [total_n = 30], [random_n = 20], the highest-index heuristic. *)
Lemma curve_length_witness :
  ∃ s w',
    active_learn_run (Demo.env true) 20
      (Demo.cfg 100 30 10 20 Demo.highest_index) (7, 0) = Some (Ok (s, w')) ∧
    length (learning_curve s) = 21 ∧
    length (X_train s) = 30 ∧
    length (unlabelled_pool s) = 70.
Proof.
  destruct (curve_length (Demo.env true)
              (Demo.cfg 100 30 10 20 Demo.highest_index) (7, 0) 20)
    as (s & w' & Hrun & _ & Hcv & Hy & HX & Hu).
  - apply demo_sample_ok.
  - apply highest_index_selects_one.
  - simpl. lia.
  - simpl. lia.
  - vm_compute. discriminate.
  - vm_compute. reflexivity.
  - left. vm_compute. discriminate.
  - vm_compute. lia.
  - exists s, w'. split; [exact Hrun|].
    change (length (training_pool (Demo.cfg 100 30 10 20 Demo.highest_index)))
      with (length (Demo.pool 100)) in Hu.
    unfold Demo.pool in Hu. rewrite length_seq in Hu.
    change (total_n (Demo.cfg 100 30 10 20 Demo.highest_index)) with 30%Z in *.
    change (initial_n (Demo.cfg 100 30 10 20 Demo.highest_index)) with 10%Z in *.
    split_and!; lia.
Defined.

(** * Termination and exhaustion of the pool (active_learn, lines 108-143) *)

Section Termination.
Context {label : Type} (E : externals label).
Implicit Types (c : config E) (s : state E) (w : world E).

Lemma seed_phase_none_lost c w s w' :
  seed_phase E c w = Ok (s, w') → none_lost E c s.
Proof.
  intros Hseed.
  apply seed_phase_Ok in Hseed as (idx & w1 & Xc & yc & _ & _ & Hyc & _ & Hy & _ & Ho & _).
  unfold none_lost. rewrite Ho, Hy, length_fmap. apply take_idx_length in Hyc.
  pose proof (delete_length_ge (training_oracle c) idx). lia.
Qed.

Lemma query_step_none_lost c s w s' w' :
  query_step E c s w = Ok (s', w') → none_lost E c s → none_lost E c s'.
Proof.
  intros Hstep. apply query_step_sizes in Hstep as (k & Hy & _ & Hu & _).
  unfold none_lost. lia.
Qed.

(** An iteration on a non-empty pool adds at least one label when the
    heuristic returns at least one index. *)
Lemma query_step_progress c s w s' w' :
  sample_ok E → selects_some E (active_learning_heuristic c) →
  (1 ≤ random_n c)%Z → unlabelled_oracle s ≠ [] →
  query_step E c s w = Ok (s', w') →
  length (y_train s) < length (y_train s').
Proof.
  intros Hs Hsome Hrand Hne Hstep.
  assert (0 < length (unlabelled_oracle s)) as Hpos.
  { destruct (unlabelled_oracle s); [done|simpl; lia]. }
  apply query_step_Ok in Hstep
    as (cidx & w1 & Xc & yc & js & biu & Xb & yb & Hch & HXc & Hyc & Hjs & Hbiu
        & HXb & Hyb & _ & -> & _).
  apply (choice_Ok _ _ _ _ _ _ Hs) in Hch as (Hsize & _ & _ & Hlenc).
  unfold candidate_size in *.
  assert (Xc ≠ []) as HXne.
  { apply take_idx_length in HXc. intros ->. simpl in HXc. lia. }
  destruct (Hsome Xc (X_train s) (y_train s) (n_classes c) (classifier c)
              (committee c) (bag_size c) w1 HXne) as (Hbest & _).
  apply norm_indices_Ok in Hjs as [Hlj _].
  apply take_idx_length in Hyb, Hbiu. rewrite length_app, ?length_fmap.
  destruct (active_learning_heuristic c Xc _ _ _ _ _ _ w1).1; [done|].
  simpl in Hlj. lia.
Qed.

Lemma query_loop_terminates c :
  sample_ok E → selects_some E (active_learning_heuristic c) →
  (1 ≤ random_n c)%Z →
  (total_n c ≤ Z.of_nat (length (training_oracle c)))%Z →
  ∀ n s w, none_lost E c s →
    (total_n c - Z.of_nat (length (y_train s)) ≤ Z.of_nat n)%Z →
    query_loop E n c s w ≠ None.
Proof.
  intros Hs Hsome Hrand Htot. induction n as [|n IH]; intros s w Hnl Hn.
  - rewrite query_loop_stop; [done|].
    unfold continues. apply bool_decide_eq_false_2. lia.
  - destruct (continues E c s) eqn:Hc; [|by rewrite query_loop_stop].
    rewrite query_loop_step by done.
    destruct (query_step E c s w) as [[s' w']|e] eqn:Hstep; [|done].
    apply IH; [by eapply query_step_none_lost|].
    unfold continues in Hc. apply bool_decide_eq_true_1 in Hc.
    assert (unlabelled_oracle s ≠ []) as Hne.
    { intros Hnil. unfold none_lost in Hnl. rewrite Hnil in Hnl. simpl in Hnl. lia. }
    pose proof (query_step_progress c s w s' w' Hs Hsome Hrand Hne Hstep). lia.
Qed.

(** On numpy releases that reject an empty population, the loop with a
    single-selection heuristic empties the pool and then fails in the
    draw of the next batch. *)
Lemma query_loop_exhausts c :
  sample_ok E → selects_one E (active_learning_heuristic c) →
  (1 ≤ random_n c)%Z → choice_rejects_empty E = true →
  ∀ m fuel s w,
    length (unlabelled_oracle s) = m →
    length (unlabelled_pool s) = length (unlabelled_oracle s) →
    (Z.of_nat (length (y_train s)) + Z.of_nat m < total_n c)%Z →
    m < fuel →
    query_loop E fuel c s w = Some (Raise ValueError).
Proof.
  intros Hs Hone Hrand Hrej. induction m as [|m IH]; intros fuel s w Hm Hlen Htot Hfuel.
  - destruct fuel as [|fuel]; [lia|].
    rewrite query_loop_step by (unfold continues; apply bool_decide_eq_true_2; lia).
    unfold query_step, draw_candidates. rewrite Hm.
    by rewrite choice_empty_rejected.
  - destruct fuel as [|fuel]; [lia|].
    rewrite query_loop_step by (unfold continues; apply bool_decide_eq_true_2; lia).
    destruct (query_step_one E c s w Hs Hone Hrand Hlen)
      as (s1 & w1 & Hstep & Hy & HX & Hu & Hp & Hcv).
    { intros Hnil. rewrite Hnil in Hm. done. }
    rewrite Hstep. apply IH; lia.
Qed.
End Termination.

(** ** An iteration on an exhausted pool *)

Section Exhausted.
Context {label : Type} (E : externals label).
Implicit Types (c : config E) (s : state E) (w : world E).

Lemma take_z_nil_inv {A} idx (xs : list A) :
  Np.take_z [] idx = Ok xs → idx = [] ∧ xs = [].
Proof.
  intros H. apply take_z_Ok in H as (js & Hjs & Hxs). simpl in Hjs.
  apply norm_indices_empty_array in Hjs as [-> ->]. simpl in Hxs.
  by injection Hxs as <-.
Qed.

(** Where numpy accepts an empty population, the heuristic is called on
    an empty batch: an iteration that moves nothing when it returns no
    index, an IndexError when it returns one. *)
Lemma query_step_exhausted_cases c s w :
  sample_ok E → choice_rejects_empty E = false → (0 ≤ random_n c)%Z →
  unlabelled_oracle s = [] →
  ∃ w1,
    ((active_learning_heuristic c [] (X_train s) (y_train s) (n_classes c)
        (classifier c) (committee c) (bag_size c) w1).1 = [] →
     ∃ s' w', query_step E c s w = Ok (s', w') ∧
              unlabelled_oracle s' = [] ∧
              unlabelled_pool s' = unlabelled_pool s ∧
              y_train s' = y_train s ∧ X_train s' = X_train s) ∧
    ((active_learning_heuristic c [] (X_train s) (y_train s) (n_classes c)
        (classifier c) (committee c) (bag_size c) w1).1 ≠ [] →
     query_step E c s w = Raise IndexError).
Proof.
  intros Hs Hacc Hrand Hnil.
  unfold query_step, draw_candidates, candidate_size. rewrite Hnil. simpl length.
  rewrite (choice_succeeds E); [|lia|by right].
  destruct (Hs 0 (Z.to_nat (Z.min (random_n c) (Z.of_nat 0))) w) as (_ & _ & Hlen); [lia|].
  destruct (rng_sample E 0 _ w) as [idx w1]. simpl in Hlen.
  assert (idx = []) as -> by (apply nil_length_inv; lia).
  simpl. exists w1.
  destruct (active_learning_heuristic c [] _ _ _ _ _ _ w1) as [best w2]. simpl.
  split.
  - intros ->. unfold Np.take_z. simpl.
    eexists _, _. split; [reflexivity|]. simpl.
    rewrite !app_nil_r. split_and!; try reflexivity. apply delete_nil.
  - intros Hne. destruct (@Np.take_z (row E) [] best) as [Xb|e] eqn:HXb.
    + by apply take_z_nil_inv in HXb as [-> _].
    + apply take_z_Raise in HXb as [-> _]. reflexivity.
Qed.

Lemma query_step_exhausted c s w :
  sample_ok E → choice_rejects_empty E = false → (0 ≤ random_n c)%Z →
  unlabelled_oracle s = [] →
  query_step E c s w = Raise IndexError ∨
  ∃ s' w', query_step E c s w = Ok (s', w') ∧
           unlabelled_oracle s' = [] ∧ y_train s' = y_train s.
Proof.
  intros Hs Hacc Hrand Hnil.
  destruct (query_step_exhausted_cases c s w Hs Hacc Hrand Hnil) as (w1 & Hnone & Hsome).
  destruct (active_learning_heuristic c [] _ _ _ _ _ _ w1).1 as [|i best].
  - right. destruct (Hnone eq_refl) as (s' & w' & Hstep & Ho & _ & Hy & _).
    by exists s', w'.
  - left. by apply Hsome.
Qed.

(** The loop on a pool too small for [total_n], where numpy accepts an
    empty population and the heuristic selects one candidate of a
    non-empty batch. *)
Lemma query_loop_accepting c :
  sample_ok E → selects_one E (active_learning_heuristic c) →
  (1 ≤ random_n c)%Z → choice_rejects_empty E = false →
  ∀ fuel s w,
    length (unlabelled_pool s) = length (unlabelled_oracle s) →
    (Z.of_nat (length (y_train s)) + Z.of_nat (length (unlabelled_oracle s))
       < total_n c)%Z →
    query_loop E fuel c s w = None ∨
    query_loop E fuel c s w = Some (Raise IndexError).
Proof.
  intros Hs Hone Hrand Hacc. induction fuel as [|fuel IH]; intros s w Hlen Htot.
  - left. simpl. unfold continues. by rewrite bool_decide_eq_true_2 by lia.
  - rewrite query_loop_step by (unfold continues; apply bool_decide_eq_true_2; lia).
    destruct (decide (unlabelled_oracle s = [])) as [Hnil|Hne].
    + destruct (query_step_exhausted_cases c s w Hs Hacc ltac:(lia) Hnil)
        as (w1 & Hnone & Hsome).
      destruct (active_learning_heuristic c [] _ _ _ _ _ _ w1).1 as [|i best].
      * destruct (Hnone eq_refl) as (s' & w' & -> & Ho & Hp & Hy & _).
        apply IH; [by rewrite Hp, Ho, Hlen, Hnil|].
        rewrite Ho, Hy. by rewrite Hnil in Htot.
      * right. by rewrite Hsome.
    + destruct (query_step_one E c s w Hs Hone Hrand Hlen Hne)
        as (s1 & w1 & -> & Hy & HX & Hu & Hp & Hcv).
      apply IH; [done|lia].
Qed.

(** ... it never ends when the heuristic returns no index for an empty
    batch ... *)
Lemma query_loop_accepting_forever c :
  sample_ok E → selects_one E (active_learning_heuristic c) →
  (1 ≤ random_n c)%Z → choice_rejects_empty E = false →
  (∀ X y nc cl cm bs w, (active_learning_heuristic c [] X y nc cl cm bs w).1 = []) →
  ∀ fuel s w,
    length (unlabelled_pool s) = length (unlabelled_oracle s) →
    (Z.of_nat (length (y_train s)) + Z.of_nat (length (unlabelled_oracle s))
       < total_n c)%Z →
    query_loop E fuel c s w = None.
Proof.
  intros Hs Hone Hrand Hacc Hempty.
  induction fuel as [|fuel IH]; intros s w Hlen Htot.
  - simpl. unfold continues. by rewrite bool_decide_eq_true_2 by lia.
  - rewrite query_loop_step by (unfold continues; apply bool_decide_eq_true_2; lia).
    destruct (decide (unlabelled_oracle s = [])) as [Hnil|Hne].
    + destruct (query_step_exhausted_cases c s w Hs Hacc ltac:(lia) Hnil)
        as (w1 & Hnone & _).
      destruct (Hnone (Hempty _ _ _ _ _ _ _)) as (s' & w' & -> & Ho & Hp & Hy & _).
      apply IH; [by rewrite Hp, Ho, Hlen, Hnil|].
      rewrite Ho, Hy. by rewrite Hnil in Htot.
    + destruct (query_step_one E c s w Hs Hone Hrand Hlen Hne)
        as (s1 & w1 & -> & Hy & HX & Hu & Hp & Hcv).
      apply IH; [done|lia].
Qed.

(** ... and ends with IndexError, once the pool is empty, when the
    heuristic returns an index for an empty batch. *)
Lemma query_loop_accepting_raises c :
  sample_ok E → selects_one E (active_learning_heuristic c) →
  (1 ≤ random_n c)%Z → choice_rejects_empty E = false →
  (∀ X y nc cl cm bs w, (active_learning_heuristic c [] X y nc cl cm bs w).1 ≠ []) →
  ∀ m fuel s w,
    length (unlabelled_oracle s) = m →
    length (unlabelled_pool s) = length (unlabelled_oracle s) →
    (Z.of_nat (length (y_train s)) + Z.of_nat m < total_n c)%Z →
    m < fuel →
    query_loop E fuel c s w = Some (Raise IndexError).
Proof.
  intros Hs Hone Hrand Hacc Hsome.
  induction m as [|m IH]; intros fuel s w Hm Hlen Htot Hfuel.
  - destruct fuel as [|fuel]; [lia|].
    rewrite query_loop_step by (unfold continues; apply bool_decide_eq_true_2; lia).
    apply nil_length_inv in Hm.
    destruct (query_step_exhausted_cases c s w Hs Hacc ltac:(lia) Hm)
      as (w1 & _ & Hraise).
    by rewrite (Hraise (Hsome _ _ _ _ _ _ _)).
  - destruct fuel as [|fuel]; [lia|].
    rewrite query_loop_step by (unfold continues; apply bool_decide_eq_true_2; lia).
    destruct (query_step_one E c s w Hs Hone Hrand Hlen)
      as (s1 & w1 & Hstep & Hy & HX & Hu & Hp & Hcv).
    { intros Hnil. rewrite Hnil in Hm. done. }
    rewrite Hstep. apply IH; lia.
Qed.
End Exhausted.

(** C4, as the code has it. With [random_n >= 1] and samples of distinct
    positions: (a) when [total_n] is at most the size of the pool and the
    heuristic returns at least one valid index on every non-empty batch, the
    run ends (with a curve or an exception) within [total_n] iterations;
    (b) when [total_n] exceeds the size of the pool and the heuristic
    selects exactly one candidate of every non-empty batch, the run never
    returns a learning curve. On the numpy releases that reject an empty
    population it ends with the ValueError that [np.random.choice] raises
    on the emptied pool (the code has no EmptyPoolError). On a numpy that
    accepts an empty population the heuristic is called on an empty batch
    once the pool is empty: if it returns an index then, the run ends with
    IndexError; if it returns none, the loop never ends. *)
Theorem termination_and_exhaustion {label} (E : externals label)
    (c : config E) (w : world E) :
  sample_ok E →
  (1 ≤ random_n c)%Z →
  ((total_n c ≤ Z.of_nat (length (training_oracle c)))%Z →
   selects_some E (active_learning_heuristic c) →
   ∀ fuel, Z.to_nat (total_n c) ≤ fuel → active_learn E fuel c w ≠ None) ∧
  ((Z.of_nat (length (training_oracle c)) < total_n c)%Z →
   length (training_pool c) = length (training_oracle c) →
   selects_one E (active_learning_heuristic c) →
   (∀ fuel r, active_learn E fuel c w ≠ Some (Ok r)) ∧
   (choice_rejects_empty E = true →
    ∀ fuel, length (training_oracle c) < fuel →
      active_learn E fuel c w = Some (Raise ValueError)) ∧
   (choice_rejects_empty E = false →
    (0 ≤ initial_n c ≤ Z.of_nat (length (training_oracle c)))%Z →
    (∀ fuel, active_learn E fuel c w = None ∨
             active_learn E fuel c w = Some (Raise IndexError)) ∧
    ((∀ X y nc cl cm bs w',
        (active_learning_heuristic c [] X y nc cl cm bs w').1 ≠ []) →
     ∀ fuel, length (training_oracle c) < fuel →
       active_learn E fuel c w = Some (Raise IndexError)) ∧
    ((∀ X y nc cl cm bs w',
        (active_learning_heuristic c [] X y nc cl cm bs w').1 = []) →
     ∀ fuel, active_learn E fuel c w = None))).
Proof.
  intros Hs Hrand. split.
  - intros Htot Hsome fuel Hfuel. unfold active_learn, active_learn_run.
    destruct (seed_phase E c w) as [[s0 w0]|e] eqn:Hseed; [|done].
    pose proof (query_loop_terminates E c Hs Hsome Hrand Htot fuel s0 w0
                  (seed_phase_none_lost E c w s0 w0 Hseed)) as Hterm.
    destruct (query_loop E fuel c s0 w0) as [[[s' w']|e]|]; [done|done|].
    exfalso. apply Hterm; [lia|done].
  - intros Htot Hlen Hone. split_and!.
    + intros fuel r Hrun. unfold active_learn in Hrun.
      destruct (active_learn_run E fuel c w) as [[[s' w']|e]|] eqn:Hr; [|done|done].
      apply active_learn_run_reachable in Hr as [Hreach Hstop].
      destruct (reachable_inv E c w s' w' Hs (selects_one_distinct E _ Hone) Hreach)
        as (L & U & P & Hinv).
      apply partition_inv_sizes in Hinv as (Hsize & _).
      unfold continues in Hstop. apply bool_decide_eq_false_1 in Hstop. lia.
    + intros Hrej fuel Hfuel. unfold active_learn, active_learn_run.
      destruct (decide (initial_n c < 0)%Z) as [Hneg|Hnn].
      { by rewrite seed_phase_negative. }
      destruct (decide (Z.of_nat (length (training_oracle c)) < initial_n c)%Z)
        as [Hbig|Hsmall].
      { by rewrite seed_phase_too_many. }
      destruct (decide (training_oracle c = [])) as [Hnil|Hne].
      { rewrite seed_phase_unfold. rewrite Hnil. simpl length.
        by rewrite choice_empty_rejected. }
      destruct (seed_phase_succeeds E c w Hs)
        as (s0 & w0 & Hseed & Hy0 & HX0 & Hu0 & Hp0 & Hc0); [lia|done|by left|].
      rewrite Hseed.
      rewrite (query_loop_exhausts E c Hs Hone Hrand Hrej
                 (length (unlabelled_oracle s0)) fuel s0 w0); [done|done|done|lia|lia].
    + intros Hacc Hinit.
      destruct (seed_phase_succeeds E c w Hs Hinit Hlen (or_intror Hacc))
        as (s0 & w0 & Hseed & Hy0 & HX0 & Hu0 & Hp0 & Hc0).
      unfold active_learn, active_learn_run. rewrite Hseed. split_and!.
      * intros fuel.
        destruct (query_loop_accepting E c Hs Hone Hrand Hacc fuel s0 w0 Hp0)
          as [->| ->]; [lia|by left|by right].
      * intros Hsome fuel Hfuel.
        rewrite (query_loop_accepting_raises E c Hs Hone Hrand Hacc Hsome
                   (length (unlabelled_oracle s0)) fuel s0 w0); [done|done|done|lia|lia].
      * intros Hnone fuel.
        rewrite (query_loop_accepting_forever E c Hs Hone Hrand Hacc Hnone
                   fuel s0 w0); [done|done|lia].
Qed.

Lemma termination_and_exhaustion_witness :
  active_learn (Demo.env true) 5 (Demo.cfg 10 5 2 3 Demo.highest_index) (7, 0) ≠ None ∧
  (∀ r, active_learn (Demo.env true) 4 (Demo.cfg 3 5 2 3 Demo.highest_index) (7, 0)
        ≠ Some (Ok r)) ∧
  active_learn (Demo.env true) 4 (Demo.cfg 3 5 2 3 Demo.highest_index) (7, 0)
    = Some (Raise ValueError) ∧
  active_learn (Demo.env false) 4 (Demo.cfg 3 5 2 3 Demo.highest_index) (7, 0)
    = Some (Raise IndexError) ∧
  active_learn (Demo.env false) 4 (Demo.cfg 3 5 2 3 Demo.first_if_any) (7, 0) = None.
Proof.
  split_and!.
  - apply (proj1 (termination_and_exhaustion (Demo.env true)
                    (Demo.cfg 10 5 2 3 Demo.highest_index) (7, 0)
                    (demo_sample_ok true) ltac:(simpl; lia))).
    + vm_compute. discriminate.
    + apply selects_distinct_some, selects_one_distinct, highest_index_selects_one.
    + vm_compute. lia.
  - intros r.
    apply (proj2 (termination_and_exhaustion (Demo.env true)
                    (Demo.cfg 3 5 2 3 Demo.highest_index) (7, 0)
                    (demo_sample_ok true) ltac:(simpl; lia))).
    + vm_compute. reflexivity.
    + vm_compute. reflexivity.
    + apply highest_index_selects_one.
  - apply (proj2 (termination_and_exhaustion (Demo.env true)
                    (Demo.cfg 3 5 2 3 Demo.highest_index) (7, 0)
                    (demo_sample_ok true) ltac:(simpl; lia))).
    + vm_compute. reflexivity.
    + vm_compute. reflexivity.
    + apply highest_index_selects_one.
    + reflexivity.
    + vm_compute. lia.
  - destruct (proj2 (termination_and_exhaustion (Demo.env false)
                       (Demo.cfg 3 5 2 3 Demo.highest_index) (7, 0)
                       (demo_sample_ok false) ltac:(simpl; lia)))
      as (_ & _ & Hacc).
    + vm_compute. reflexivity.
    + vm_compute. reflexivity.
    + apply highest_index_selects_one.
    + destruct (Hacc eq_refl) as (_ & Hraise & _).
      * vm_compute. split; discriminate.
      * apply Hraise; [|vm_compute; lia].
        intros X y nc cl cm bs w'. simpl. discriminate.
  - destruct (proj2 (termination_and_exhaustion (Demo.env false)
                       (Demo.cfg 3 5 2 3 Demo.first_if_any) (7, 0)
                       (demo_sample_ok false) ltac:(simpl; lia)))
      as (_ & _ & Hacc).
    + vm_compute. reflexivity.
    + vm_compute. reflexivity.
    + apply first_if_any_selects_one.
    + destruct (Hacc eq_refl) as (_ & _ & Hnone).
      * vm_compute. split; discriminate.
      * apply Hnone. intros X y nc cl cm bs w'. reflexivity.
Defined.

(** On a numpy that samples nothing from an empty population, a heuristic
    that selects at most one candidate, and none of an empty batch, keeps
    the loop running on the emptied pool. *)
Lemma demo_empty_pool_loops fuel (s : state (Demo.env false)) w :
  unlabelled_pool s = [] → unlabelled_oracle s = [] →
  continues (Demo.env false) (Demo.cfg 3 5 2 3 Demo.first_if_any) s = true →
  query_loop (Demo.env false) fuel (Demo.cfg 3 5 2 3 Demo.first_if_any) s w = None.
Proof.
  revert s w. induction fuel as [|fuel IH]; intros s w Hp Ho Hc.
  - simpl. by rewrite Hc.
  - rewrite query_loop_step by done.
    unfold query_step, draw_candidates, candidate_size. rewrite Hp, Ho. simpl.
    apply IH; [done|done|].
    unfold continues in *. simpl. by rewrite app_nil_r.
Qed.

(** C4 as stated fails: where numpy rejects the empty population the run
    ends with ValueError, not EmptyPoolError; where numpy accepts it the
    loop goes on for ever. *)
Lemma exhaustion_counterexample :
  (active_learn (Demo.env true) 10 (Demo.cfg 3 5 2 3 Demo.highest_index) (7, 0)
     = Some (Raise "ValueError"%string) ∧
   active_learn (Demo.env true) 10 (Demo.cfg 3 5 2 3 Demo.highest_index) (7, 0)
     ≠ Some (Raise "EmptyPoolError"%string)) ∧
  (∀ fuel,
     active_learn (Demo.env false) fuel (Demo.cfg 3 5 2 3 Demo.first_if_any) (7, 0)
     = None).
Proof.
  split; [split; vm_compute; [reflexivity|discriminate]|].
  intros fuel. unfold active_learn, active_learn_run.
  destruct (seed_phase _ _ _) as [[s0 w0]|e] eqn:Hseed;
    vm_compute in Hseed; [|discriminate].
  injection Hseed as <- <-.
  destruct fuel as [|fuel]; [reflexivity|].
  rewrite query_loop_step by reflexivity.
  destruct (query_step _ _ _ _) as [[s1 w1]|e] eqn:Hstep;
    vm_compute in Hstep; [|discriminate].
  injection Hstep as <- <-.
  by rewrite demo_empty_pool_loops.
Qed.

(** * What the heuristic returns (active_learn, lines 119-130) *)

Section HeuristicResult.
Context {label : Type} (E : externals label).
Implicit Types (c : config E) (s : state E) (w : world E).

Lemma draw_candidates_Ok c s w cidx Xc yc w1 :
  draw_candidates E c s w = Ok (cidx, Xc, yc, w1) →
  np_random_choice E (length (unlabelled_oracle s)) (candidate_size E c s) w
    = Ok (cidx, w1) ∧
  Np.take_idx (unlabelled_pool s) cidx = Ok Xc ∧
  Np.take_idx (unlabelled_oracle s) cidx = Ok yc ∧
  length Xc = length cidx ∧ length yc = length cidx.
Proof.
  unfold draw_candidates. rewrite bind_Ok. intros ([cidx' w1'] & Hch & H).
  apply bind_Ok in H as (Xc' & HXc & H). apply bind_Ok in H as (yc' & Hyc & H).
  injection H as -> -> -> ->.
  split_and!; try done; by eapply take_idx_length.
Qed.

Lemma loop_propagates fuel c s w e :
  continues E c s = true → query_step E c s w = Raise e →
  query_loop E (S fuel) c s w = Some (Raise e).
Proof. intros Hc Hstep. by rewrite query_loop_step, Hstep. Qed.
End HeuristicResult.

(** ** One iteration, for any accepted index array *)

Section StepFacts.
Context {label : Type} (E : externals label).
Implicit Types (c : config E) (s : state E) (w : world E).

Lemma norm_index_position n i :
  (- Z.of_nat n ≤ i < Z.of_nat n)%Z → Np.norm_index n i = Ok (position n i).
Proof.
  intros Hi. unfold Np.norm_index, position.
  case_bool_decide as H1.
  - by rewrite Z.mod_small by lia.
  - rewrite bool_decide_eq_true_2 by lia.
    replace (i `mod` Z.of_nat n)%Z with (i + Z.of_nat n)%Z; [done|].
    apply Z.mod_unique_pos with (-1)%Z; lia.
Qed.

Lemma norm_indices_position n idx :
  Forall (λ i, - Z.of_nat n ≤ i < Z.of_nat n)%Z idx →
  Np.norm_indices n idx = Ok (position n <$> idx).
Proof.
  induction 1 as [|i idx Hi _ IH]; [done|].
  simpl. rewrite norm_index_position by done. simpl. by rewrite IH.
Qed.

Lemma position_lt n i :
  (- Z.of_nat n ≤ i < Z.of_nat n)%Z → position n i < n.
Proof.
  intros Hi. unfold position.
  assert (0 ≤ i `mod` Z.of_nat n < Z.of_nat n)%Z by (apply Z.mod_pos_bound; lia).
  lia.
Qed.

Lemma take_z_position {A} (a : list A) idx :
  Forall (λ i, - Z.of_nat (length a) ≤ i < Z.of_nat (length a))%Z idx →
  ∃ xs, Np.take_z a idx = Ok xs ∧
        Forall2 (λ i x, a !! position (length a) i = Some x) idx xs.
Proof.
  intros Hidx. unfold Np.take_z. rewrite norm_indices_position by done. simpl.
  destruct (take_idx_in_range a (position (length a) <$> idx)) as [xs Hxs].
  { apply Forall_fmap. eapply Forall_impl; [exact Hidx|].
    intros i Hi. by apply position_lt. }
  exists xs. split; [done|].
  apply take_idx_Ok in Hxs. by apply Forall2_fmap_l in Hxs.
Qed.
End StepFacts.

Section Selected.
Context {label : Type} (E : externals label).
Implicit Types (c : config E) (s : state E) (w : world E).

(** An iteration whose heuristic returns indices in [-n, n): what it
    selects and the state it leaves. *)
Lemma query_step_selected c s w cidx Xc yc w1 best w2 :
  draw_candidates E c s w = Ok (cidx, Xc, yc, w1) →
  active_learning_heuristic c Xc (X_train s) (y_train s) (n_classes c)
    (classifier c) (committee c) (bag_size c) w1 = (best, w2) →
  Forall (λ i, - Z.of_nat (length Xc) ≤ i < Z.of_nat (length Xc))%Z best →
  ∃ Xb yb biu,
    Forall2 (λ i x, Xc !! position (length Xc) i = Some x) best Xb ∧
    Forall2 (λ i y, yc !! position (length Xc) i = Some y) best yb ∧
    Forall2 (λ i p, cidx !! position (length Xc) i = Some p) best biu ∧
    Forall2 (λ p x, unlabelled_pool s !! p = Some x) biu Xb ∧
    Forall2 (λ p y, unlabelled_oracle s !! p = Some y) biu yb ∧
    query_step E c s w =
      Ok (Build_state label E
            (Np.delete (unlabelled_pool s) biu)
            (Np.delete (unlabelled_oracle s) biu)
            (X_train s ++ (promote_row E <$> Xb))
            (y_train s ++ (promote_label E <$> yb))
            (learning_curve s ++
               [compute_accuracy c (classifier c) (testing_pool c) (testing_oracle c)
                  (fit E (classifier c) (X_train s ++ (promote_row E <$> Xb))
                     (y_train s ++ (promote_label E <$> yb)) w2)]),
          fit E (classifier c) (X_train s ++ (promote_row E <$> Xb))
            (y_train s ++ (promote_label E <$> yb)) w2).
Proof.
  intros Hdraw Hh Hbest.
  destruct (draw_candidates_Ok E c s w cidx Xc yc w1 Hdraw)
    as (_ & HXc & Hyc & HlX & Hly).
  destruct (take_z_position Xc best Hbest) as (Xb & HXb & HXb2).
  destruct (take_z_position yc best) as (yb & Hyb & Hyb2).
  { by rewrite Hly, <- HlX. }
  destruct (take_z_position cidx best) as (biu & Hbiu & Hbiu2).
  { by rewrite <- HlX. }
  rewrite Hly, <- HlX in Hyb2. rewrite <- HlX in Hbiu2.
  exists Xb, yb, biu.
  apply take_z_Ok in HXb as HXb'. destruct HXb' as (js & Hjs & HXb').
  apply take_z_Ok in Hyb as Hyb'. destruct Hyb' as (js2 & Hjs2 & Hyb').
  apply take_z_Ok in Hbiu as Hbiu'. destruct Hbiu' as (js3 & Hjs3 & Hbiu').
  rewrite Hly, <- HlX in Hjs2. rewrite <- HlX in Hjs3.
  assert (js2 = js) as -> by congruence. assert (js3 = js) as -> by congruence.
  split_and!; try done.
  - apply take_idx_Ok. by eapply take_idx_compose.
  - apply take_idx_Ok. by eapply take_idx_compose.
  - unfold query_step. rewrite Hdraw. simpl. rewrite Hh, HXb. simpl.
    rewrite Hyb. simpl. rewrite Hbiu. done.
Qed.

(** An iteration whose heuristic returns no index. *)
Lemma query_step_selects_nothing c s w cidx Xc yc w1 w2 :
  draw_candidates E c s w = Ok (cidx, Xc, yc, w1) →
  active_learning_heuristic c Xc (X_train s) (y_train s) (n_classes c)
    (classifier c) (committee c) (bag_size c) w1 = ([], w2) →
  query_step E c s w =
    Ok (Build_state label E (unlabelled_pool s) (unlabelled_oracle s)
          (X_train s) (y_train s)
          (learning_curve s ++
             [compute_accuracy c (classifier c) (testing_pool c) (testing_oracle c)
                (fit E (classifier c) (X_train s) (y_train s) w2)]),
        fit E (classifier c) (X_train s) (y_train s) w2).
Proof.
  intros Hdraw Hh. unfold query_step. rewrite Hdraw. simpl. rewrite Hh.
  unfold Np.take_z. simpl. by rewrite !app_nil_r, !delete_nil.
Qed.
End Selected.

(** C6, as the code has it. The code does not check what the heuristic
    returns; what happens is decided by numpy's indexing of the candidate
    batch. For a batch of [n] candidates: (a) an index outside [-n, n)
    makes the indexing raise IndexError, which ends the iteration and,
    uncaught, the loop and the run; (b) when every index lies in [-n, n)
    the iteration succeeds, an index in [-n, 0) counting from the end of
    the batch (index [i] is the candidate at position [i mod n]): the rows
    selected move to the labelled set with the labels at their positions;
    (c) an empty index array is accepted: the iteration moves no row,
    refits the classifier on the unchanged labelled set and appends one
    more accuracy to the curve. *)
Theorem heuristic_result_handling {label} (E : externals label)
    (c : config E) (s : state E) (w : world E) cidx Xc yc w1 best w2 :
  draw_candidates E c s w = Ok (cidx, Xc, yc, w1) →
  active_learning_heuristic c Xc (X_train s) (y_train s) (n_classes c)
    (classifier c) (committee c) (bag_size c) w1 = (best, w2) →
  (Exists (λ i, i < - Z.of_nat (length Xc) ∨ Z.of_nat (length Xc) ≤ i)%Z best →
   query_step E c s w = Raise IndexError ∧
   (continues E c s = true →
    ∀ fuel, query_loop E (S fuel) c s w = Some (Raise IndexError))) ∧
  (Forall (λ i, - Z.of_nat (length Xc) ≤ i < Z.of_nat (length Xc))%Z best →
   ∃ Xb yb biu,
     Forall2 (λ i x, Xc !! position (length Xc) i = Some x) best Xb ∧
     Forall2 (λ i y, yc !! position (length Xc) i = Some y) best yb ∧
     Forall2 (λ i p, cidx !! position (length Xc) i = Some p) best biu ∧
     query_step E c s w =
       Ok (Build_state label E
             (Np.delete (unlabelled_pool s) biu)
             (Np.delete (unlabelled_oracle s) biu)
             (X_train s ++ (promote_row E <$> Xb))
             (y_train s ++ (promote_label E <$> yb))
             (learning_curve s ++
                [compute_accuracy c (classifier c) (testing_pool c) (testing_oracle c)
                   (fit E (classifier c) (X_train s ++ (promote_row E <$> Xb))
                      (y_train s ++ (promote_label E <$> yb)) w2)]),
           fit E (classifier c) (X_train s ++ (promote_row E <$> Xb))
             (y_train s ++ (promote_label E <$> yb)) w2)) ∧
  (best = [] →
   query_step E c s w =
     Ok (Build_state label E (unlabelled_pool s) (unlabelled_oracle s)
           (X_train s) (y_train s)
           (learning_curve s ++
              [compute_accuracy c (classifier c) (testing_pool c) (testing_oracle c)
                 (fit E (classifier c) (X_train s) (y_train s) w2)]),
         fit E (classifier c) (X_train s) (y_train s) w2)).
Proof.
  intros Hdraw Hh. split_and!.
  - intros Hex.
    assert (query_step E c s w = Raise IndexError) as Hstep.
    { unfold query_step. rewrite Hdraw. simpl. rewrite Hh.
      assert (Np.take_z Xc best = Raise IndexError) as -> by (by apply take_z_Raise).
      done. }
    split; [done|]. intros Hc fuel. by apply loop_propagates.
  - intros Hrange.
    destruct (query_step_selected E c s w cidx Xc yc w1 best w2 Hdraw Hh Hrange)
      as (Xb & yb & biu & HXb & Hyb & Hbiu & _ & _ & Hstep).
    by exists Xb, yb, biu.
  - intros ->. by eapply query_step_selects_nothing.
Qed.

Lemma heuristic_result_handling_witness :
  query_step (Demo.env true) (Demo.cfg 4 3 0 2 Demo.past_the_end)
    (Demo.unseeded 4) (7, 0)
    = Raise IndexError ∧
  (∃ Xb yb biu,
     Forall2 (λ i x, [3; 0] !! position 2 i = Some x) [-1]%Z Xb ∧
     Forall2 (λ i y, ["b"; "a"]%string !! position 2 i = Some y) [-1]%Z yb ∧
     Forall2 (λ i p, [3; 0] !! position 2 i = Some p) [-1]%Z biu ∧
     query_step (Demo.env true) (Demo.cfg 4 3 0 2 Demo.minus_one)
       (Demo.unseeded 4) (7, 0)
     = Ok (@Build_state string (Demo.env true)
             (Np.delete (Demo.pool 4) biu) (Np.delete (Demo.oracle 4) biu)
             Xb yb [0; length Xb], (8, length Xb))) ∧
  query_step (Demo.env true) (Demo.cfg 4 3 0 2 Demo.selects_nothing)
    (Demo.unseeded 4) (7, 0)
  = Ok (@Build_state string (Demo.env true) (Demo.pool 4) (Demo.oracle 4) [] [] [0; 0],
        (8, 0)).
Proof.
  split_and!.
  - refine (proj1 (proj1 (heuristic_result_handling (Demo.env true)
              (Demo.cfg 4 3 0 2 Demo.past_the_end)
              (Demo.unseeded 4) (7, 0)
              [3; 0] [3; 0] ["b"; "a"]%string (8, 0) [2]%Z (8, 0) _ _) _)).
    + vm_compute. reflexivity.
    + reflexivity.
    + apply Exists_cons_hd. right. simpl. lia.
  - destruct (proj1 (proj2 (heuristic_result_handling (Demo.env true)
              (Demo.cfg 4 3 0 2 Demo.minus_one)
              (Demo.unseeded 4) (7, 0)
              [3; 0] [3; 0] ["b"; "a"]%string (8, 0) [-1]%Z (8, 0)
              ltac:(vm_compute; reflexivity) eq_refl)))
      as (Xb & yb & biu & HXb & Hyb & Hbiu & Hstep).
    + repeat constructor; simpl; lia.
    + exists Xb, yb, biu. split_and!; try done.
      rewrite Hstep. simpl. rewrite !length_fmap. by rewrite !list_fmap_id.
  - refine (proj2 (proj2 (heuristic_result_handling (Demo.env true)
              (Demo.cfg 4 3 0 2 Demo.selects_nothing)
              (Demo.unseeded 4) (7, 0)
              [3; 0] [3; 0] ["b"; "a"]%string (8, 0) [] (8, 0) _ _)) eq_refl).
    + vm_compute. reflexivity.
    + reflexivity.
Defined.

(** C6 as stated fails: an empty index array is not an error (the run goes
    on, without progress), and an index past the batch raises IndexError,
    not InvalidHeuristicResult. *)
Lemma heuristic_result_counterexample :
  is_ok (query_step (Demo.env true) (Demo.cfg 4 3 0 2 Demo.selects_nothing)
           (Demo.unseeded 4) (7, 0)) = true ∧
  active_learn (Demo.env true) 50 (Demo.cfg 4 3 0 2 Demo.selects_nothing) (7, 0) = None ∧
  active_learn (Demo.env true) 50 (Demo.cfg 4 3 0 2 Demo.past_the_end) (7, 0)
    = Some (Raise "IndexError"%string) ∧
  active_learn (Demo.env true) 50 (Demo.cfg 4 3 0 2 Demo.past_the_end) (7, 0)
    ≠ Some (Raise "InvalidHeuristicResult"%string).
Proof. split_and!; vm_compute; (reflexivity || discriminate). Qed.

(** ** More rows than labels *)

Section Surplus.
Context {label : Type} (E : externals label).
Implicit Types (c : config E) (s : state E) (w : world E).

Lemma take_idx_app_l {A} (a extra : list A) idx :
  Forall (λ i, i < length a) idx →
  Np.take_idx (a ++ extra) idx = Np.take_idx a idx.
Proof.
  induction 1 as [|i idx Hi _ IH]; [done|].
  simpl. rewrite lookup_app_l by done. by rewrite IH.
Qed.

Lemma delete_from_all_below {A} k (a : list A) idx :
  Forall (λ i, i < k) idx → Np.delete_from k a idx = a.
Proof.
  revert k. induction a as [|x a IH]; intros k Hidx; simpl; [done|].
  rewrite bool_decide_eq_false_2.
  - rewrite IH; [done|]. eapply Forall_impl; [exact Hidx|]. simpl. lia.
  - intros Hin. rewrite Forall_forall in Hidx. specialize (Hidx k Hin). lia.
Qed.

Lemma delete_from_app_l {A} k (a extra : list A) idx :
  Forall (λ i, i < k + length a) idx →
  Np.delete_from k (a ++ extra) idx = Np.delete_from k a idx ++ extra.
Proof.
  revert k. induction a as [|x a IH]; intros k Hidx; simpl.
  - apply delete_from_all_below. eapply Forall_impl; [exact Hidx|]. simpl. lia.
  - rewrite IH.
    + by case_bool_decide.
    + eapply Forall_impl; [exact Hidx|]. simpl. lia.
Qed.

Lemma take_idx_out_of_range {A} (a : list A) idx :
  ¬ Forall (λ i, i < length a) idx → Np.take_idx a idx = Raise IndexError.
Proof.
  intros Hn. destruct (Np.take_idx a idx) as [xs|e] eqn:H.
  - apply take_idx_Ok_in_range in H. done.
  - by apply take_idx_Raise in H as [-> _].
Qed.

(** The candidate rows and labels, drawn from a pool with surplus rows. *)
Lemma take_both_surplus (P surplus : list (row E)) (o : list label) idx :
  length P = length o →
  (∃ Xc yc, Np.take_idx (P ++ surplus) idx = Ok Xc ∧ Np.take_idx P idx = Ok Xc ∧
            Np.take_idx o idx = Ok yc ∧ Forall (λ i, i < length o) idx) ∨
  ((Np.take_idx (P ++ surplus) idx = Raise IndexError ∨
    Np.take_idx o idx = Raise IndexError) ∧
   Np.take_idx P idx = Raise IndexError).
Proof.
  intros Hlen.
  destruct (decide (Forall (λ i, i < length o) idx)) as [Hin|Hout].
  - left. destruct (take_idx_in_range P idx) as [Xc HXc]; [by rewrite Hlen|].
    destruct (take_idx_in_range o idx) as [yc Hyc]; [done|].
    exists Xc, yc. rewrite take_idx_app_l by (by rewrite Hlen). done.
  - right. split.
    + right. by apply take_idx_out_of_range.
    + apply take_idx_out_of_range. by rewrite Hlen.
Qed.

Lemma seed_phase_surplus c surplus w :
  length (training_pool c) = length (training_oracle c) →
  match seed_phase E (with_training_pool c (training_pool c ++ surplus)) w,
        seed_phase E c w with
  | Ok (s1, w1), Ok (s2, w2) => same_but_surplus surplus s1 s2 ∧ w1 = w2
  | Raise e1, Raise e2 => e1 = e2
  | _, _ => False
  end.
Proof.
  intros Hlen. rewrite !seed_phase_unfold.
  cbn [with_training_pool training_pool training_oracle initial_n classifier
       compute_accuracy testing_pool testing_oracle].
  destruct (np_random_choice E _ _ w) as [[idx w1]|e]; simpl; [|done].
  destruct (take_both_surplus (training_pool c) surplus (training_oracle c) idx Hlen)
    as [(Xc & yc & -> & -> & -> & Hin)|[[H1|H1] ->]].
  - simpl. split; [|done]. unfold same_but_surplus. simpl. split_and!; try done.
    + apply delete_from_app_l. simpl. by rewrite Hlen.
    + by apply delete_from_length_eq.
  - rewrite H1. done.
  - destruct (Np.take_idx (training_pool c ++ surplus) idx) as [Xc|e] eqn:HX; simpl.
    + by rewrite H1.
    + by apply take_idx_Raise in HX as [-> _].
Qed.

Lemma query_step_surplus c surplus s1 s2 w :
  same_but_surplus surplus s1 s2 →
  match query_step E (with_training_pool c (training_pool c ++ surplus)) s1 w,
        query_step E c s2 w with
  | Ok (s1', w1), Ok (s2', w2) => same_but_surplus surplus s1' s2' ∧ w1 = w2
  | Raise e1, Raise e2 => e1 = e2
  | _, _ => False
  end.
Proof.
  intros (Hp & Hlen & Ho & HX & Hy & Hcv).
  unfold query_step, draw_candidates, candidate_size.
  cbn [with_training_pool random_n active_learning_heuristic n_classes classifier
       committee bag_size compute_accuracy testing_pool testing_oracle].
  rewrite Hp, Ho, HX, Hy, Hcv.
  destruct (np_random_choice E _ _ w) as [[cidx w1]|e]; simpl; [|done].
  destruct (take_both_surplus (unlabelled_pool s2) surplus (unlabelled_oracle s2)
              cidx Hlen)
    as [(Xc & yc & -> & -> & -> & Hin)|[[H1|H1] ->]].
  - simpl.
    destruct (active_learning_heuristic c Xc _ _ _ _ _ _ w1) as [best w2].
    destruct (Np.take_z Xc best) as [Xb|e]; simpl; [|done].
    destruct (Np.take_z yc best) as [yb|e]; simpl; [|done].
    destruct (Np.take_z cidx best) as [biu|e] eqn:Hbiu; simpl; [|done].
    split; [|done]. unfold same_but_surplus. simpl. split_and!; try done.
    + apply delete_from_app_l. simpl. rewrite Hlen.
      apply take_z_Ok in Hbiu as (js & _ & Hbiu).
      apply take_idx_elem_of in Hbiu.
      eapply Forall_impl; [exact Hbiu|]. intros i Hi.
      rewrite Forall_forall in Hin. by apply Hin.
    + by apply delete_from_length_eq.
  - rewrite H1. done.
  - destruct (Np.take_idx (unlabelled_pool s2 ++ surplus) cidx) as [Xc|e] eqn:HXc; simpl.
    + by rewrite H1.
    + by apply take_idx_Raise in HXc as [-> _].
Qed.

Lemma query_loop_surplus fuel c surplus s1 s2 w :
  same_but_surplus surplus s1 s2 →
  match query_loop E fuel (with_training_pool c (training_pool c ++ surplus)) s1 w,
        query_loop E fuel c s2 w with
  | Some (Ok (s1', w1)), Some (Ok (s2', w2)) =>
      same_but_surplus surplus s1' s2' ∧ w1 = w2
  | Some (Raise e1), Some (Raise e2) => e1 = e2
  | None, None => True
  | _, _ => False
  end.
Proof.
  revert s1 s2 w. induction fuel as [|fuel IH]; intros s1 s2 w Hsim; simpl.
  - unfold continues. cbn [with_training_pool total_n].
    pose proof Hsim as (Hp & Hlen & Ho & HX & Hy & Hcv). rewrite Hy.
    by destruct (bool_decide _).
  - unfold continues. cbn [with_training_pool total_n].
    pose proof Hsim as (Hp & Hlen & Ho & HX & Hy & Hcv). rewrite Hy.
    destruct (bool_decide _); [|done].
    pose proof (query_step_surplus c surplus s1 s2 w Hsim) as Hstep.
    destruct (query_step E (with_training_pool _ _) s1 w) as [[s1' w1]|e1];
      destruct (query_step E c s2 w) as [[s2' w2]|e2]; try done.
    destruct Hstep as [Hsim' ->]. by apply IH.
Qed.
End Surplus.

(** * Configuration errors (active_learn, lines 77-105) *)

(** C7, as the code has it. The code validates nothing by itself. An
    [initial_n] above the number of labels makes the seed draw of
    [np.random.choice] raise ValueError; the exception leaves the world as
    it was (no random number has been drawn and the classifier has not been
    fitted) and ends the run before the loop, whatever the bound on the
    iterations. A [total_n] of zero or less is accepted: when the seed
    phase succeeds the loop body never runs and the run returns the
    one-entry curve and the world of the seed phase. A feature matrix with
    more rows than there are labels is accepted too: the run is the run on
    its first [len(training_oracle)] rows. *)
Theorem configuration_errors {label} (E : externals label) (c : config E) (w : world E) :
  ((Z.of_nat (length (training_oracle c)) < initial_n c)%Z →
   seed_phase_run E c w = (w, Raise ValueError) ∧
   seed_phase E c w = Raise ValueError ∧
   ∀ fuel, active_learn E fuel c w = Some (Raise ValueError)) ∧
  ((total_n c ≤ 0)%Z →
   ∀ s w', seed_phase E c w = Ok (s, w') →
     length (learning_curve s) = 1 ∧
     ∀ fuel, active_learn E fuel c w = Some (Ok (learning_curve s, w'))) ∧
  (length (training_pool c) = length (training_oracle c) →
   ∀ surplus fuel,
     active_learn E fuel (with_training_pool c (training_pool c ++ surplus)) w
     = active_learn E fuel c w).
Proof.
  split_and!.
  - intros Hbig.
    assert (seed_phase_run E c w = (w, Raise ValueError)) as Hrun.
    { unfold seed_phase_run. by rewrite choice_too_many. }
    assert (seed_phase E c w = Raise ValueError) as Hseed.
    { unfold seed_phase. by rewrite Hrun. }
    split_and!; [done|done|]. intros fuel. unfold active_learn, active_learn_run.
    by rewrite Hseed.
  - intros Htot s w' Hseed. split.
    + by apply seed_phase_Ok in Hseed as (_ & _ & _ & _ & _ & _ & _ & _ & _ & _ & _ & ? & _).
    + intros fuel. unfold active_learn, active_learn_run. rewrite Hseed.
      rewrite query_loop_stop; [done|].
      unfold continues. apply bool_decide_eq_false_2. lia.
  - intros Hlen surplus fuel. unfold active_learn, active_learn_run.
    pose proof (seed_phase_surplus E c surplus w Hlen) as Hseed.
    destruct (seed_phase E (with_training_pool _ _) w) as [[s1 w1]|e1];
      destruct (seed_phase E c w) as [[s2 w2]|e2]; try done.
    + destruct Hseed as [Hsim ->].
      pose proof (query_loop_surplus E fuel c surplus s1 s2 w2 Hsim) as Hloop.
      destruct (query_loop E fuel (with_training_pool _ _) s1 w2) as [[[s1' w1']|e1]|];
        destruct (query_loop E fuel c s2 w2) as [[[s2' w2']|e2]|]; try done.
      * destruct Hloop as [(_ & _ & _ & _ & _ & ->) ->]. done.
      * by rewrite Hloop.
    + by rewrite Hseed.
Qed.

Lemma configuration_errors_witness :
  seed_phase_run (Demo.env true) (Demo.cfg 3 5 4 3 Demo.highest_index) (7, 0)
    = ((7, 0), Raise ValueError) ∧
  active_learn (Demo.env true) 0 (Demo.cfg 3 5 4 3 Demo.highest_index) (7, 0)
    = Some (Raise ValueError) ∧
  active_learn (Demo.env true) 0 (Demo.cfg 10 0 2 3 Demo.highest_index) (7, 0)
    = Some (Ok ([2], (8, 2))) ∧
  active_learn (Demo.env true) 10
    (with_training_pool (Demo.cfg 4 3 2 2 Demo.highest_index) (Demo.pool 4 ++ [4; 5; 6]))
    (7, 0)
  = active_learn (Demo.env true) 10 (Demo.cfg 4 3 2 2 Demo.highest_index) (7, 0).
Proof.
  split_and!.
  - apply (proj1 (configuration_errors (Demo.env true)
                    (Demo.cfg 3 5 4 3 Demo.highest_index) (7, 0))).
    vm_compute. reflexivity.
  - apply (proj1 (configuration_errors (Demo.env true)
                    (Demo.cfg 3 5 4 3 Demo.highest_index) (7, 0))).
    vm_compute. reflexivity.
  - refine (proj2 (proj1 (proj2 (configuration_errors (Demo.env true)
                    (Demo.cfg 10 0 2 3 Demo.highest_index) (7, 0)))
                    ltac:(simpl; lia)
                    (@Build_state string (Demo.env true)
                       [0; 1; 2; 3; 4; 5; 6; 9]
                       (replicate 5 "a"%string ++ replicate 3 "b"%string)
                       [7; 8] ["b"; "b"]%string [2]) (8, 2) _) 0).
    vm_compute. reflexivity.
  - apply (proj2 (proj2 (configuration_errors (Demo.env true)
                    (Demo.cfg 4 3 2 2 Demo.highest_index) (7, 0))) eq_refl [4; 5; 6] 10).
Defined.

(** C7 as stated fails: [total_n = 0] is not reported, the run returns a
    curve; an [initial_n] above the pool size raises ValueError, not
    InsufficientPoolError; and a feature matrix with more rows than labels
    is not reported either. *)
Lemma configuration_errors_counterexample :
  active_learn (Demo.env true) 10 (Demo.cfg 10 0 2 3 Demo.highest_index) (7, 0)
    = Some (Ok ([2], (8, 2))) ∧
  active_learn (Demo.env true) 10 (Demo.cfg 3 5 4 3 Demo.highest_index) (7, 0)
    = Some (Raise "ValueError"%string) ∧
  active_learn (Demo.env true) 10 (Demo.cfg 3 5 4 3 Demo.highest_index) (7, 0)
    ≠ Some (Raise "InsufficientPoolError"%string) ∧
  active_learn (Demo.env true) 10
    (Demo.cfg_extra_rows 4 3 3 2 2 Demo.highest_index) (7, 0)
    = Some (Ok ([2; 3], (9, 3))).
Proof. split_and!; vm_compute; (reflexivity || discriminate). Qed.

(** * The size of the candidate batch (active_learn, lines 111-112) *)

(** C2 on the code: [min(random_n, len(unlabelled_oracle))] is 0 for
    [random_n = 0], so the batch drawn is empty, not the whole pool as the
    docstring of [active_learn] says; a negative [random_n] makes
    [np.random.choice] raise ValueError. *)
Theorem zero_random_n_draws_nothing {label} (E : externals label)
    (c : config E) (s : state E) (w : world E) :
  sample_ok E →
  ((random_n c = 0)%Z →
   unlabelled_oracle s ≠ [] ∨ choice_rejects_empty E = false →
   candidate_size E c s = 0%Z ∧
   ∃ w', draw_candidates E c s w = Ok ([], [], [], w')) ∧
  ((random_n c < 0)%Z → draw_candidates E c s w = Raise ValueError).
Proof.
  intros Hs. split.
  - intros Hzero Hne.
    assert (candidate_size E c s = 0%Z) as Hsize.
    { unfold candidate_size. rewrite Hzero. lia. }
    split; [done|]. unfold draw_candidates. rewrite Hsize.
    rewrite (choice_succeeds E); [|lia|].
    2: { destruct Hne as [Hne|Hne]; [left|by right].
         destruct (unlabelled_oracle s); [done|simpl; lia]. }
    destruct (Hs (length (unlabelled_oracle s)) (Z.to_nat 0) w) as (_ & _ & Hlen);
      [simpl; lia|].
    destruct (rng_sample E _ _ w) as [idx w1]. simpl in *.
    destruct idx; [|done]. simpl. by exists w1.
  - intros Hneg. unfold draw_candidates, np_random_choice.
    rewrite bool_decide_eq_true_2; [done|]. unfold candidate_size. lia.
Qed.

(** A pool of 500 unlabelled examples and [random_n = 0]. *)
Lemma zero_random_n_draws_nothing_witness :
  length (unlabelled_pool (@Demo.unseeded true 500)) = 500 ∧
  candidate_size (Demo.env true) (Demo.cfg 500 510 0 0 Demo.highest_index)
    (Demo.unseeded 500) = 0%Z ∧
  ∃ w',
    draw_candidates (Demo.env true) (Demo.cfg 500 510 0 0 Demo.highest_index)
      (Demo.unseeded 500) (7, 0) = Ok ([], [], [], w').
Proof.
  split; [vm_compute; reflexivity|].
  apply (proj1 (zero_random_n_draws_nothing (Demo.env true)
                  (Demo.cfg 500 510 0 0 Demo.highest_index)
                  (Demo.unseeded 500) (7, 0) (demo_sample_ok true))).
  - reflexivity.
  - left. vm_compute. discriminate.
Defined.

(** * The experiment routine (run_active_learning_with_heuristic) *)

Section ExperimentFacts.
Context (E : externals string) (compute_balanced_accuracy : accuracy_fn E).
Implicit Types (a : Experiment.args E) (w : world E).

(** The trials append their curves in order, one per offset. *)
Lemma run_trials_curves fuel a offsets done_curves w curves w' :
  Experiment.run_trials E compute_balanced_accuracy fuel a offsets done_curves w
    = Some (Ok (curves, w')) →
  ∃ new_curves,
    curves = done_curves ++ new_curves ∧ length new_curves = length offsets.
Proof.
  revert done_curves w. induction offsets as [|i offsets IH]; intros done_curves w; simpl.
  - intros [= <- <-]. exists []. by rewrite app_nil_r.
  - destruct (Experiment.training_sub E a i) as [sub|e]; [|done].
    destruct (active_learn E fuel _ w) as [[[curve w1]|e]|]; [|done|done].
    intros H. apply IH in H as (new_curves & -> & Hlen).
    exists (curve :: new_curves). rewrite <- (assoc_L (++)). simpl. by rewrite Hlen.
Qed.
End ExperimentFacts.

Section TrialsRan.
Context (E : externals string) (compute_balanced_accuracy : accuracy_fn E).
Implicit Types (a : Experiment.args E) (w : world E).

Lemma training_sub_unbalanced a i sub :
  Experiment.training_sub E a i = Ok sub →
  Experiment.balanced_pool a = false →
  sub = (Np.slice (Experiment.training_pool a) i (i + Experiment.full_sample_size a),
         Np.slice (Experiment.training_oracle a) i (i + Experiment.full_sample_size a)).
Proof.
  unfold Experiment.training_sub. intros Hsub Hb. rewrite Hb in Hsub. congruence.
Qed.

Lemma trials_ran_length fuel a offsets w curves w' :
  Experiment.trials_ran E compute_balanced_accuracy fuel a offsets w curves w' →
  length curves = length offsets.
Proof. induction 1; simpl; congruence. Qed.

(** The loop over the offsets returns when, and only when, every trial
    returns; it returns their curves in the order of the trials, after the
    curves it was given. *)
Lemma run_trials_ran fuel a offsets done_curves w curves w' :
  Experiment.run_trials E compute_balanced_accuracy fuel a offsets done_curves w
    = Some (Ok (curves, w')) ↔
  ∃ new_curves,
    curves = done_curves ++ new_curves ∧
    Experiment.trials_ran E compute_balanced_accuracy fuel a offsets w new_curves w'.
Proof.
  revert done_curves w. induction offsets as [|i offsets IH]; intros done_curves w; simpl.
  - split.
    + intros [= <- <-]. exists []. rewrite app_nil_r. split; [done|constructor].
    + intros (new_curves & -> & Hran). inversion Hran; subst. by rewrite app_nil_r.
  - split.
    + destruct (Experiment.training_sub E a i) as [sub|e] eqn:Hsub; [|done].
      destruct (active_learn E fuel _ w) as [[[curve w1]|e]|] eqn:Hrun; [|done|done].
      intros H. apply IH in H as (new_curves & -> & Hran).
      exists (curve :: new_curves). rewrite <- (assoc_L (++)). split; [done|].
      econstructor; [exact Hsub| |exact Hrun|exact Hran].
      by apply training_sub_unbalanced.
    + intros (new_curves & -> & Hran).
      inversion Hran as [|i' offsets' w0 sub curve w1 curves' w'' Hsub _ Hrun Hrest];
        subst.
      rewrite Hsub. unfold Experiment.trial_config. rewrite Hrun.
      apply IH. exists curves'. by rewrite <- (assoc_L (++)).
Qed.
End TrialsRan.

(** C10. [run_active_learning_with_heuristic] and its trials. When the
    routine ends normally, every trial has returned, and with [curves] the
    learning curves of the trials in the order of the trials: the routine
    returns [curves] exactly when [pickle_path] is not given (or is falsy,
    like the empty string), and then writes no file; when [pickle_path] is
    given, it writes [curves] to that path, leaves the other files alone
    and returns None. Conversely, when every trial returns, the routine
    ends normally, with that result. (The offsets of the trials are those
    of [np.arange]; they are integers unless the sizes leave [int64].) *)
Theorem returns_curves_iff_no_pickle_path (E : externals string)
    (compute_balanced_accuracy : accuracy_fn E) (fuel : nat)
    (a : Experiment.args E) (fs : gmap string (list (list (acc E))))
    (w : world E) :
  (∀ ret fs' w',
     Experiment.run_active_learning_with_heuristic E compute_balanced_accuracy
       fuel a fs w = Some (Ok (ret, fs', w')) →
     ∃ offsets curves,
       Np.arange0 (Experiment.i_max E a) (Experiment.i_step E a) = Ok offsets ∧
       Experiment.trials_ran E compute_balanced_accuracy fuel a offsets w curves w' ∧
       length curves = length offsets ∧
       (ret = Some curves ↔ Experiment.truthy (Experiment.pickle_path a) = false) ∧
       (Experiment.truthy (Experiment.pickle_path a) = false → fs' = fs) ∧
       (Experiment.truthy (Experiment.pickle_path a) = true →
        ret = None ∧
        ∃ p, Experiment.pickle_path a = Some p ∧ p ≠ ""%string ∧
             fs' !! p = Some curves ∧ ∀ q, q ≠ p → fs' !! q = fs !! q)) ∧
  (∀ offsets curves w',
     Np.arange0 (Experiment.i_max E a) (Experiment.i_step E a) = Ok offsets →
     Experiment.float_offsets E a = None ∨ offsets = [] →
     Experiment.trials_ran E compute_balanced_accuracy fuel a offsets w curves w' →
     Experiment.run_active_learning_with_heuristic E compute_balanced_accuracy
       fuel a fs w
     = Some (Ok (if Experiment.truthy (Experiment.pickle_path a)
                 then (None,
                       <[default ""%string (Experiment.pickle_path a) := curves]> fs,
                       w')
                 else (Some curves, fs, w')))).
Proof.
  assert (∀ offsets curves w',
    Experiment.trials_ran E compute_balanced_accuracy fuel a offsets w curves w' →
    ∀ ret fs',
      (if Experiment.truthy (Experiment.pickle_path a)
       then (None, <[default ""%string (Experiment.pickle_path a) := curves]> fs, w')
       else (Some curves, fs, w')) = (ret, fs', w') →
      length curves = length offsets ∧
      (ret = Some curves ↔ Experiment.truthy (Experiment.pickle_path a) = false) ∧
      (Experiment.truthy (Experiment.pickle_path a) = false → fs' = fs) ∧
      (Experiment.truthy (Experiment.pickle_path a) = true →
       ret = None ∧
       ∃ p, Experiment.pickle_path a = Some p ∧ p ≠ ""%string ∧
            fs' !! p = Some curves ∧ ∀ q, q ≠ p → fs' !! q = fs !! q)) as Hend.
  { intros offsets curves w' Hran ret fs' Heq.
    split; [by eapply trials_ran_length|].
    destruct (Experiment.truthy (Experiment.pickle_path a)) eqn:Ht;
      injection Heq as <- <-.
    - split_and!; try done. intros _. split; [done|].
      destruct (Experiment.pickle_path a) as [p|]; [|done].
      exists p. simpl in *. split_and!.
      + done.
      + intros ->. done.
      + apply lookup_insert_eq.
      + intros q Hq. by apply lookup_insert_ne.
    - split_and!; done. }
  split.
  - intros ret fs' w'. unfold Experiment.run_active_learning_with_heuristic.
    destruct (Np.arange0 _ _) as [offsets|e]; [|done].
    destruct (Experiment.float_offsets E a) as [e|].
    + destruct offsets as [|i offsets]; [|done].
      intros Hrun. exists [], []. split; [done|].
      assert (w' = w) as ->.
      { by destruct (Experiment.truthy _); injection Hrun as _ _ <-. }
      split; [constructor|].
      apply (Hend [] [] w); [constructor|].
      by destruct (Experiment.truthy _); injection Hrun as <- <-.
    + destruct (Experiment.run_trials _ _ _ _ _ _ w) as [[[curves w1]|e]|] eqn:Hrun;
        [|done|done].
      apply run_trials_ran in Hrun as (new_curves & -> & Hran). simpl.
      intros Hres. exists offsets, new_curves. split; [done|].
      assert (w1 = w') as ->.
      { by destruct (Experiment.truthy _); injection Hres as _ _ <-. }
      split; [done|].
      apply (Hend offsets new_curves w'); [done|].
      by destruct (Experiment.truthy _); injection Hres as <- <-.
  - intros offsets curves w' Hoff Hint Hran.
    unfold Experiment.run_active_learning_with_heuristic. rewrite Hoff.
    assert (match Experiment.float_offsets E a, offsets with
            | None, _ =>
                Experiment.run_trials E compute_balanced_accuracy fuel a offsets [] w
            | Some e, [] => Some (Ok ([], w))
            | Some e, _ :: _ => Some (Raise (Experiment.training_sub_float E a e))
            end = Some (Ok (curves, w'))) as ->.
    { destruct Hint as [-> | ->].
      - apply run_trials_ran. by exists curves.
      - inversion Hran; subst. by destruct (Experiment.float_offsets E a). }
    by destruct (Experiment.truthy _).
Qed.

Lemma returns_curves_iff_no_pickle_path_witness :
  Experiment.run_active_learning_with_heuristic (Demo.env true) Demo.fitted_rows 10
    (Demo.experiment (seq 0 8) (replicate 8 "Star"%string) false 5 2 3 2 4
       Demo.every_candidate None) ∅ (7, 0)
    = Some (Ok (Some [[2; 5]; [2; 3]], ∅, (11, 3))) ∧
  (∃ offsets curves,
     Np.arange0 10 5 = Ok offsets ∧
     Experiment.trials_ran (Demo.env true) Demo.fitted_rows 10
       (Demo.experiment (seq 0 8) (replicate 8 "Star"%string) false 5 2 3 2 4
          Demo.every_candidate (Some "out.pickle"%string))
       offsets (7, 0) curves (11, 3) ∧
     length curves = 2) ∧
  Experiment.run_active_learning_with_heuristic (Demo.env true) Demo.fitted_rows 10
    (Demo.experiment (seq 0 8) (replicate 8 "Star"%string) false 5 2 3 2 4
       Demo.every_candidate (Some "out.pickle"%string)) ∅ (7, 0)
    = Some (Ok (None, {["out.pickle"%string := [[2; 5]; [2; 3]]]}, (11, 3))).
Proof.
  assert (∀ path,
    Experiment.trials_ran (Demo.env true) Demo.fitted_rows 10
      (Demo.experiment (seq 0 8) (replicate 8 "Star"%string) false 5 2 3 2 4
         Demo.every_candidate path)
      [0; 5]%Z (7, 0) [[2; 5]; [2; 3]] (11, 3)) as Hran.
  { intros path.
    eapply Experiment.trials_ran_cons;
      [vm_compute; reflexivity|intros _; vm_compute; reflexivity
      |vm_compute; reflexivity|].
    eapply Experiment.trials_ran_cons;
      [vm_compute; reflexivity|intros _; vm_compute; reflexivity
      |vm_compute; reflexivity|].
    constructor. }
  split_and!.
  - apply (proj2 (returns_curves_iff_no_pickle_path (Demo.env true) Demo.fitted_rows 10
        (Demo.experiment (seq 0 8) (replicate 8 "Star"%string) false 5 2 3 2 4
           Demo.every_candidate None) ∅ (7, 0)) [0; 5]%Z [[2; 5]; [2; 3]] (11, 3)).
    + vm_compute. reflexivity.
    + left. reflexivity.
    + apply Hran.
  - destruct (proj1 (returns_curves_iff_no_pickle_path (Demo.env true) Demo.fitted_rows 10
        (Demo.experiment (seq 0 8) (replicate 8 "Star"%string) false 5 2 3 2 4
           Demo.every_candidate (Some "out.pickle"%string)) ∅ (7, 0))
        None {["out.pickle"%string := [[2; 5]; [2; 3]]]} (11, 3))
      as (offsets & curves & Hoff & Hran' & Hlen & _).
    + vm_compute. reflexivity.
    + exists offsets, curves. split_and!; [exact Hoff|exact Hran'|].
      rewrite Hlen. vm_compute in Hoff. by injection Hoff as <-.
  - apply (proj2 (returns_curves_iff_no_pickle_path (Demo.env true) Demo.fitted_rows 10
        (Demo.experiment (seq 0 8) (replicate 8 "Star"%string) false 5 2 3 2 4
           Demo.every_candidate (Some "out.pickle"%string)) ∅ (7, 0))
        [0; 5]%Z [[2; 5]; [2; 3]] (11, 3)).
    + vm_compute. reflexivity.
    + left. reflexivity.
    + apply Hran.
Defined.

(** C5 on the code: three Galaxy rows are asked for a slice of two per
    class, the data set has one. The routine raises nothing: the sub-pool
    has five rows for six labels, the second row, a Star, is labelled
    Galaxy, and the trial runs on these arrays and returns a curve. *)
Theorem balanced_slice_short_class :
  Experiment.training_sub (Demo.env true)
    (Demo.experiment [0; 1; 2; 3; 4]
       ["Galaxy"; "Star"; "Star"; "Quasar"; "Quasar"]%string
       true 6 1 3 2 2 Demo.highest_index None) 0
    = Ok ([0; 1; 2; 3; 4],
          ["Galaxy"; "Galaxy"; "Star"; "Star"; "Quasar"; "Quasar"]%string) ∧
  Experiment.run_active_learning_with_heuristic (Demo.env true) Demo.fitted_rows 10
    (Demo.experiment [0; 1; 2; 3; 4]
       ["Galaxy"; "Star"; "Star"; "Quasar"; "Quasar"]%string
       true 6 1 3 2 2 Demo.highest_index None) ∅ (7, 0)
    = Some (Ok (Some [[2; 3]], ∅, (9, 3))).
Proof. split; vm_compute; reflexivity. Qed.

(** * The caller's arrays (active_learn, lines 81-135) *)

Section StoreFacts.
Context {label : Type} (E : externals label).
Implicit Types (h : Heap.store E) (a : Heap.args E) (s : Heap.locals E) (w : world E).

Lemma extends_refl h : Heap.extends E h h.
Proof. by split. Qed.

Lemma extends_trans h1 h2 h3 :
  Heap.extends E h1 h2 → Heap.extends E h2 h3 → Heap.extends E h1 h3.
Proof. intros [??] [??]. split; by etrans. Qed.

Lemma extends_alloc_mat h m : Heap.extends E h (Heap.alloc_mat E h m).
Proof. split; simpl; [by apply prefix_app_r|done]. Qed.

Lemma extends_alloc_vec h v : Heap.extends E h (Heap.alloc_vec E h v).
Proof. split; simpl; [done|by apply prefix_app_r]. Qed.

Lemma extends_read_mat h h' r :
  Heap.extends E h h' → r < length (Heap.mats E h) →
  Heap.read_mat E h' r = Heap.read_mat E h r.
Proof.
  intros [Hm _] Hr. unfold Heap.read_mat.
  destruct (lookup_lt_is_Some_2 _ _ Hr) as [x Hx].
  by rewrite Hx, (prefix_lookup_Some _ _ _ _ Hx Hm).
Qed.

Lemma extends_read_vec h h' r :
  Heap.extends E h h' → r < length (Heap.vecs E h) →
  Heap.read_vec E h' r = Heap.read_vec E h r.
Proof.
  intros [_ Hv] Hr. unfold Heap.read_vec.
  destruct (lookup_lt_is_Some_2 _ _ Hr) as [x Hx].
  by rewrite Hx, (prefix_lookup_Some _ _ _ _ Hx Hv).
Qed.

Lemma extends_lookup_mat h h' r :
  Heap.extends E h h' → r < length (Heap.mats E h) →
  Heap.mats E h' !! r = Heap.mats E h !! r.
Proof.
  intros [Hm _] Hr. destruct (lookup_lt_is_Some_2 _ _ Hr) as [x Hx].
  by rewrite Hx, (prefix_lookup_Some _ _ _ _ Hx Hm).
Qed.

Lemma extends_lookup_vec h h' r :
  Heap.extends E h h' → r < length (Heap.vecs E h) →
  Heap.vecs E h' !! r = Heap.vecs E h !! r.
Proof.
  intros [_ Hv] Hr. destruct (lookup_lt_is_Some_2 _ _ Hr) as [x Hx].
  by rewrite Hx, (prefix_lookup_Some _ _ _ _ Hx Hv).
Qed.

(** ** Every operation only allocates *)

Lemma grows_ret {A} (x : A) : Heap.grows E (Heap.ret E x).
Proof. intros h. apply extends_refl. Qed.

Lemma grows_lift {A} (r : result A) : Heap.grows E (Heap.lift E r).
Proof. intros h. apply extends_refl. Qed.

Lemma grows_bind {A B} (m : Heap.M E A) (f : A → Heap.M E B) :
  Heap.grows E m → (∀ x, Heap.grows E (f x)) → Heap.grows E (Heap.bind E m f).
Proof.
  intros Hm Hf h. unfold Heap.bind. specialize (Hm h).
  destruct (m h) as [h1 [x|e]]; simpl in *; [|done].
  eapply extends_trans; [done|]. apply Hf.
Qed.

Lemma grows_mbind {A B} (m : Heap.M E A) (f : A → Heap.M E B) :
  Heap.grows E m → (∀ x, Heap.grows E (f x)) → Heap.grows E (m ≫= f).
Proof. apply grows_bind. Qed.

Lemma grows_get_mat r : Heap.grows E (Heap.get_mat E r).
Proof. intros h. apply extends_refl. Qed.

Lemma grows_get_vec r : Heap.grows E (Heap.get_vec E r).
Proof. intros h. apply extends_refl. Qed.

Lemma grows_new_mat m : Heap.grows E (Heap.new_mat E m).
Proof. intros h. apply extends_alloc_mat. Qed.

Lemma grows_new_vec v : Heap.grows E (Heap.new_vec E v).
Proof. intros h. apply extends_alloc_vec. Qed.

Ltac grows_tac :=
  repeat first
    [ apply grows_mbind | apply grows_bind | apply grows_ret | apply grows_lift
    | apply grows_get_mat | apply grows_get_vec
    | apply grows_new_mat | apply grows_new_vec
    | intros [??] | intros ? ].

Lemma grows_seed_phase a w : Heap.grows E (Heap.seed_phase E a w).
Proof.
  unfold Heap.seed_phase, Heap.copy_mat, Heap.copy_vec, Heap.index_mat,
    Heap.index_vec, Heap.append_mat, Heap.concatenate_vec, Heap.delete_mat,
    Heap.delete_vec.
  grows_tac.
Qed.

Lemma grows_query_step a s w : Heap.grows E (Heap.query_step E a s w).
Proof.
  unfold Heap.query_step, Heap.index_mat, Heap.index_vec, Heap.index_mat_z,
    Heap.index_vec_z, Heap.append_mat, Heap.concatenate_vec, Heap.delete_mat,
    Heap.delete_vec.
  grows_tac.
  destruct (Heap.active_learning_heuristic E a _ _ _ _ _ _ _ _) as [best w2].
  grows_tac.
Qed.

Lemma extends_query_loop fuel a s w h :
  Heap.extends E h (Heap.query_loop E fuel a s w h).1.
Proof.
  revert s w h. induction fuel as [|fuel IH]; intros s w h; simpl.
  - destruct (Heap.continues E a s h); apply extends_refl.
  - destruct (Heap.continues E a s h); [|apply extends_refl].
    pose proof (grows_query_step a s w h) as Hstep.
    destruct (Heap.query_step E a s w h) as [h1 [[s' w']|e]]; simpl in *; [|done].
    eapply extends_trans; [done|]. apply IH.
Qed.

Lemma extends_active_learn fuel a w h :
  Heap.extends E h (Heap.active_learn E fuel a w h).1.
Proof.
  unfold Heap.active_learn. pose proof (grows_seed_phase a w h) as Hseed.
  destruct (Heap.seed_phase E a w h) as [h1 [[s w']|e]]; simpl in *; [|done].
  pose proof (extends_query_loop fuel a s w' h1) as Hloop.
  destruct (Heap.query_loop E fuel a s w' h1) as [h2 [[[s' w'']|e]|]]; simpl in *;
    by eapply extends_trans.
Qed.
End StoreFacts.

Section Refinement.
Context {label : Type} (E : externals label).
Implicit Types (h : Heap.store E) (a : Heap.args E) (s : Heap.locals E) (w : world E).

Lemma read_mat_new h m :
  Heap.read_mat E (Heap.alloc_mat E h m) (length (Heap.mats E h)) = m.
Proof.
  unfold Heap.read_mat. simpl. by rewrite lookup_app_r, Nat.sub_diag by lia.
Qed.

Lemma read_vec_new h v :
  Heap.read_vec E (Heap.alloc_vec E h v) (length (Heap.vecs E h)) = v.
Proof.
  unfold Heap.read_vec. simpl. by rewrite lookup_app_r, Nat.sub_diag by lia.
Qed.

Lemma read_mat_old h m r :
  r < length (Heap.mats E h) →
  Heap.read_mat E (Heap.alloc_mat E h m) r = Heap.read_mat E h r.
Proof. intros Hr. unfold Heap.read_mat. simpl. by rewrite lookup_app_l. Qed.

Lemma read_vec_old h v r :
  r < length (Heap.vecs E h) →
  Heap.read_vec E (Heap.alloc_vec E h v) r = Heap.read_vec E h r.
Proof. intros Hr. unfold Heap.read_vec. simpl. by rewrite lookup_app_l. Qed.

Lemma read_mat_alloc_vec h v r :
  Heap.read_mat E (Heap.alloc_vec E h v) r = Heap.read_mat E h r.
Proof. done. Qed.

Lemma read_vec_alloc_mat h m r :
  Heap.read_vec E (Heap.alloc_mat E h m) r = Heap.read_vec E h r.
Proof. done. Qed.

Lemma mats_alloc_vec h v : Heap.mats E (Heap.alloc_vec E h v) = Heap.mats E h.
Proof. done. Qed.

Lemma vecs_alloc_mat h m : Heap.vecs E (Heap.alloc_mat E h m) = Heap.vecs E h.
Proof. done. Qed.

Lemma length_mats_alloc h m :
  length (Heap.mats E (Heap.alloc_mat E h m)) = S (length (Heap.mats E h)).
Proof. simpl. rewrite length_app, ?length_fmap. simpl. lia. Qed.

Lemma length_vecs_alloc h v :
  length (Heap.vecs E (Heap.alloc_vec E h v)) = S (length (Heap.vecs E h)).
Proof. simpl. rewrite length_app, ?length_fmap. simpl. lia. Qed.

Ltac store_lengths :=
  rewrite ?mats_alloc_vec, ?vecs_alloc_mat, ?length_mats_alloc, ?length_vecs_alloc,
    ?mats_alloc_vec, ?vecs_alloc_mat, ?length_mats_alloc, ?length_vecs_alloc.

Ltac store_reads :=
  repeat first
    [ rewrite read_mat_alloc_vec
    | rewrite read_vec_alloc_mat
    | rewrite read_mat_new
    | rewrite read_vec_new
    | rewrite read_mat_old by (repeat store_lengths; lia)
    | rewrite read_vec_old by (repeat store_lengths; lia) ].

Ltac pure_next :=
  cbv beta iota delta [mbind result_bind]; store_reads.

Ltac run_store :=
  cbv beta iota delta
    [ Heap.query_step Heap.seed_phase mbind mret Heap.store_bind Heap.store_ret
      Heap.bind Heap.ret Heap.lift Heap.get_mat Heap.get_vec Heap.new_mat
      Heap.new_vec Heap.copy_mat Heap.copy_vec Heap.index_mat Heap.index_vec
      Heap.index_mat_z Heap.index_vec_z Heap.append_mat Heap.concatenate_vec
      Heap.delete_mat Heap.delete_vec ].

Lemma query_step_refines a s w h :
  Heap.allocated E a h → Heap.locals_allocated E s h →
  match Heap.query_step E a s w h with
  | (h', Ok (s', w')) =>
      Heap.locals_allocated E s' h' ∧
      query_step E (Heap.to_config E a h) (Heap.to_state E s h) w
        = Ok (Heap.to_state E s' h', w')
  | (h', Raise e) =>
      query_step E (Heap.to_config E a h) (Heap.to_state E s h) w = Raise e
  end.
Proof.
  intros (Ha1 & Ha2 & Ha3 & Ha4) (Hs1 & Hs2 & Hs3 & Hs4).
  unfold query_step, draw_candidates, candidate_size. run_store.
  cbn [Heap.to_config Heap.to_state unlabelled_oracle unlabelled_pool X_train y_train
       random_n active_learning_heuristic n_classes classifier committee bag_size
       compute_accuracy testing_pool testing_oracle learning_curve].
  pure_next.
  destruct (np_random_choice E _ _ w) as [[cidx w1]|e]; pure_next; [|done].
  destruct (Np.take_idx (Heap.read_mat E h _) cidx) as [Xc|e]; pure_next; [|done].
  destruct (Np.take_idx (Heap.read_vec E h _) cidx) as [yc|e]; pure_next; [|done].
  destruct (Heap.active_learning_heuristic E a Xc _ _ _ _ _ _ w1) as [best w2].
  pure_next.
  destruct (Np.take_z Xc best) as [Xb|e]; pure_next; [|done].
  destruct (Np.take_z yc best) as [yb|e]; pure_next; [|done].
  destruct (Np.take_z cidx best) as [biu|e]; pure_next; [|done].
  split.
  - unfold Heap.locals_allocated. cbn [Heap.unlabelled_pool Heap.unlabelled_oracle
      Heap.X_train Heap.y_train]. repeat store_lengths. lia.
  - unfold Heap.to_state. cbn [Heap.unlabelled_pool Heap.unlabelled_oracle
      Heap.X_train Heap.y_train Heap.learning_curve]. store_reads. done.
Qed.

Lemma seed_phase_refines a w h :
  Heap.allocated E a h →
  match Heap.seed_phase E a w h with
  | (h', Ok (s, w')) =>
      Heap.locals_allocated E s h' ∧
      seed_phase E (Heap.to_config E a h) w = Ok (Heap.to_state E s h', w')
  | (h', Raise e) => seed_phase E (Heap.to_config E a h) w = Raise e
  end.
Proof.
  intros (Ha1 & Ha2 & Ha3 & Ha4).
  rewrite seed_phase_unfold. run_store.
  cbn [Heap.to_config training_pool training_oracle initial_n classifier
       compute_accuracy testing_pool testing_oracle].
  pure_next.
  destruct (np_random_choice E _ _ w) as [[cidx w1]|e]; pure_next; [|done].
  destruct (Np.take_idx (Heap.read_mat E h _) cidx) as [Xc|e]; pure_next; [|done].
  destruct (Np.take_idx (Heap.read_vec E h _) cidx) as [yc|e]; pure_next; [|done].
  split.
  - unfold Heap.locals_allocated. cbn [Heap.unlabelled_pool Heap.unlabelled_oracle
      Heap.X_train Heap.y_train]. repeat store_lengths. lia.
  - unfold Heap.to_state. cbn [Heap.unlabelled_pool Heap.unlabelled_oracle
      Heap.X_train Heap.y_train Heap.learning_curve]. store_reads. done.
Qed.

Lemma allocated_extends a h h' :
  Heap.extends E h h' → Heap.allocated E a h → Heap.allocated E a h'.
Proof.
  intros [Hm Hv] (? & ? & ? & ?).
  apply prefix_length in Hm, Hv. unfold Heap.allocated. lia.
Qed.

Lemma to_config_extends a h h' :
  Heap.extends E h h' → Heap.allocated E a h →
  Heap.to_config E a h' = Heap.to_config E a h.
Proof.
  intros Hext (? & ? & ? & ?). unfold Heap.to_config.
  by rewrite !(extends_read_mat E h h'), !(extends_read_vec E h h').
Qed.

Lemma query_loop_refines fuel a s w h :
  Heap.allocated E a h → Heap.locals_allocated E s h →
  match Heap.query_loop E fuel a s w h with
  | (h', None) =>
      query_loop E fuel (Heap.to_config E a h) (Heap.to_state E s h) w = None
  | (h', Some (Raise e)) =>
      query_loop E fuel (Heap.to_config E a h) (Heap.to_state E s h) w
        = Some (Raise e)
  | (h', Some (Ok (s', w'))) =>
      query_loop E fuel (Heap.to_config E a h) (Heap.to_state E s h) w
        = Some (Ok (Heap.to_state E s' h', w'))
  end.
Proof.
  revert s w h. induction fuel as [|fuel IH]; intros s w h Ha Hs; simpl.
  - change (Heap.continues E a s h)
      with (continues E (Heap.to_config E a h) (Heap.to_state E s h)).
    by destruct (continues E _ _).
  - change (Heap.continues E a s h)
      with (continues E (Heap.to_config E a h) (Heap.to_state E s h)).
    destruct (continues E _ _); [|done].
    pose proof (query_step_refines a s w h Ha Hs) as Hstep.
    pose proof (grows_query_step E a s w h) as Hext.
    destruct (Heap.query_step E a s w h) as [h1 [[s1 w1]|e]]; simpl in Hext.
    + destruct Hstep as [Hs1 ->].
      specialize (IH s1 w1 h1 (allocated_extends a h h1 Hext Ha) Hs1).
      by rewrite (to_config_extends a h h1 Hext Ha) in IH.
    + by rewrite Hstep.
Qed.

Lemma active_learn_refines fuel a w h :
  Heap.allocated E a h →
  (Heap.active_learn E fuel a w h).2 = active_learn E fuel (Heap.to_config E a h) w.
Proof.
  intros Ha. unfold Heap.active_learn, active_learn, active_learn_run.
  pose proof (seed_phase_refines a w h Ha) as Hseed.
  pose proof (grows_seed_phase E a w h) as Hext.
  destruct (Heap.seed_phase E a w h) as [h1 [[s0 w0]|e]]; simpl in Hext.
  - destruct Hseed as [Hs0 ->].
    pose proof (query_loop_refines fuel a s0 w0 h1
                  (allocated_extends a h h1 Hext Ha) Hs0) as Hloop.
    rewrite (to_config_extends a h h1 Hext Ha) in Hloop.
    destruct (Heap.query_loop E fuel a s0 w0 h1) as [h2 [[[s' w']|e]|]];
      simpl; by rewrite Hloop.
  - simpl. by rewrite Hseed.
Qed.
End Refinement.

(** ** The test set is not used for training *)

Section TestSet.
Context {label : Type} (E : externals label).
Implicit Types (c : config E) (s : state E) (w : world E).

Lemma query_loop_test_set fuel c X_test y_test s s' w :
  unlabelled_pool s' = unlabelled_pool s →
  unlabelled_oracle s' = unlabelled_oracle s →
  X_train s' = X_train s → y_train s' = y_train s →
  length (learning_curve s') = length (learning_curve s) →
  training_outcome (query_loop E fuel (with_test_set c X_test y_test) s' w)
  = training_outcome (query_loop E fuel c s w).
Proof.
  revert s s' w. induction fuel as [|fuel IH]; intros s s' w Hp Ho HX Hy Hcv; simpl.
  - unfold continues. cbn [with_test_set total_n]. rewrite Hy.
    destruct (bool_decide _); [done|]. simpl. by rewrite Hp, Ho, HX, Hy, Hcv.
  - unfold continues. cbn [with_test_set total_n]. rewrite Hy.
    destruct (bool_decide _); [|simpl; by rewrite Hp, Ho, HX, Hy, Hcv].
    unfold query_step, draw_candidates, candidate_size.
    cbn [with_test_set random_n active_learning_heuristic n_classes classifier
         committee bag_size compute_accuracy testing_pool testing_oracle].
    rewrite Hp, Ho, HX, Hy.
    cbv beta iota delta [mbind result_bind].
    destruct (np_random_choice E _ _ w) as [[cidx w1]|e]; [|done].
    destruct (Np.take_idx (unlabelled_pool s) cidx) as [Xc|e]; [|done].
    destruct (Np.take_idx (unlabelled_oracle s) cidx) as [yc|e]; [|done].
    destruct (active_learning_heuristic c Xc _ _ _ _ _ _ w1) as [best w2].
    destruct (Np.take_z Xc best) as [Xb|e]; [|done].
    destruct (Np.take_z yc best) as [yb|e]; [|done].
    destruct (Np.take_z cidx best) as [biu|e]; [|done].
    apply IH; simpl; try done. rewrite !length_app, ?length_fmap. simpl. lia.
Qed.

Lemma active_learn_run_test_set fuel c X_test y_test w :
  training_outcome (active_learn_run E fuel (with_test_set c X_test y_test) w)
  = training_outcome (active_learn_run E fuel c w).
Proof.
  unfold active_learn_run. rewrite !seed_phase_unfold.
  cbn [with_test_set training_pool training_oracle initial_n classifier
       compute_accuracy testing_pool testing_oracle].
  cbv beta iota delta [mbind result_bind].
  destruct (np_random_choice E _ _ w) as [[cidx w1]|e]; [|done].
  destruct (Np.take_idx (training_pool c) cidx) as [Xc|e]; [|done].
  destruct (Np.take_idx (training_oracle c) cidx) as [yc|e]; [|done].
  by apply query_loop_test_set.
Qed.
End TestSet.

(** C9. [active_learn] leaves the arrays of its caller as they are: it
    works on copies and on arrays that numpy allocates, so every array that
    exists before the call (the training pool and oracle, the test pool and
    oracle among them) holds the same rows after it, whether the call
    returns, raises or is still running; the run is the run of
    [active_learn] on the contents of the four arrays; and the test arrays
    are passed to the accuracy function only: with another test set the
    labelled set, the unlabelled pool, the classifier's world and the number
    of accuracies come out the same. (The classifier, the heuristic and the
    accuracy function are taken to read the arrays they receive.) *)
Theorem caller_arrays_unchanged {label} (E : externals label) (fuel : nat)
    (a : Heap.args E) (w : world E) (h : Heap.store E) :
  Heap.allocated E a h →
  (∀ k, k < length (Heap.mats E h) →
     Heap.mats E (Heap.active_learn E fuel a w h).1 !! k = Heap.mats E h !! k) ∧
  (∀ k, k < length (Heap.vecs E h) →
     Heap.vecs E (Heap.active_learn E fuel a w h).1 !! k = Heap.vecs E h !! k) ∧
  Heap.to_config E a (Heap.active_learn E fuel a w h).1 = Heap.to_config E a h ∧
  (Heap.active_learn E fuel a w h).2 = active_learn E fuel (Heap.to_config E a h) w ∧
  (∀ X_test y_test,
     training_outcome
       (active_learn_run E fuel (with_test_set (Heap.to_config E a h) X_test y_test) w)
     = training_outcome (active_learn_run E fuel (Heap.to_config E a h) w)).
Proof.
  intros Ha. pose proof (extends_active_learn E fuel a w h) as Hext.
  split_and!.
  - intros k Hk. by apply extends_lookup_mat.
  - intros k Hk. by apply extends_lookup_vec.
  - by apply to_config_extends.
  - by apply active_learn_refines.
  - intros X_test y_test. apply active_learn_run_test_set.
Qed.

Lemma caller_arrays_unchanged_witness :
  Heap.mats _ (Heap.active_learn (Demo.env true) 10
                 (DemoHeap.args 5 2 3 Demo.highest_index) (7, 0) (DemoHeap.store 10)).1
    !! 0 = Some (Demo.pool 10) ∧
  Heap.vecs _ (Heap.active_learn (Demo.env true) 10
                 (DemoHeap.args 5 2 3 Demo.highest_index) (7, 0) (DemoHeap.store 10)).1
    !! 1 = Some ["a"; "b"]%string ∧
  (Heap.active_learn (Demo.env true) 10
     (DemoHeap.args 5 2 3 Demo.highest_index) (7, 0) (DemoHeap.store 10)).2
  = active_learn (Demo.env true) 10 (Demo.cfg 10 5 2 3 Demo.highest_index) (7, 0).
Proof.
  destruct (caller_arrays_unchanged (Demo.env true) 10
              (DemoHeap.args 5 2 3 Demo.highest_index) (7, 0) (DemoHeap.store 10))
    as (Hm & Hv & _ & Hrun & _).
  - unfold Heap.allocated. simpl. lia.
  - split_and!.
    + rewrite Hm by (simpl; lia). reflexivity.
    + rewrite Hv by (simpl; lia). reflexivity.
    + exact Hrun.
Defined.

(** * Further properties of the learner *)

(** ** The exceptions a run can end with *)

Section Exceptions.
Context {label : Type} (E : externals label).
Implicit Types (c : config E) (s : state E) (w : world E).

Lemma seed_phase_Raise c w e :
  seed_phase E c w = Raise e → e = ValueError ∨ e = IndexError.
Proof.
  rewrite seed_phase_unfold. intros H.
  apply bind_Raise in H as [H|([idx w1] & _ & H)].
  { left. by eapply choice_Raise. }
  apply bind_Raise in H as [H|(Xc & _ & H)].
  { right. by apply take_idx_Raise in H as [-> _]. }
  apply bind_Raise in H as [H|(yc & _ & H)]; [|done].
  right. by apply take_idx_Raise in H as [-> _].
Qed.

Lemma draw_candidates_Raise c s w e :
  draw_candidates E c s w = Raise e → e = ValueError ∨ e = IndexError.
Proof.
  unfold draw_candidates. intros H.
  apply bind_Raise in H as [H|([idx w1] & _ & H)].
  { left. by eapply choice_Raise. }
  apply bind_Raise in H as [H|(Xc & _ & H)].
  { right. by apply take_idx_Raise in H as [-> _]. }
  apply bind_Raise in H as [H|(yc & _ & H)]; [|done].
  right. by apply take_idx_Raise in H as [-> _].
Qed.

Lemma query_step_Raise c s w e :
  query_step E c s w = Raise e → e = ValueError ∨ e = IndexError.
Proof.
  unfold query_step. intros H.
  apply bind_Raise in H as [H|([[[cidx Xc] yc] w1] & _ & H)].
  { by eapply draw_candidates_Raise. }
  destruct (active_learning_heuristic c Xc _ _ _ _ _ _ w1) as [best w2].
  right.
  apply bind_Raise in H as [H|(Xb & _ & H)].
  { by apply take_z_Raise in H as [-> _]. }
  apply bind_Raise in H as [H|(yb & _ & H)].
  { by apply take_z_Raise in H as [-> _]. }
  apply bind_Raise in H as [H|(biu & _ & H)]; [|done].
  by apply take_z_Raise in H as [-> _].
Qed.

Lemma query_loop_Raise fuel c s w e :
  query_loop E fuel c s w = Some (Raise e) → e = ValueError ∨ e = IndexError.
Proof.
  revert s w. induction fuel as [|fuel IH]; intros s w; simpl.
  - by destruct (continues E c s).
  - destruct (continues E c s); [|done].
    destruct (query_step E c s w) as [[s1 w1]|e1] eqn:Hstep.
    + apply IH.
    + intros [= <-]. by eapply query_step_Raise.
Qed.
End Exceptions.

(** X1. One iteration of the query loop, for any index array the heuristic
    returns with every index in [-n, n), [n] the size of the candidate
    batch: the iteration succeeds; index [i] stands for the candidate at
    position [i mod n] (so [-1] is the last candidate); the selected
    candidates are appended to the labelled set in the order of the index
    array, each with the label the oracle holds at its position of the
    unlabelled pool, rows and labels converted to the type of the labelled
    arrays; those positions are deleted from the pool and the oracle; the
    classifier is refitted on the new labelled set and one accuracy is
    appended to the curve. *)
Theorem query_step_moves_selected {label} (E : externals label)
    (c : config E) (s : state E) (w : world E) cidx Xc yc w1 best w2 :
  draw_candidates E c s w = Ok (cidx, Xc, yc, w1) →
  active_learning_heuristic c Xc (X_train s) (y_train s) (n_classes c)
    (classifier c) (committee c) (bag_size c) w1 = (best, w2) →
  Forall (λ i, - Z.of_nat (length Xc) ≤ i < Z.of_nat (length Xc))%Z best →
  ∃ Xb yb biu,
    Forall2 (λ i x, Xc !! position (length Xc) i = Some x) best Xb ∧
    Forall2 (λ i y, yc !! position (length Xc) i = Some y) best yb ∧
    Forall2 (λ i p, cidx !! position (length Xc) i = Some p) best biu ∧
    Forall2 (λ p x, unlabelled_pool s !! p = Some x) biu Xb ∧
    Forall2 (λ p y, unlabelled_oracle s !! p = Some y) biu yb ∧
    query_step E c s w =
      Ok (Build_state label E
            (Np.delete (unlabelled_pool s) biu)
            (Np.delete (unlabelled_oracle s) biu)
            (X_train s ++ (promote_row E <$> Xb))
            (y_train s ++ (promote_label E <$> yb))
            (learning_curve s ++
               [compute_accuracy c (classifier c) (testing_pool c) (testing_oracle c)
                  (fit E (classifier c) (X_train s ++ (promote_row E <$> Xb))
                     (y_train s ++ (promote_label E <$> yb)) w2)]),
          fit E (classifier c) (X_train s ++ (promote_row E <$> Xb))
            (y_train s ++ (promote_label E <$> yb)) w2).
Proof. apply query_step_selected. Qed.

Lemma query_step_moves_selected_witness :
  query_step (Demo.env true) (Demo.cfg 6 3 0 4 Demo.minus_one) (Demo.unseeded 6) (7, 0)
  = Ok (@Build_state string (Demo.env true)
          [0; 1; 2; 3; 5] ["a"; "a"; "a"; "b"; "b"]%string [4] ["b"]%string [0; 1],
        (8, 1)).
Proof.
  destruct (query_step_moves_selected (Demo.env true)
              (Demo.cfg 6 3 0 4 Demo.minus_one) (Demo.unseeded 6) (7, 0)
              [1; 2; 3; 4] [1; 2; 3; 4] ["a"; "a"; "b"; "b"]%string (8, 0)
              [-1]%Z (8, 0))
    as (Xb & yb & biu & HXb & Hyb & Hbiu & _ & _ & Hstep).
  - vm_compute. reflexivity.
  - reflexivity.
  - repeat constructor; simpl; lia.
  - rewrite Hstep.
    apply Forall2_cons_inv_l in HXb as (x & Xb' & Hx & HXb' & ->).
    apply Forall2_nil_inv_l in HXb' as ->.
    apply Forall2_cons_inv_l in Hyb as (y & yb' & Hy & Hyb' & ->).
    apply Forall2_nil_inv_l in Hyb' as ->.
    apply Forall2_cons_inv_l in Hbiu as (p & biu' & Hp & Hbiu' & ->).
    apply Forall2_nil_inv_l in Hbiu' as ->.
    vm_compute in Hx, Hy, Hp.
    injection Hx as <-. injection Hy as <-. injection Hp as <-.
    vm_compute. reflexivity.
Defined.

(** ** Labels stay with their rows *)

Section Alignment.
Context {label : Type} (E : externals label).
Implicit Types (c : config E) (s : state E) (w : world E).

Lemma delete_from_sublist {A} k (a : list A) idx :
  Np.delete_from k a idx `sublist_of` a.
Proof.
  revert k. induction a as [|x a IH]; intros k; simpl; [done|].
  case_bool_decide.
  - by apply sublist_cons.
  - by apply sublist_skip.
Qed.

Lemma zip_promote (Xs : list (row E)) (ys : list label) :
  zip (promote_row E <$> Xs) (promote_label E <$> ys) = promote_pair E <$> zip Xs ys.
Proof.
  revert ys. induction Xs as [|x Xs IH]; intros [|y ys]; simpl; [done..|].
  by rewrite IH.
Qed.

Lemma promoted_pairs c (Xs : list (row E)) (ys : list label) :
  Forall (λ p, p ∈ zip (training_pool c) (training_oracle c)) (zip Xs ys) →
  Forall (λ p, p ∈ promote_pair E <$> zip (training_pool c) (training_oracle c))
    (zip (promote_row E <$> Xs) (promote_label E <$> ys)).
Proof.
  intros H. rewrite zip_promote. apply Forall_fmap.
  eapply Forall_impl; [exact H|]. intros p Hp. simpl. by apply list_elem_of_fmap_2.
Qed.

Lemma seed_phase_aligned c w s w' :
  seed_phase E c w = Ok (s, w') → aligned E c s.
Proof.
  intros H.
  apply seed_phase_Ok in H as (idx & w1 & Xc & yc & _ & HXc & Hyc & HX & Hy & Hp & Ho & _).
  split_and!.
  - rewrite HX, Hy, !length_fmap. apply take_idx_length in HXc, Hyc. lia.
  - rewrite HX, Hy. apply promoted_pairs.
    eapply take_idx_elem_of. by apply take_idx_zip.
  - rewrite Hp, Ho, <- delete_zip. apply delete_from_sublist.
Qed.

Lemma query_step_aligned c s w s' w' :
  aligned E c s → query_step E c s w = Ok (s', w') → aligned E c s'.
Proof.
  intros (Hlen & Hin & Hsub) H.
  apply query_step_Ok in H
    as (cidx & w1 & Xc & yc & js & biu & Xb & yb & _ & _ & _ & _ & _
        & HXb & Hyb & HX & Hy & Hp & Ho & _).
  split_and!.
  - rewrite HX, Hy, !length_app, ?length_fmap. apply take_idx_length in HXb, Hyb. lia.
  - rewrite HX, Hy, zip_with_app by done. apply Forall_app. split; [done|].
    apply promoted_pairs.
    pose proof (take_idx_zip _ _ _ _ _ HXb Hyb) as Hz.
    apply take_idx_elem_of in Hz.
    eapply Forall_impl; [exact Hz|]. intros p Hp'.
    exact (elem_of_sublist _ _ _ Hp' Hsub).
  - rewrite Hp, Ho, <- delete_zip. etrans; [apply delete_from_sublist|done].
Qed.
End Alignment.

(** X2. Labels stay with their rows, whatever the random generator and
    the heuristic do. In every state of a run the labelled set has as many
    labels as rows; every (row, label) pair of the labelled set is a pair
    of the training data (a row at some position with the oracle's label at
    that position) as [np.append] and [np.concatenate] have converted it to
    the type of the labelled arrays; and the rest of the pool with the rest
    of the oracle is a subsequence of the training data, values and order
    kept. *)
Theorem labels_stay_with_rows {label} (E : externals label)
    (c : config E) (w0 : world E) (s : state E) (w : world E) :
  reachable E c w0 s w →
  length (X_train s) = length (y_train s) ∧
  Forall (λ p, ∃ x y, (x, y) ∈ zip (training_pool c) (training_oracle c) ∧
                      p = (promote_row E x, promote_label E y))
    (zip (X_train s) (y_train s)) ∧
  zip (unlabelled_pool s) (unlabelled_oracle s)
    `sublist_of` zip (training_pool c) (training_oracle c).
Proof.
  intros Hr.
  assert (aligned E c s) as (Hlen & Hin & Hsub).
  { induction Hr as [s w Hseed|s w s' w' _ IH _ Hstep].
    - by eapply seed_phase_aligned.
    - by eapply query_step_aligned. }
  split_and!; [done| |done].
  eapply Forall_impl; [exact Hin|]. intros p Hp.
  apply list_elem_of_fmap in Hp as ([x y] & -> & Hxy). by exists x, y.
Qed.

Lemma labels_stay_with_rows_witness :
  Forall (λ p, ∃ x y, (x, y) ∈ zip (Demo.pool 6) (Demo.oracle 6) ∧ p = (x, y))
    (zip [1; 2; 0; 0] ["a"; "a"; "a"; "a"]%string).
Proof.
  refine (proj1 (proj2 (labels_stay_with_rows (Demo.env true)
            (Demo.cfg 6 3 2 4 Demo.first_twice) (7, 0)
            (@Build_state string (Demo.env true)
               [3; 4; 5] ["b"; "b"; "b"]%string
               [1; 2; 0; 0] ["a"; "a"; "a"; "a"]%string [2; 4]) (9, 4) _))).
  eapply reach_step; [apply reach_seed| |]; vm_compute; reflexivity.
Defined.

(** ** The labelled set and the curve only grow *)

Section AppendOnly.
Context {label : Type} (E : externals label).
Implicit Types (c : config E) (s : state E) (w : world E).

Lemma query_step_prefix c s w s' w' :
  query_step E c s w = Ok (s', w') →
  X_train s `prefix_of` X_train s' ∧ y_train s `prefix_of` y_train s' ∧
  ∃ accuracy, learning_curve s' = learning_curve s ++ [accuracy].
Proof.
  unfold query_step. rewrite bind_Ok.
  intros ([[[cidx Xc] yc] w1] & _ & H).
  destruct (active_learning_heuristic c Xc _ _ _ _ _ _ w1) as [best w2].
  apply bind_Ok in H as (Xb & _ & H). apply bind_Ok in H as (yb & _ & H).
  apply bind_Ok in H as (biu & _ & H). injection H as <- <-. simpl.
  split_and!; [by apply prefix_app_r|by apply prefix_app_r|by eexists].
Qed.
End AppendOnly.

(** X3. The labelled set and the learning curve are append-only. From any
    point of the loop to its end, the rows and labels already queried stay
    where they are, in the same order, and so do the accuracies already
    recorded; one iteration appends exactly one accuracy. *)
Theorem labelled_set_append_only {label} (E : externals label)
    (c : config E) (fuel : nat) (s : state E) (w : world E) s' w' :
  query_loop E fuel c s w = Some (Ok (s', w')) →
  X_train s `prefix_of` X_train s' ∧
  y_train s `prefix_of` y_train s' ∧
  learning_curve s `prefix_of` learning_curve s' ∧
  (∀ s1 w1, continues E c s = true → query_step E c s w = Ok (s1, w1) →
     length (learning_curve s1) = S (length (learning_curve s)) ∧
     learning_curve s1 `prefix_of` learning_curve s').
Proof.
  revert s w. induction fuel as [|fuel IH]; intros s w; simpl.
  - destruct (continues E c s); [done|]. intros [= <- <-]. split_and!; try done.
  - destruct (continues E c s) eqn:Hc; [|intros [= <- <-]; split_and!; done].
    destruct (query_step E c s w) as [[s1 w1]|e] eqn:Hstep; [|done].
    intros Hloop. destruct (IH s1 w1 Hloop) as (HX & Hy & Hcv & _).
    destruct (query_step_prefix E c s w s1 w1 Hstep) as (HX1 & Hy1 & accuracy & Hcv1).
    split_and!.
    + by etrans.
    + by etrans.
    + etrans; [|exact Hcv]. rewrite Hcv1. by apply prefix_app_r.
    + intros s2 w2 _ [= <- <-]. split; [|done].
      rewrite Hcv1, length_app. simpl. lia.
Qed.

Lemma labelled_set_append_only_witness :
  ∃ s' w',
    query_loop (Demo.env true) 10 (Demo.cfg 10 5 0 3 Demo.highest_index)
      (Demo.unseeded 10) (7, 0) = Some (Ok (s', w')) ∧
    learning_curve (@Demo.unseeded true 10) `prefix_of` learning_curve s' ∧
    length (y_train s') = 5.
Proof.
  eexists _, _. split; [vm_compute; reflexivity|].
  split.
  - refine (proj1 (proj2 (proj2 (labelled_set_append_only (Demo.env true)
              (Demo.cfg 10 5 0 3 Demo.highest_index) 10 (Demo.unseeded 10) (7, 0)
              _ _ _)))).
    vm_compute. reflexivity.
  - reflexivity.
Defined.

(** ** How far the labelled set can pass total_n *)

Section Overshoot.
Context {label : Type} (E : externals label).
Implicit Types (c : config E) (s : state E) (w : world E).

Lemma NoDup_bounded_length (l : list Z) (n : nat) :
  NoDup l → Forall (λ i, 0 ≤ i < Z.of_nat n)%Z l → length l ≤ n.
Proof.
  intros Hnd Hl.
  assert (NoDup (Z.to_nat <$> l)) as Hnd'.
  { apply NoDup_to_nat; [|done]. eapply Forall_impl; [exact Hl|]. simpl. lia. }
  assert (Z.to_nat <$> l ⊆+ seq 0 n) as Hsub.
  { apply NoDup_submseteq; [done|]. intros x Hx.
    apply list_elem_of_fmap in Hx as (i & -> & Hi).
    rewrite Forall_forall in Hl. specialize (Hl i Hi).
    apply elem_of_seq. lia. }
  apply submseteq_length in Hsub. by rewrite length_fmap, length_seq in Hsub.
Qed.

Lemma seed_phase_labelled c w s w' :
  sample_ok E → seed_phase E c w = Ok (s, w') →
  Z.of_nat (length (y_train s)) = initial_n c.
Proof.
  intros Hs H.
  apply seed_phase_Ok in H as (idx & w1 & Xc & yc & Hch & _ & Hyc & _ & Hy & _).
  apply (choice_Ok E) in Hch as (Hsize & _ & _ & Hlen); [|done].
  apply take_idx_length in Hyc. rewrite Hy, length_fmap. lia.
Qed.

Lemma query_step_at_most_batch c s w s' w' :
  sample_ok E → selects_distinct E (active_learning_heuristic c) →
  query_step E c s w = Ok (s', w') →
  (0 ≤ random_n c)%Z ∧
  (Z.of_nat (length (y_train s')) ≤ Z.of_nat (length (y_train s)) + random_n c)%Z.
Proof.
  intros Hs Hh H.
  apply query_step_Ok in H
    as (cidx & w1 & Xc & yc & js & biu & Xb & yb & Hch & HXc & _ & Hjs & Hbiu
        & _ & Hyb & _ & Hy & _).
  apply (choice_Ok E) in Hch as (Hsize & _ & _ & Hlen); [|done].
  unfold candidate_size in *.
  split; [lia|].
  rewrite Hy, length_app, length_fmap. apply take_idx_length in Hyb, Hbiu, HXc.
  apply norm_indices_Ok in Hjs as Hjs'. destruct Hjs' as [Hljs _].
  destruct (decide (Xc = [])) as [->|Hne].
  - simpl in HXc. rewrite <- HXc in Hjs.
    apply norm_indices_empty_array in Hjs as [_ ->]. simpl in *. lia.
  - destruct (Hh Xc (X_train s) (y_train s) (n_classes c) (classifier c)
                (committee c) (bag_size c) w1 Hne) as (_ & Hnd & Hrange).
    pose proof (NoDup_bounded_length _ _ Hnd Hrange). lia.
Qed.
End Overshoot.

Lemma every_candidate_selects_distinct r :
  selects_distinct (Demo.env r) Demo.every_candidate.
Proof.
  intros Xc X y nc cl cm bs w Hne. simpl. split_and!.
  - destruct Xc; [done|]. simpl. done.
  - apply (NoDup_fmap_2 _), NoDup_seq.
  - apply Forall_fmap, Forall_forall. intros i Hi. apply elem_of_seq in Hi.
    simpl. lia.
Qed.

(** X4. The loop test is made before an iteration, and a heuristic may
    select several candidates at once, so the labelled set can pass
    [total_n]. With distinct indices it passes it by at most
    [random_n - 1]: a run that returns ends with at least [total_n] labels
    and at most [max(initial_n, total_n + random_n - 1)]. *)
Theorem labelled_set_overshoot {label} (E : externals label)
    (c : config E) (fuel : nat) (w : world E) s' w' :
  sample_ok E → selects_distinct E (active_learning_heuristic c) →
  active_learn_run E fuel c w = Some (Ok (s', w')) →
  (total_n c ≤ Z.of_nat (length (y_train s')))%Z ∧
  (Z.of_nat (length (y_train s')) ≤ Z.max (initial_n c) (total_n c + random_n c - 1))%Z.
Proof.
  intros Hs Hh Hrun. apply active_learn_run_reachable in Hrun as [Hreach Hstop].
  split.
  - unfold continues in Hstop. apply bool_decide_eq_false_1 in Hstop. lia.
  - clear Hstop. induction Hreach as [s w1 Hseed|s w1 s1 w2 _ IH Hc Hstep].
    + apply (seed_phase_labelled E) in Hseed; [lia|done].
    + apply (query_step_at_most_batch E) in Hstep; [|done|done].
      unfold continues in Hc. apply bool_decide_eq_true_1 in Hc. lia.
Qed.

Lemma labelled_set_overshoot_witness :
  ∃ s' w',
    active_learn_run (Demo.env true) 10 (Demo.cfg 10 5 4 4 Demo.every_candidate) (7, 0)
      = Some (Ok (s', w')) ∧
    length (y_train s') = 8 ∧
    (5 ≤ Z.of_nat (length (y_train s')))%Z ∧
    (Z.of_nat (length (y_train s')) ≤ Z.max 4 (5 + 4 - 1))%Z.
Proof.
  eexists _, _. split; [vm_compute; reflexivity|]. split; [reflexivity|].
  eapply (labelled_set_overshoot (Demo.env true)
            (Demo.cfg 10 5 4 4 Demo.every_candidate) 10 (7, 0) _ _
            (demo_sample_ok true) (every_candidate_selects_distinct true)).
  vm_compute. reflexivity.
Defined.

(** ** An index returned twice *)

Section Duplicates.
Context {label : Type} (E : externals label).
Implicit Types (c : config E) (s : state E) (w : world E).

Lemma delete_from_ext {A} k (a : list A) (idx idx' : list nat) :
  (∀ x, x ∈ idx ↔ x ∈ idx') →
  Np.delete_from k a idx = Np.delete_from k a idx'.
Proof.
  intros Hext. revert k. induction a as [|x a IH]; intros k; simpl; [done|].
  rewrite (bool_decide_ext _ _ (Hext k)), !IH. done.
Qed.

Lemma remove_dups_length_le (l : list nat) : length (remove_dups l) ≤ length l.
Proof.
  induction l as [|x l IH]; simpl; [done|].
  destruct (decide_rel _ x l); simpl; lia.
Qed.

Lemma remove_dups_length_lt (l : list nat) :
  ¬ NoDup l → length (remove_dups l) < length l.
Proof.
  induction l as [|x l IH]; simpl; intros Hnd.
  - destruct Hnd. constructor.
  - destruct (decide_rel _ x l) as [Hin|Hnin]; simpl.
    + pose proof (remove_dups_length_le l). lia.
    + assert (¬ NoDup l) as Hl by (intros Hl; apply Hnd; by constructor).
      specialize (IH Hl). lia.
Qed.

Lemma delete_length_dup {A} (a : list A) (idx : list nat) :
  ¬ NoDup idx → length a < length (Np.delete a idx) + length idx.
Proof.
  intros Hnd. unfold Np.delete.
  rewrite (delete_from_ext 0 a idx (remove_dups idx)).
  2: { intros x. by rewrite elem_of_remove_dups. }
  pose proof (delete_length_ge a (remove_dups idx)) as Hge. unfold Np.delete in Hge.
  pose proof (remove_dups_length_lt idx Hnd). lia.
Qed.

Lemma lookups_NoDup (cidx js biu : list nat) :
  Forall2 (λ j p, cidx !! j = Some p) js biu → NoDup biu → NoDup js.
Proof.
  induction 1 as [|j p js biu Hj Hall IH]; [constructor|].
  rewrite !NoDup_cons. intros [Hp Hnd]. split; [|by apply IH].
  intros Hin. apply Hp.
  apply list_elem_of_lookup in Hin as [k Hk].
  destruct (Forall2_lookup_l _ _ _ _ _ Hall Hk) as (p' & Hp' & Hjp).
  assert (p' = p) as -> by congruence.
  by eapply list_elem_of_lookup_2.
Qed.
End Duplicates.

(** X5. Nothing removes a repeated index from what the heuristic returns.
    If two of the returned indices stand for the same candidate, the
    iteration succeeds, the candidate is appended to the labelled set once
    per occurrence and deleted from the pool once: from then on the
    labelled set and the pool together hold more rows than before. *)
Theorem repeated_index_duplicates_row {label} (E : externals label)
    (c : config E) (s : state E) (w : world E) cidx Xc yc w1 best w2 :
  draw_candidates E c s w = Ok (cidx, Xc, yc, w1) →
  active_learning_heuristic c Xc (X_train s) (y_train s) (n_classes c)
    (classifier c) (committee c) (bag_size c) w1 = (best, w2) →
  Forall (λ i, - Z.of_nat (length Xc) ≤ i < Z.of_nat (length Xc))%Z best →
  ¬ NoDup (position (length Xc) <$> best) →
  ∃ s' w',
    query_step E c s w = Ok (s', w') ∧
    length (y_train s') = length (y_train s) + length best ∧
    length (X_train s') = length (X_train s) + length best ∧
    length (y_train s) + length (unlabelled_oracle s)
      < length (y_train s') + length (unlabelled_oracle s') ∧
    length (X_train s) + length (unlabelled_pool s)
      < length (X_train s') + length (unlabelled_pool s').
Proof.
  intros Hdraw Hh Hbest Hdup.
  destruct (draw_candidates_Ok E c s w cidx Xc yc w1 Hdraw)
    as (_ & HXc & Hyc & HlX & Hly).
  destruct (take_z_position Xc best Hbest) as (Xb & HXb & HXb2).
  destruct (take_z_position yc best) as (yb & Hyb & Hyb2).
  { by rewrite Hly, <- HlX. }
  destruct (take_z_position cidx best) as (biu & Hbiu & Hbiu2).
  { by rewrite <- HlX. }
  rewrite <- HlX in Hbiu2.
  assert (¬ NoDup biu) as Hbdup.
  { intros Hnd. apply Hdup.
    apply (lookups_NoDup cidx _ biu); [|done]. by apply Forall2_fmap_l. }
  eexists _, _. split.
  { unfold query_step. rewrite Hdraw. simpl. rewrite Hh, HXb. simpl.
    rewrite Hyb. simpl. rewrite Hbiu. reflexivity. }
  simpl. rewrite !length_app, ?length_fmap.
  apply Forall2_length in HXb2, Hyb2, Hbiu2.
  pose proof (delete_length_dup (unlabelled_oracle s) biu Hbdup).
  pose proof (delete_length_dup (unlabelled_pool s) biu Hbdup).
  split_and!; lia.
Qed.

Lemma repeated_index_duplicates_row_witness :
  ∃ s' w',
    query_step (Demo.env true) (Demo.cfg 6 3 0 4 Demo.first_twice) (Demo.unseeded 6) (7, 0)
      = Ok (s', w') ∧
    X_train s' = [1; 1] ∧ unlabelled_pool s' = [0; 2; 3; 4; 5].
Proof.
  destruct (repeated_index_duplicates_row (Demo.env true)
              (Demo.cfg 6 3 0 4 Demo.first_twice) (Demo.unseeded 6) (7, 0)
              [1; 2; 3; 4] [1; 2; 3; 4] ["a"; "a"; "b"; "b"]%string (8, 0)
              [0; 0]%Z (8, 0))
    as (s' & w' & Hstep & _).
  - vm_compute. reflexivity.
  - reflexivity.
  - repeat constructor; simpl; lia.
  - vm_compute. intros Hnd. apply NoDup_cons in Hnd as [Hnin _].
    apply Hnin. apply elem_of_cons. by left.
  - exists s', w'. split; [exact Hstep|].
    vm_compute in Hstep. injection Hstep as <- <-. split; reflexivity.
Defined.

(** ** The candidate batch *)

Section Batch.
Context {label : Type} (E : externals label).
Implicit Types (c : config E) (s : state E) (w : world E).

Lemma take_idx_all {A} (a : list A) idx xs :
  Np.take_idx a idx = Ok xs → NoDup idx → length idx = length a → xs ≡ₚ a.
Proof.
  intros Hxs Hnd Hlen.
  pose proof (take_delete_perm a idx xs Hxs Hnd) as Hperm.
  pose proof (take_delete_length a idx xs Hxs Hnd) as Hdel.
  assert (Np.delete a idx = []) as Hnil by (apply nil_length_inv; lia).
  by rewrite Hnil, app_nil_r in Hperm.
Qed.
End Batch.

(** X6. The candidate batch of an iteration, for [random_n >= 0] and a
    pool with as many rows as labels: [min(random_n, rows left)] distinct
    positions of the unlabelled pool, each candidate row with the label at
    its position. When [random_n] is at least the number of rows left (as
    with the default of 60000 on a smaller pool) the batch is the whole
    remaining pool, in the order the random generator gives. *)
Theorem candidate_batch {label} (E : externals label)
    (c : config E) (s : state E) (w : world E) :
  sample_ok E → (0 ≤ random_n c)%Z →
  length (unlabelled_pool s) = length (unlabelled_oracle s) →
  unlabelled_oracle s ≠ [] ∨ choice_rejects_empty E = false →
  ∃ cidx Xc yc w1,
    draw_candidates E c s w = Ok (cidx, Xc, yc, w1) ∧
    Z.of_nat (length cidx)
      = Z.min (random_n c) (Z.of_nat (length (unlabelled_oracle s))) ∧
    NoDup cidx ∧
    Forall2 (λ i x, unlabelled_pool s !! i = Some x) cidx Xc ∧
    Forall2 (λ i y, unlabelled_oracle s !! i = Some y) cidx yc ∧
    ((Z.of_nat (length (unlabelled_oracle s)) ≤ random_n c)%Z →
     Xc ≡ₚ unlabelled_pool s ∧ yc ≡ₚ unlabelled_oracle s ∧
     zip Xc yc ≡ₚ zip (unlabelled_pool s) (unlabelled_oracle s)).
Proof.
  intros Hs Hrand Hlen Hne.
  assert (np_random_choice E (length (unlabelled_oracle s)) (candidate_size E c s) w
          = Ok (rng_sample E (length (unlabelled_oracle s))
                  (Z.to_nat (candidate_size E c s)) w)) as Hch.
  { apply choice_succeeds; [unfold candidate_size; lia|].
    destruct Hne as [Hne|Hne]; [left|by right].
    destruct (unlabelled_oracle s); [done|simpl; lia]. }
  destruct (rng_sample E _ _ w) as [cidx w1] eqn:Hrng.
  apply (choice_Ok E) in Hch as Hch'; [|done].
  destruct Hch' as (Hsize & Hnd & Hrange & Hlc).
  destruct (take_idx_in_range (unlabelled_pool s) cidx) as [Xc HXc].
  { by rewrite Hlen. }
  destruct (take_idx_in_range (unlabelled_oracle s) cidx) as [yc Hyc]; [done|].
  exists cidx, Xc, yc, w1. split_and!.
  - unfold draw_candidates. rewrite Hch. simpl. rewrite HXc. simpl. by rewrite Hyc.
  - unfold candidate_size in *. lia.
  - done.
  - by apply take_idx_Ok.
  - by apply take_idx_Ok.
  - intros Hall.
    assert (length cidx = length (unlabelled_oracle s)) as Hfull
      by (unfold candidate_size in *; lia).
    split_and!.
    + apply (take_idx_all _ cidx); [done|done|lia].
    + by apply (take_idx_all _ cidx).
    + apply (take_idx_all _ cidx); [by apply take_idx_zip|done|].
      rewrite length_zip_with. lia.
Qed.

Lemma candidate_batch_witness :
  ∃ cidx Xc yc w1,
    draw_candidates (Demo.env true) (Demo.cfg 6 3 0 60000 Demo.highest_index)
      (Demo.unseeded 6) (7, 0) = Ok (cidx, Xc, yc, w1) ∧
    length cidx = 6 ∧ Xc ≡ₚ Demo.pool 6.
Proof.
  destruct (candidate_batch (Demo.env true) (Demo.cfg 6 3 0 60000 Demo.highest_index)
              (Demo.unseeded 6) (7, 0) (demo_sample_ok true))
    as (cidx & Xc & yc & w1 & Hdraw & Hlen & _ & _ & _ & Hall).
  - simpl. lia.
  - reflexivity.
  - left. vm_compute. discriminate.
  - exists cidx, Xc, yc, w1. split; [exact Hdraw|]. split.
    + change (random_n _) with 60000%Z in Hlen.
      change (length (unlabelled_oracle _)) with 6 in Hlen. lia.
    + apply Hall. vm_compute. discriminate.
Defined.

(** ** An exhausted pool *)

(** X7. When the unlabelled pool is used up before [total_n] labels are
    reached, the loop does not stop and returns no curve. On a numpy whose
    [np.random.choice] rejects an empty population the next iteration
    raises ValueError. On a numpy that accepts it the heuristic is called
    on an empty batch: any index it returns raises IndexError, and as long
    as it returns none the loop goes on without end, refitting the
    classifier on the same labelled set. *)
Theorem exhausted_pool_never_returns {label} (E : externals label)
    (c : config E) (s : state E) (w : world E) :
  sample_ok E → (0 ≤ random_n c)%Z →
  unlabelled_oracle s = [] → continues E c s = true →
  (choice_rejects_empty E = true →
   ∀ fuel, query_loop E (S fuel) c s w = Some (Raise ValueError)) ∧
  (choice_rejects_empty E = false →
   ∀ fuel, query_loop E fuel c s w = None ∨
           query_loop E fuel c s w = Some (Raise IndexError)).
Proof.
  intros Hs Hrand Hnil Hc. split.
  - intros Hrej fuel. rewrite query_loop_step by done.
    unfold query_step, draw_candidates. rewrite Hnil. simpl length.
    by rewrite choice_empty_rejected.
  - intros Hacc fuel. revert s w Hnil Hc.
    induction fuel as [|fuel IH]; intros s w Hnil Hc.
    + left. simpl. by rewrite Hc.
    + rewrite query_loop_step by done.
      destruct (query_step_exhausted E c s w Hs Hacc Hrand Hnil)
        as [->|(s' & w' & -> & Hnil' & Hy)]; [by right|].
      apply IH; [done|]. unfold continues in *. by rewrite Hy.
Qed.

Lemma exhausted_pool_never_returns_witness :
  query_loop (Demo.env true) 3 (Demo.cfg 0 2 0 3 Demo.highest_index)
    (Demo.unseeded 0) (7, 0) = Some (Raise ValueError) ∧
  (query_loop (Demo.env false) 3 (Demo.cfg 0 2 0 3 Demo.highest_index)
     (Demo.unseeded 0) (7, 0) = None ∨
   query_loop (Demo.env false) 3 (Demo.cfg 0 2 0 3 Demo.highest_index)
     (Demo.unseeded 0) (7, 0) = Some (Raise IndexError)).
Proof.
  split.
  - apply (proj1 (exhausted_pool_never_returns (Demo.env true)
                    (Demo.cfg 0 2 0 3 Demo.highest_index) (Demo.unseeded 0) (7, 0)
                    (demo_sample_ok true) ltac:(simpl; lia) eq_refl eq_refl) eq_refl 2).
  - apply (proj2 (exhausted_pool_never_returns (Demo.env false)
                    (Demo.cfg 0 2 0 3 Demo.highest_index) (Demo.unseeded 0) (7, 0)
                    (demo_sample_ok false) ltac:(simpl; lia) eq_refl eq_refl) eq_refl 3).
Defined.

(** ** The exceptions of a run, by their cause *)

Section ExceptionCauses.
Context {label : Type} (E : externals label).
Implicit Types (c : config E) (s : state E) (w : world E).

Lemma query_step_accepts c s w cidx Xc yc w1 best w2 :
  draw_candidates E c s w = Ok (cidx, Xc, yc, w1) →
  active_learning_heuristic c Xc (X_train s) (y_train s) (n_classes c)
    (classifier c) (committee c) (bag_size c) w1 = (best, w2) →
  Forall (λ i, - Z.of_nat (length Xc) ≤ i < Z.of_nat (length Xc))%Z best →
  ∃ s' w', query_step E c s w = Ok (s', w').
Proof.
  intros Hdraw Hh Hbest.
  destruct (draw_candidates_Ok E c s w cidx Xc yc w1 Hdraw)
    as (_ & HXc & Hyc & HlX & Hly).
  destruct (take_z_position Xc best Hbest) as (Xb & HXb & _).
  destruct (take_z_position yc best) as (yb & Hyb & _).
  { by rewrite Hly, <- HlX. }
  destruct (take_z_position cidx best) as (biu & Hbiu & _).
  { by rewrite <- HlX. }
  eexists _, _. unfold query_step. rewrite Hdraw. simpl. rewrite Hh, HXb. simpl.
  rewrite Hyb. simpl. rewrite Hbiu. reflexivity.
Qed.

Lemma seed_phase_value_error c w e :
  sample_ok E → length (training_pool c) = length (training_oracle c) →
  seed_phase E c w = Raise e → e = ValueError.
Proof.
  intros Hs Hlen H. rewrite seed_phase_unfold in H.
  apply bind_Raise in H as [H|([idx w1] & Hch & H)].
  { by eapply choice_Raise. }
  apply (choice_Ok E) in Hch as (_ & _ & Hrange & _); [|done].
  destruct (take_idx_in_range (training_pool c) idx) as [Xc HXc]; [by rewrite Hlen|].
  destruct (take_idx_in_range (training_oracle c) idx) as [yc Hyc]; [done|].
  rewrite HXc in H. simpl in H. rewrite Hyc in H. done.
Qed.

Lemma seed_phase_same_length c w s w' :
  length (training_pool c) = length (training_oracle c) →
  seed_phase E c w = Ok (s, w') →
  length (unlabelled_pool s) = length (unlabelled_oracle s).
Proof.
  intros Hlen H.
  apply seed_phase_Ok in H as (idx & w1 & Xc & yc & _ & _ & _ & _ & _ & -> & -> & _).
  by apply delete_from_length_eq.
Qed.

Lemma query_step_same_length c s w s' w' :
  length (unlabelled_pool s) = length (unlabelled_oracle s) →
  query_step E c s w = Ok (s', w') →
  length (unlabelled_pool s') = length (unlabelled_oracle s').
Proof.
  intros Hlen H.
  apply query_step_Ok in H
    as (cidx & w1 & Xc & yc & js & biu & Xb & yb & _ & _ & _ & _ & _
        & _ & _ & _ & _ & -> & -> & _).
  by apply delete_from_length_eq.
Qed.

Lemma query_step_value_error c s w e :
  sample_ok E → selects_within E (active_learning_heuristic c) →
  length (unlabelled_pool s) = length (unlabelled_oracle s) →
  query_step E c s w = Raise e → e = ValueError.
Proof.
  intros Hs Hh Hlen H. unfold query_step in H.
  destruct (draw_candidates E c s w) as [[[[cidx Xc] yc] w1]|e1] eqn:Hdraw.
  - exfalso. simpl in H.
    destruct (active_learning_heuristic c Xc (X_train s) (y_train s) (n_classes c)
                (classifier c) (committee c) (bag_size c) w1) as [best w2] eqn:Hbest.
    assert (Forall (λ i, - Z.of_nat (length Xc) ≤ i < Z.of_nat (length Xc))%Z best)
      as Hrange.
    { pose proof (Hh Xc (X_train s) (y_train s) (n_classes c) (classifier c)
                    (committee c) (bag_size c) w1) as Hh'.
      by rewrite Hbest in Hh'. }
    destruct (query_step_accepts c s w cidx Xc yc w1 best w2
                Hdraw Hbest Hrange) as (s' & w' & Hstep).
    unfold query_step in Hstep. rewrite Hdraw in Hstep. simpl in Hstep.
    rewrite Hbest in Hstep. congruence.
  - simpl in H. injection H as <-.
    unfold draw_candidates in Hdraw.
    apply bind_Raise in Hdraw as [H|([idx w1] & Hch & H)].
    { by eapply choice_Raise. }
    exfalso.
    apply (choice_Ok E) in Hch as (_ & _ & Hrange & _); [|done].
    destruct (take_idx_in_range (unlabelled_pool s) idx) as [Xc HXc]; [by rewrite Hlen|].
    destruct (take_idx_in_range (unlabelled_oracle s) idx) as [yc Hyc]; [done|].
    rewrite HXc in H. simpl in H. rewrite Hyc in H. done.
Qed.
End ExceptionCauses.

Section ExceptionLoop.
Context {label : Type} (E : externals label).
Implicit Types (c : config E) (s : state E) (w : world E).

Lemma query_loop_value_error fuel c s w e :
  sample_ok E → selects_within E (active_learning_heuristic c) →
  length (unlabelled_pool s) = length (unlabelled_oracle s) →
  query_loop E fuel c s w = Some (Raise e) → e = ValueError.
Proof.
  intros Hs Hh. revert s w. induction fuel as [|fuel IH]; intros s w Hlen; simpl.
  - by destruct (continues E c s).
  - destruct (continues E c s); [|done].
    destruct (query_step E c s w) as [[s1 w1]|e1] eqn:Hstep.
    + apply IH. by eapply query_step_same_length.
    + intros [= <-]. by eapply query_step_value_error.
Qed.
End ExceptionLoop.

(** X8. The exceptions of [active_learn], with a classifier, a heuristic
    and an accuracy function that raise none themselves. A run that raises
    raises ValueError (from [np.random.choice]) or IndexError (from the
    indexing of an array). With as many rows as labels, a random generator
    that keeps to the range, and a heuristic whose indices lie in [-n, n)
    for a batch of [n], IndexError cannot occur: every exception is the
    ValueError of a draw that the pool cannot serve. *)
Theorem active_learn_exceptions {label} (E : externals label)
    (c : config E) (w : world E) :
  (∀ fuel e, active_learn E fuel c w = Some (Raise e) →
     e = ValueError ∨ e = IndexError) ∧
  (sample_ok E → selects_within E (active_learning_heuristic c) →
   length (training_pool c) = length (training_oracle c) →
   ∀ fuel e, active_learn E fuel c w = Some (Raise e) → e = ValueError).
Proof.
  split.
  - intros fuel e. unfold active_learn, active_learn_run.
    destruct (seed_phase E c w) as [[s0 w0]|e0] eqn:Hseed.
    + destruct (query_loop E fuel c s0 w0) as [[[s' w']|e1]|] eqn:Hloop; [done| |done].
      intros [= <-]. by eapply query_loop_Raise.
    + intros [= <-]. by eapply seed_phase_Raise.
  - intros Hs Hh Hlen fuel e. unfold active_learn, active_learn_run.
    destruct (seed_phase E c w) as [[s0 w0]|e0] eqn:Hseed.
    + destruct (query_loop E fuel c s0 w0) as [[[s' w']|e1]|] eqn:Hloop; [done| |done].
      intros [= <-]. eapply query_loop_value_error; [done|done| |done].
      by eapply seed_phase_same_length.
    + intros [= <-]. by eapply seed_phase_value_error.
Qed.

Lemma first_if_any_selects_within r : selects_within (Demo.env r) Demo.first_if_any.
Proof.
  intros Xc X y nc cl cm bs w. simpl.
  destruct Xc as [|x Xc]; [constructor|].
  repeat constructor; simpl; lia.
Qed.

Lemma active_learn_exceptions_witness :
  ∃ e,
    active_learn (Demo.env true) 10 (Demo.cfg 3 5 2 3 Demo.first_if_any) (7, 0)
      = Some (Raise e) ∧
    e = ValueError.
Proof.
  eexists. split; [vm_compute; reflexivity|].
  apply (proj2 (active_learn_exceptions (Demo.env true)
                  (Demo.cfg 3 5 2 3 Demo.first_if_any) (7, 0))
           (demo_sample_ok true) (first_if_any_selects_within true)
           ltac:(vm_compute; reflexivity) 10).
  vm_compute. reflexivity.
Defined.

(** X9. A feature matrix with more rows than the oracle has labels is not
    rejected, and the rows past the last label never take part: positions
    are drawn below [len(training_oracle)] only, so a run on such a matrix
    ends as the run on its first [len(training_oracle)] rows does, with the
    same learning curve or the same exception, and leaves the random
    generator and the classifier in the same state. *)
Theorem surplus_rows_ignored {label} (E : externals label)
    (c : config E) (surplus : list (row E)) (fuel : nat) (w : world E) :
  length (training_pool c) = length (training_oracle c) →
  active_learn E fuel (with_training_pool c (training_pool c ++ surplus)) w
  = active_learn E fuel c w.
Proof.
  intros Hlen. unfold active_learn, active_learn_run.
  pose proof (seed_phase_surplus E c surplus w Hlen) as Hseed.
  destruct (seed_phase E (with_training_pool _ _) w) as [[s1 w1]|e1];
    destruct (seed_phase E c w) as [[s2 w2]|e2]; try done.
  - destruct Hseed as [Hsim ->].
    pose proof (query_loop_surplus E fuel c surplus s1 s2 w2 Hsim) as Hloop.
    destruct (query_loop E fuel (with_training_pool _ _) s1 w2) as [[[s1' w1']|e1]|];
      destruct (query_loop E fuel c s2 w2) as [[[s2' w2']|e2]|]; try done.
    + destruct Hloop as [(_ & _ & _ & _ & _ & ->) ->]. done.
    + by rewrite Hloop.
  - by rewrite Hseed.
Qed.

Lemma surplus_rows_ignored_witness :
  active_learn (Demo.env true) 10
    (with_training_pool (Demo.cfg 4 3 2 2 Demo.highest_index) (Demo.pool 4 ++ [4; 5; 6]))
    (7, 0)
  = Some (Ok ([2; 3], (9, 3))).
Proof.
  etrans.
  - apply (surplus_rows_ignored (Demo.env true) (Demo.cfg 4 3 2 2 Demo.highest_index)
             [4; 5; 6] 10 (7, 0)).
    vm_compute. reflexivity.
  - vm_compute. reflexivity.
Defined.

(** ** The training data of a trial *)

Section Slices.
Context {A : Type}.
Implicit Types (a : list A).

Lemma slice_take_drop a (i n : Z) :
  (0 ≤ i)%Z → (0 ≤ n)%Z →
  Np.slice a i (i + n) = take (Z.to_nat n) (drop (Z.to_nat i) a).
Proof.
  intros Hi Hn. unfold Np.slice, Np.slice_bound.
  rewrite !bool_decide_eq_false_2 by lia.
  destruct (decide (Z.to_nat i ≤ length a)) as [Hle|Hgt].
  - rewrite (Nat.min_l (Z.to_nat i)) by lia.
    destruct (decide (Z.to_nat (i + n) ≤ length a)) as [Hle2|Hgt2].
    + rewrite Nat.min_l by lia. f_equal. lia.
    + rewrite Nat.min_r by lia.
      rewrite !take_ge; [done| |]; rewrite length_drop; lia.
  - rewrite !Nat.min_r by lia. rewrite Nat.sub_diag. simpl.
    rewrite (drop_ge a (Z.to_nat i)) by lia. by rewrite take_nil.
Qed.

Lemma slice_length a (i n : Z) :
  (0 ≤ i)%Z → (0 ≤ n)%Z →
  length (Np.slice a i (i + n)) = Nat.min (Z.to_nat n) (length a - Z.to_nat i).
Proof.
  intros Hi Hn. by rewrite slice_take_drop, length_take, length_drop.
Qed.

Lemma slice_sublist a (i j : Z) : Np.slice a i j `sublist_of` a.
Proof.
  unfold Np.slice. etrans; [apply sublist_take|apply sublist_drop].
Qed.

Lemma take_mask_class a (oracle : list string) (cls : string) :
  length a = length oracle →
  Np.take_mask a ((λ y, bool_decide (y = cls)) <$> oracle)
  = Ok (rows_of_class a oracle cls).
Proof.
  intros Hlen. unfold Np.take_mask, rows_of_class.
  rewrite length_fmap, bool_decide_eq_true_2 by done. f_equal.
  revert oracle Hlen. induction a as [|x a IH]; intros [|y oracle] Hlen;
    simplify_eq/=; [done|].
  rewrite !filter_cons. simpl.
  case_bool_decide as Hy.
  - rewrite decide_True by done. rewrite decide_True by done. simpl. f_equal. by apply IH.
  - rewrite decide_False by done. rewrite decide_False by done. by apply IH.
Qed.

Lemma take_mask_length_mismatch a (mask : list bool) :
  length a ≠ length mask → Np.take_mask a mask = Raise IndexError.
Proof. intros Hne. unfold Np.take_mask. by rewrite bool_decide_eq_false_2. Qed.

Lemma rows_of_class_length a (oracle : list string) (cls : string) :
  length a = length oracle →
  length (rows_of_class a oracle cls) = length (filter (λ y, y = cls) oracle).
Proof.
  unfold rows_of_class. rewrite length_fmap.
  revert oracle. induction a as [|x a IH]; intros [|y oracle] Hlen;
    simplify_eq/=; [done|].
  rewrite !filter_cons. simpl.
  destruct (decide (y = cls)); simpl; by rewrite IH.
Qed.

Lemma rows_of_class_elem_of a (oracle : list string) (cls : string) x :
  x ∈ rows_of_class a oracle cls → (x, cls) ∈ zip a oracle.
Proof.
  unfold rows_of_class. intros Hx.
  apply list_elem_of_fmap in Hx as ([x' y] & -> & Hin).
  apply list_elem_of_filter in Hin as [Hy Hin]. simpl in *. by subst.
Qed.
End Slices.

Section BalancedTrial.
Context (E : externals string).
Implicit Types (a : Experiment.args E).

Lemma training_sub_balanced a (i : Z) :
  Experiment.balanced_pool a = true →
  length (Experiment.training_pool a) = length (Experiment.training_oracle a) →
  (0 ≤ i)%Z → (0 ≤ Experiment.sub_sample_size E a)%Z →
  Experiment.training_sub E a i =
    Ok (take (Z.to_nat (Experiment.sub_sample_size E a))
          (drop (Z.to_nat i)
             (rows_of_class (Experiment.training_pool a)
                (Experiment.training_oracle a) "Galaxy")) ++
        take (Z.to_nat (Experiment.sub_sample_size E a))
          (drop (Z.to_nat i)
             (rows_of_class (Experiment.training_pool a)
                (Experiment.training_oracle a) "Star")) ++
        take (Z.to_nat (Experiment.sub_sample_size E a))
          (drop (Z.to_nat i)
             (rows_of_class (Experiment.training_pool a)
                (Experiment.training_oracle a) "Quasar")),
        balanced_labels (Z.to_nat (Experiment.sub_sample_size E a))).
Proof.
  intros Hb Hlen Hi Hsub. unfold Experiment.training_sub. rewrite Hb.
  rewrite !take_mask_class by done. simpl.
  unfold Np.repeat. rewrite bool_decide_eq_false_2 by lia. simpl.
  by rewrite !slice_take_drop by done.
Qed.

Lemma zip_replicate_elem_of {R} (rows : list R) (data : list (R * string)) n cls :
  Forall (λ x, (x, cls) ∈ data) rows →
  Forall (λ p, p ∈ data) (zip rows (replicate n cls)).
Proof.
  intros Hrows. revert n. induction Hrows as [|x rows Hx _ IH]; intros [|n]; simpl;
    try constructor; [done|apply IH].
Qed.

Lemma class_slice_labelled a cls n k :
  Forall (λ p, p ∈ zip (Experiment.training_pool a) (Experiment.training_oracle a))
    (zip (take n (drop k (rows_of_class (Experiment.training_pool a)
                            (Experiment.training_oracle a) cls)))
         (replicate n cls)).
Proof.
  apply zip_replicate_elem_of, Forall_forall. intros x Hx.
  apply rows_of_class_elem_of.
  eapply elem_of_sublist; [exact Hx|].
  etrans; [apply sublist_take|apply sublist_drop].
Qed.
End BalancedTrial.

(** X10. A balanced trial on enough data. With [balanced_pool] set, as
    many rows as labels, and at least [i + full_sample_size // 3] rows of
    each of the classes Galaxy, Star and Quasar, the trial at offset [i]
    trains on [full_sample_size // 3] rows of each class, the Galaxy rows
    first, then the Star rows, then the Quasar rows, each block rows [i] to
    [i + full_sample_size // 3] of its class in the order of the data set;
    every row is paired with its own label. The trial has
    [3 * (full_sample_size // 3)] rows, not [full_sample_size], and rows of
    other classes are left out. *)
Theorem balanced_slice_exact (E : externals string) (a : Experiment.args E) (i : Z) :
  Experiment.balanced_pool a = true →
  length (Experiment.training_pool a) = length (Experiment.training_oracle a) →
  (0 ≤ i)%Z → (0 ≤ Experiment.sub_sample_size E a)%Z →
  (∀ cls, cls ∈ ["Galaxy"; "Star"; "Quasar"]%string →
     Z.to_nat i + Z.to_nat (Experiment.sub_sample_size E a)
       ≤ length (filter (λ y, y = cls) (Experiment.training_oracle a))) →
  ∃ Xs,
    Experiment.training_sub E a i
      = Ok (Xs, balanced_labels (Z.to_nat (Experiment.sub_sample_size E a))) ∧
    length Xs = 3 * Z.to_nat (Experiment.sub_sample_size E a) ∧
    length Xs = length (balanced_labels (Z.to_nat (Experiment.sub_sample_size E a))) ∧
    Forall (λ p, p ∈ zip (Experiment.training_pool a) (Experiment.training_oracle a))
      (zip Xs (balanced_labels (Z.to_nat (Experiment.sub_sample_size E a)))) ∧
    Forall (λ p, p.2 ∈ ["Galaxy"; "Star"; "Quasar"]%string)
      (zip Xs (balanced_labels (Z.to_nat (Experiment.sub_sample_size E a)))).
Proof.
  intros Hb Hlen Hi Hsub Hcount.
  eexists. split; [by apply training_sub_balanced|].
  assert (∀ cls, cls ∈ ["Galaxy"; "Star"; "Quasar"]%string →
    length (take (Z.to_nat (Experiment.sub_sample_size E a))
              (drop (Z.to_nat i)
                 (rows_of_class (Experiment.training_pool a)
                    (Experiment.training_oracle a) cls)))
    = Z.to_nat (Experiment.sub_sample_size E a)) as Hblock.
  { intros cls Hcls. rewrite length_take, length_drop, rows_of_class_length by done.
    specialize (Hcount cls Hcls). lia. }
  assert ("Galaxy"%string ∈ ["Galaxy"; "Star"; "Quasar"]%string) as HG
    by (apply elem_of_cons; by left).
  assert ("Star"%string ∈ ["Galaxy"; "Star"; "Quasar"]%string) as HS
    by (apply elem_of_cons; right; apply elem_of_cons; by left).
  assert ("Quasar"%string ∈ ["Galaxy"; "Star"; "Quasar"]%string) as HQ
    by (do 2 (apply elem_of_cons; right); apply elem_of_cons; by left).
  split_and!.
  - rewrite !length_app, ?length_fmap, !Hblock by done. lia.
  - unfold balanced_labels. rewrite !length_app, ?length_fmap, !Hblock, !length_replicate by done. lia.
  - unfold balanced_labels.
    rewrite zip_with_app by (by rewrite Hblock, length_replicate).
    rewrite zip_with_app by (by rewrite Hblock, length_replicate).
    rewrite !Forall_app. split_and!; apply class_slice_labelled.
  - apply Forall_forall. intros [x y] Hin. simpl.
    apply elem_of_zip_r in Hin. unfold balanced_labels in Hin.
    rewrite !elem_of_app in Hin.
    destruct Hin as [Hin|[Hin|Hin]]; apply elem_of_replicate in Hin as [-> _]; done.
Qed.

Lemma balanced_slice_exact_witness :
  Experiment.training_sub (Demo.env true)
    (Demo.experiment [0; 1; 2; 3; 4; 5; 6]
       ["Star"; "Galaxy"; "Quasar"; "Other"; "Galaxy"; "Quasar"; "Star"]%string
       true 3 2 3 2 2 Demo.highest_index None) 1
  = Ok ([4; 6; 5], ["Galaxy"; "Star"; "Quasar"]%string).
Proof.
  destruct (balanced_slice_exact (Demo.env true)
              (Demo.experiment [0; 1; 2; 3; 4; 5; 6]
                 ["Star"; "Galaxy"; "Quasar"; "Other"; "Galaxy"; "Quasar"; "Star"]%string
                 true 3 2 3 2 2 Demo.highest_index None) 1)
    as (Xs & Hsub & _).
  - reflexivity.
  - reflexivity.
  - lia.
  - vm_compute. discriminate.
  - intros cls Hcls.
    repeat (apply elem_of_cons in Hcls as [->|Hcls]; [vm_compute; lia|]).
    by apply elem_of_nil in Hcls.
  - rewrite Hsub. vm_compute in Hsub. injection Hsub as <-. reflexivity.
Defined.

(** X11. A balanced trial on too little data. When some class has fewer
    than [i + full_sample_size // 3] rows, the routine raises nothing: the
    block of that class is short (or empty), while the labels are still
    [full_sample_size // 3] per class. The trial therefore gets fewer rows
    than labels, and [active_learn] is called on arrays that do not line
    up. *)
Theorem balanced_trial_misaligned (E : externals string) (a : Experiment.args E)
    (i : Z) (cls : string) :
  Experiment.balanced_pool a = true →
  length (Experiment.training_pool a) = length (Experiment.training_oracle a) →
  (0 ≤ i)%Z → (0 < Experiment.sub_sample_size E a)%Z →
  cls ∈ ["Galaxy"; "Star"; "Quasar"]%string →
  length (filter (λ y, y = cls) (Experiment.training_oracle a))
    < Z.to_nat i + Z.to_nat (Experiment.sub_sample_size E a) →
  ∃ Xs ys,
    Experiment.training_sub E a i = Ok (Xs, ys) ∧
    length ys = 3 * Z.to_nat (Experiment.sub_sample_size E a) ∧
    length Xs < length ys.
Proof.
  intros Hb Hlen Hi Hsub Hcls Hshort.
  eexists _, _. split; [apply training_sub_balanced; (done || lia)|].
  unfold balanced_labels.
  rewrite !length_app, ?length_fmap, !length_replicate, !length_take, !length_drop,
    !rows_of_class_length by done.
  split; [lia|].
  repeat (apply elem_of_cons in Hcls as [->|Hcls]; [lia|]).
  by apply elem_of_nil in Hcls.
Qed.

Lemma balanced_trial_misaligned_witness :
  ∃ Xs ys,
    Experiment.training_sub (Demo.env true)
      (Demo.experiment [0; 1; 2; 3; 4]
         ["Galaxy"; "Star"; "Star"; "Quasar"; "Quasar"]%string
         true 6 2 3 2 2 Demo.highest_index None) 2 = Ok (Xs, ys) ∧
    length ys = 6 ∧ length Xs < length ys.
Proof.
  apply (balanced_trial_misaligned (Demo.env true)
           (Demo.experiment [0; 1; 2; 3; 4]
              ["Galaxy"; "Star"; "Star"; "Quasar"; "Quasar"]%string
              true 6 2 3 2 2 Demo.highest_index None) 2 "Star").
  - reflexivity.
  - reflexivity.
  - lia.
  - vm_compute. reflexivity.
  - apply elem_of_cons. right. apply elem_of_cons. by left.
  - vm_compute. lia.
Defined.

(** ** The trials of an experiment *)

Section Trials.
Context (E : externals string) (compute_balanced_accuracy : accuracy_fn E).
Implicit Types (a : Experiment.args E) (w : world E).

Lemma arange0_positive_step (stop step : Z) (n : nat) :
  (0 < step)%Z → stop = (step * Z.of_nat n)%Z →
  Np.arange0 stop step = Ok ((λ k, Z.of_nat k * step)%Z <$> seq 0 n).
Proof.
  intros Hstep ->. unfold Np.arange0.
  rewrite bool_decide_eq_false_2 by lia. do 3 f_equal.
  rewrite Z.sgn_pos by done.
  replace (step * Z.of_nat n + step - 1)%Z with (Z.of_nat n * step + (step - 1))%Z by lia.
  rewrite Z.div_add_l by lia. rewrite Z.div_small by lia. lia.
Qed.

Lemma arange0_no_trials (step trials : Z) :
  (0 < step)%Z →
  Np.arange0 (step * trials) step
  = Ok ((λ k, Z.of_nat k * step)%Z <$> seq 0 (Z.to_nat trials)).
Proof.
  intros Hstep. destruct (decide (0 ≤ trials)%Z) as [Hnn|Hneg].
  - apply arange0_positive_step; [done|lia].
  - unfold Np.arange0. rewrite bool_decide_eq_false_2 by lia. do 3 f_equal.
    rewrite Z.sgn_pos by done.
    replace (step * trials + step - 1)%Z with (trials * step + (step - 1))%Z by lia.
    rewrite Z.div_add_l by lia. rewrite Z.div_small by lia. lia.
Qed.

Lemma offsets_of_experiment a :
  (0 < Experiment.i_step E a)%Z →
  Np.arange0 (Experiment.i_max E a) (Experiment.i_step E a)
  = Ok ((λ k, Z.of_nat k * Experiment.i_step E a)%Z
          <$> seq 0 (Z.to_nat (Experiment.no_trials a))).
Proof.
  intros Hstep.
  replace (Experiment.i_max E a)
    with (Experiment.i_step E a * Experiment.no_trials a)%Z.
  - by apply arange0_no_trials.
  - unfold Experiment.i_max, Experiment.i_step. by destruct (Experiment.balanced_pool a).
Qed.

Lemma chunks_concat {A} (l : list A) (f n : nat) :
  concat ((λ k, take f (drop (k * f) l)) <$> seq 0 n) = take (n * f) l.
Proof.
  induction n as [|n IH]; [done|].
  rewrite seq_S, fmap_app, concat_app, IH. simpl.
  rewrite app_nil_r, take_take_drop. f_equal. lia.
Qed.
End Trials.

(** X12. The trials of an experiment without balancing use consecutive
    chunks of the data set: trial [k] trains on rows
    [k * full_sample_size] to [(k + 1) * full_sample_size] and on the
    labels at the same positions. There are [no_trials] trials; together
    they use the first [no_trials * full_sample_size] rows, each row in one
    trial only. Where the data set is shorter than that, the later chunks
    are short or empty; slicing raises nothing. This is for sizes within
    [int64] ([no_trials * full_sample_size] below 2^63), where the offsets
    that [np.arange] returns are integers. *)
Theorem unbalanced_trials_tile_data (E : externals string) (a : Experiment.args E) :
  Experiment.balanced_pool a = false →
  (0 < Experiment.full_sample_size a < 2 ^ 63)%Z →
  (- 2 ^ 63 ≤ Experiment.full_sample_size a * Experiment.no_trials a < 2 ^ 63)%Z →
  ∃ offsets subs,
    Experiment.float_offsets E a = None ∧
    Np.arange0 (Experiment.i_max E a) (Experiment.i_step E a) = Ok offsets ∧
    length offsets = Z.to_nat (Experiment.no_trials a) ∧
    Forall2 (λ i sub, Experiment.training_sub E a i = Ok sub) offsets subs ∧
    concat (fst <$> subs)
      = take (Z.to_nat (Experiment.no_trials a * Experiment.full_sample_size a))
          (Experiment.training_pool a) ∧
    concat (snd <$> subs)
      = take (Z.to_nat (Experiment.no_trials a * Experiment.full_sample_size a))
          (Experiment.training_oracle a) ∧
    Forall (λ sub, length sub.1 ≤ Z.to_nat (Experiment.full_sample_size a) ∧
                   length sub.2 ≤ Z.to_nat (Experiment.full_sample_size a)) subs.
Proof.
  intros Hb Hfull Hmax.
  assert (Experiment.i_step E a = Experiment.full_sample_size a) as Hstep
    by (unfold Experiment.i_step; by rewrite Hb).
  assert (Experiment.i_max E a
          = (Experiment.full_sample_size a * Experiment.no_trials a)%Z) as Himax
    by (unfold Experiment.i_max; by rewrite Hb).
  set (f := Z.to_nat (Experiment.full_sample_size a)).
  set (n := Z.to_nat (Experiment.no_trials a)).
  exists ((λ k, Z.of_nat k * Experiment.i_step E a)%Z <$> seq 0 n),
    ((λ k, (take f (drop (k * f) (Experiment.training_pool a)),
            take f (drop (k * f) (Experiment.training_oracle a)))) <$> seq 0 n).
  split_and!.
  - unfold Experiment.float_offsets, Np.int64. rewrite Himax, Hstep.
    rewrite !bool_decide_eq_true_2 by lia. done.
  - apply offsets_of_experiment. lia.
  - by rewrite length_fmap, length_seq.
  - apply Forall2_fmap, Forall_Forall2_diag, Forall_forall. intros k _.
    unfold Experiment.training_sub. rewrite Hb, Hstep.
    rewrite !slice_take_drop by lia.
    replace (Z.to_nat (Z.of_nat k * Experiment.full_sample_size a)) with (k * f);
      [done|].
    unfold f. rewrite Z2Nat.inj_mul by lia. by rewrite Nat2Z.id.
  - rewrite <- list_fmap_compose.
    transitivity (take (n * f) (Experiment.training_pool a));
      [exact (chunks_concat (Experiment.training_pool a) f n)|]. f_equal.
    unfold f, n. destruct (decide (0 ≤ Experiment.no_trials a)%Z).
    + rewrite Z2Nat.inj_mul by lia. done.
    + rewrite (Z2Nat.nonpos (Experiment.no_trials a)) by lia.
      rewrite (Z2Nat.nonpos (Experiment.no_trials a * Experiment.full_sample_size a))
        by nia.
      done.
  - rewrite <- list_fmap_compose.
    transitivity (take (n * f) (Experiment.training_oracle a));
      [exact (chunks_concat (Experiment.training_oracle a) f n)|]. f_equal.
    unfold f, n. destruct (decide (0 ≤ Experiment.no_trials a)%Z).
    + rewrite Z2Nat.inj_mul by lia. done.
    + rewrite (Z2Nat.nonpos (Experiment.no_trials a)) by lia.
      rewrite (Z2Nat.nonpos (Experiment.no_trials a * Experiment.full_sample_size a))
        by nia.
      done.
  - apply Forall_fmap, Forall_forall. intros k _. simpl.
    rewrite !length_take. lia.
Qed.

Lemma unbalanced_trials_tile_data_witness :
  ∃ offsets subs,
    Np.arange0 10 5 = Ok offsets ∧
    Forall2 (λ i sub,
      Experiment.training_sub (Demo.env true)
        (Demo.experiment (seq 0 12) (replicate 12 "Star"%string) false 5 2 3 2 2
           Demo.highest_index None) i = Ok sub) offsets subs ∧
    concat (fst <$> subs) = seq 0 10.
Proof.
  destruct (unbalanced_trials_tile_data (Demo.env true)
              (Demo.experiment (seq 0 12) (replicate 12 "Star"%string) false 5 2 3 2 2
                 Demo.highest_index None))
    as (offsets & subs & _ & Hoff & _ & Hsubs & Hrows & _).
  - reflexivity.
  - vm_compute. split; [reflexivity|reflexivity].
  - vm_compute. split; [discriminate|reflexivity].
  - exists offsets, subs. split_and!; done.
Defined.

Section TrialRuns.
Context (E : externals string) (compute_balanced_accuracy : accuracy_fn E).
Implicit Types (a : Experiment.args E) (w : world E).

Lemma run_trials_failing_trial fuel a (i : Z) sub offsets done_curves w r :
  i ∈ offsets → Experiment.training_sub E a i = Ok sub →
  (Z.of_nat (length sub.2) < Experiment.initial_n a)%Z →
  Experiment.run_trials E compute_balanced_accuracy fuel a offsets done_curves w
    ≠ Some (Ok r).
Proof.
  intros Hin Hsub Hshort. revert done_curves w.
  induction offsets as [|j offsets IH]; intros done_curves w; simpl.
  { by apply elem_of_nil in Hin. }
  destruct (Experiment.training_sub E a j) as [sub'|e] eqn:Hj; [|done].
  destruct (active_learn E fuel _ w) as [[[curve w1]|e]|] eqn:Hrun; [|done|done].
  apply elem_of_cons in Hin as [->|Hin]; [|by apply IH].
  exfalso. rewrite Hsub in Hj. injection Hj as <-.
  unfold active_learn, active_learn_run in Hrun.
  rewrite seed_phase_too_many in Hrun; [done|]. done.
Qed.
End TrialRuns.

(** X13. An experiment that ends normally has run [no_trials] trials and
    produced [no_trials] learning curves (returned, or written to
    [pickle_path]), with balancing or without, for a positive step between
    the trials. With [no_trials <= 0] no trial runs: the result is the
    empty list and the classifier is never fitted. *)
Theorem one_curve_per_trial (E : externals string)
    (compute_balanced_accuracy : accuracy_fn E) (fuel : nat)
    (a : Experiment.args E) (fs : gmap string (list (list (acc E)))) (w : world E) :
  (0 < Experiment.i_step E a)%Z →
  (∀ ret fs' w',
     Experiment.run_active_learning_with_heuristic E compute_balanced_accuracy
       fuel a fs w = Some (Ok (ret, fs', w')) →
     ∃ curves,
       length curves = Z.to_nat (Experiment.no_trials a) ∧
       (ret = Some curves ∧ fs' = fs ∨
        ret = None ∧
        fs' = <[default ""%string (Experiment.pickle_path a) := curves]> fs)) ∧
  ((Experiment.no_trials a ≤ 0)%Z →
   Experiment.run_active_learning_with_heuristic E compute_balanced_accuracy
     fuel a fs w
   = Some (Ok (if Experiment.truthy (Experiment.pickle_path a)
               then (None, <[default ""%string (Experiment.pickle_path a) := []]> fs, w)
               else (Some [], fs, w)))).
Proof.
  intros Hstep. unfold Experiment.run_active_learning_with_heuristic.
  rewrite offsets_of_experiment by done. split.
  - intros ret fs' w'.
    destruct (Experiment.float_offsets E a) as [e|].
    { destruct (Z.to_nat (Experiment.no_trials a)) as [|n]; simpl; [|done].
      destruct (Experiment.truthy _); intros [= <- <- <-];
        exists []; (split; [done|]); [by right|by left]. }
    destruct (Experiment.run_trials _ _ _ _ _ _ w) as [[[curves w1]|e]|] eqn:Hrun;
      [|done|done].
    apply run_trials_curves in Hrun as (new_curves & -> & Hlen).
    rewrite length_fmap, length_seq in Hlen.
    destruct (Experiment.truthy _); intros [= <- <- <-];
      exists new_curves; (split; [done|]); [by right|by left].
  - intros Hnone. rewrite Z2Nat.nonpos by done. simpl.
    by destruct (Experiment.float_offsets E a), (Experiment.truthy _).
Qed.

Lemma one_curve_per_trial_witness :
  (∃ curves,
     Experiment.run_active_learning_with_heuristic (Demo.env true) Demo.fitted_rows 10
       (Demo.experiment (seq 0 12) (replicate 12 "Star"%string) false 5 2 3 2 2
          Demo.highest_index None) ∅ (7, 0)
     = Some (Ok (Some curves, ∅, (11, 3))) ∧ length curves = 2) ∧
  Experiment.run_active_learning_with_heuristic (Demo.env true) Demo.fitted_rows 10
    (Demo.experiment (seq 0 12) (replicate 12 "Star"%string) false 5 0 3 2 2
       Demo.highest_index None) ∅ (7, 0)
  = Some (Ok (Some [], ∅, (7, 0))).
Proof.
  split.
  - destruct (proj1 (one_curve_per_trial (Demo.env true) Demo.fitted_rows 10
        (Demo.experiment (seq 0 12) (replicate 12 "Star"%string) false 5 2 3 2 2
           Demo.highest_index None) ∅ (7, 0) eq_refl)
        (Some [[2; 3]; [2; 3]]) ∅ (11, 3) ltac:(vm_compute; reflexivity))
      as (curves & Hlen & [[Hret _]|[Hret _]]); [|done].
    injection Hret as <-. by eexists.
  - apply (proj2 (one_curve_per_trial (Demo.env true) Demo.fitted_rows 10
        (Demo.experiment (seq 0 12) (replicate 12 "Star"%string) false 5 0 3 2 2
           Demo.highest_index None) ∅ (7, 0) eq_refl)).
    vm_compute. discriminate.
Defined.

(** X14. A data set too short for the trials asked for. Without
    balancing, when the chunk of the last trial holds fewer than
    [initial_n] labels (the data set has fewer than
    [(no_trials - 1) * full_sample_size + initial_n] of them), the
    experiment cannot end normally, whatever the earlier trials do:
    slicing raises nothing, and once the run gets to that trial its seed
    draw raises ValueError, so no list of curves is returned or written. *)
Theorem short_data_set_fails (E : externals string)
    (compute_balanced_accuracy : accuracy_fn E) (a : Experiment.args E) :
  Experiment.balanced_pool a = false →
  (0 < Experiment.full_sample_size a)%Z →
  (1 ≤ Experiment.no_trials a)%Z →
  (0 < Experiment.initial_n a)%Z →
  (Z.of_nat (length (Experiment.training_oracle a))
     < (Experiment.no_trials a - 1) * Experiment.full_sample_size a
       + Experiment.initial_n a)%Z →
  ∀ fuel fs w r,
    Experiment.run_active_learning_with_heuristic E compute_balanced_accuracy
      fuel a fs w ≠ Some (Ok r).
Proof.
  intros Hb Hfull Htrials Hinit Hshort fuel fs w r.
  assert (Experiment.i_step E a = Experiment.full_sample_size a) as Hstep
    by (unfold Experiment.i_step; by rewrite Hb).
  unfold Experiment.run_active_learning_with_heuristic.
  rewrite offsets_of_experiment by lia. rewrite Hstep.
  set (last := ((Experiment.no_trials a - 1) * Experiment.full_sample_size a)%Z).
  assert (Experiment.training_sub E a last
          = Ok (Np.slice (Experiment.training_pool a) last
                  (last + Experiment.full_sample_size a),
                Np.slice (Experiment.training_oracle a) last
                  (last + Experiment.full_sample_size a))) as Hsub.
  { unfold Experiment.training_sub. by rewrite Hb. }
  destruct (Experiment.float_offsets E a) as [e|].
  { destruct (Z.to_nat (Experiment.no_trials a)) as [|n] eqn:Hn; [lia|]. done. }
  destruct (Experiment.run_trials _ _ _ _ _ _ w) as [[[curves w1]|e]|] eqn:Hrun;
    [|done|done].
  exfalso. revert Hrun.
  eapply run_trials_failing_trial; [|exact Hsub|].
  - apply list_elem_of_fmap. exists (Z.to_nat (Experiment.no_trials a - 1)).
    split; [unfold last; by rewrite Z2Nat.id by lia|]. apply elem_of_seq. lia.
  - simpl. rewrite slice_length by (unfold last; nia).
    assert (0 ≤ last)%Z by (unfold last; nia). lia.
Qed.

Lemma short_data_set_fails_witness :
  Experiment.run_active_learning_with_heuristic (Demo.env true) Demo.fitted_rows 10
    (Demo.experiment (seq 0 6) (replicate 6 "Star"%string) false 5 2 3 2 2
       Demo.highest_index None) ∅ (7, 0) = Some (Raise ValueError) ∧
  ∀ r,
    Experiment.run_active_learning_with_heuristic (Demo.env true) Demo.fitted_rows 10
      (Demo.experiment (seq 0 6) (replicate 6 "Star"%string) false 5 2 3 2 2
         Demo.highest_index None) ∅ (7, 0) ≠ Some (Ok r).
Proof.
  split; [vm_compute; reflexivity|].
  apply (short_data_set_fails (Demo.env true) Demo.fitted_rows
           (Demo.experiment (seq 0 6) (replicate 6 "Star"%string) false 5 2 3 2 2
              Demo.highest_index None)).
  - reflexivity.
  - reflexivity.
  - vm_compute. discriminate.
  - reflexivity.
  - vm_compute. reflexivity.
Defined.

(** ** What the choice of a query depends on *)

Section HiddenLabels.
Context {label : Type} (E : externals label).
Implicit Types (c : config E) (s : state E) (w : world E).

Lemma take_idx_same_length {A B} (a : list A) (b : list B) idx xs :
  length a = length b → Np.take_idx a idx = Ok xs →
  ∃ ys, Np.take_idx b idx = Ok ys ∧ length ys = length xs.
Proof.
  intros Hlen Hxs.
  destruct (take_idx_in_range b idx) as [ys Hys].
  { rewrite <- Hlen. by eapply take_idx_Ok_in_range. }
  exists ys. split; [done|].
  apply take_idx_length in Hxs, Hys. lia.
Qed.

Lemma take_z_same_length {A B} (a : list A) (b : list B) idx xs :
  length a = length b → Np.take_z a idx = Ok xs →
  ∃ ys, Np.take_z b idx = Ok ys ∧ length ys = length xs.
Proof.
  intros Hlen Hxs. apply take_z_Ok in Hxs as (js & Hjs & Hxs).
  destruct (take_idx_same_length a b js xs Hlen Hxs) as (ys & Hys & Hl).
  exists ys. split; [|done]. apply take_z_Ok. exists js. by rewrite <- Hlen.
Qed.
End HiddenLabels.

(** X15. Which rows an iteration queries does not depend on the labels the
    oracle still holds. In two states with the same unlabelled rows and the
    same labelled set, whose remaining oracles have the same length but
    any labels, an iteration that succeeds in one succeeds in the other:
    it draws the same candidates, the heuristic (which is given the
    candidate rows and the labelled set, not the candidate labels) returns
    the same indices, and the same rows move from the pool to the labelled
    set. Only the labels that are appended can differ. *)
Theorem query_independent_of_hidden_labels {label} (E : externals label)
    (c : config E) (s1 s2 : state E) (w : world E) s1' w1 :
  same_but_hidden_labels s1 s2 →
  query_step E c s1 w = Ok (s1', w1) →
  ∃ s2' w2,
    query_step E c s2 w = Ok (s2', w2) ∧
    X_train s2' = X_train s1' ∧
    unlabelled_pool s2' = unlabelled_pool s1' ∧
    length (y_train s2') = length (y_train s1') ∧
    length (unlabelled_oracle s2') = length (unlabelled_oracle s1').
Proof.
  intros (Hp & Hlen & HX & Hy) Hstep.
  unfold query_step, draw_candidates, candidate_size in *.
  rewrite <- Hp, <- Hlen, <- HX, <- Hy.
  destruct (np_random_choice E _ _ w) as [[cidx w0]|e]; simpl in *; [|done].
  destruct (Np.take_idx (unlabelled_pool s1) cidx) as [Xc|e]; simpl in *; [|done].
  destruct (Np.take_idx (unlabelled_oracle s1) cidx) as [yc1|e] eqn:Hyc1;
    simpl in *; [|done].
  destruct (take_idx_same_length _ (unlabelled_oracle s2) cidx yc1 Hlen Hyc1)
    as (yc2 & -> & Hlyc). simpl.
  destruct (active_learning_heuristic c Xc _ _ _ _ _ _ w0) as [best w2].
  destruct (Np.take_z Xc best) as [Xb|e]; simpl in *; [|done].
  destruct (Np.take_z yc1 best) as [yb1|e] eqn:Hyb1; simpl in *; [|done].
  destruct (take_z_same_length yc1 yc2 best yb1 (eq_sym Hlyc) Hyb1)
    as (yb2 & -> & Hlyb). simpl.
  destruct (Np.take_z cidx best) as [biu|e]; simpl in *; [|done].
  injection Hstep as <- <-. eexists _, _. split; [reflexivity|]. simpl.
  split_and!; try done.
  - rewrite !length_app, ?length_fmap. lia.
  - by apply delete_from_length_eq.
Qed.

Lemma query_independent_of_hidden_labels_witness :
  ∃ s2' w2,
    query_step (Demo.env true) (Demo.cfg 6 3 0 4 Demo.highest_index)
      (@Build_state string (Demo.env true) (Demo.pool 6) (replicate 6 "z"%string)
         [] [] [0]) (7, 0)
      = Ok (s2', w2) ∧
    X_train s2' = [4] ∧ unlabelled_pool s2' = [0; 1; 2; 3; 5].
Proof.
  destruct (query_independent_of_hidden_labels (Demo.env true)
              (Demo.cfg 6 3 0 4 Demo.highest_index) (Demo.unseeded 6)
              (@Build_state string (Demo.env true) (Demo.pool 6)
                 (replicate 6 "z"%string) [] [] [0])
              (7, 0)
              (@Build_state string (Demo.env true)
                 [0; 1; 2; 3; 5] ["a"; "a"; "a"; "b"; "b"]%string [4] ["b"]%string
                 [0; 1])
              (8, 1))
    as (s2' & w2 & Hstep & HX & Hp & _).
  - unfold same_but_hidden_labels. split_and!; reflexivity.
  - vm_compute. reflexivity.
  - exists s2', w2. split_and!; done.
Defined.

(** ** The seed phase, case by case *)

(** X16. The seed phase on a pool with as many rows as labels. It raises
    ValueError when [initial_n] is negative, when it exceeds the number of
    labels, and, on a numpy that rejects an empty population, when the pool
    is empty (even for [initial_n = 0]); the exception comes from the draw,
    so the world is as before the call: nothing was drawn and nothing
    fitted. In every other case it succeeds: [np.random.choice] draws
    [initial_n] distinct positions; the rows and labels at these positions,
    converted to the type of the labelled arrays, are the labelled set; the
    positions are deleted from the pool and the oracle; the classifier is
    fitted once, in the world the draw has left, on this labelled set (on
    no rows at all for [initial_n = 0]); and the curve starts with the
    accuracy of that fit. *)
Theorem seed_phase_outcome {label} (E : externals label) (c : config E) (w : world E) :
  sample_ok E →
  length (training_pool c) = length (training_oracle c) →
  (((initial_n c < 0)%Z ∨
    (Z.of_nat (length (training_oracle c)) < initial_n c)%Z ∨
    (training_oracle c = [] ∧ choice_rejects_empty E = true)) →
   seed_phase_run E c w = (w, Raise ValueError) ∧
   seed_phase E c w = Raise ValueError) ∧
  ((0 ≤ initial_n c ≤ Z.of_nat (length (training_oracle c)))%Z →
   training_oracle c ≠ [] ∨ choice_rejects_empty E = false →
   ∃ idx w0 Xc yc,
     np_random_choice E (length (training_oracle c)) (initial_n c) w = Ok (idx, w0) ∧
     NoDup idx ∧ Z.of_nat (length idx) = initial_n c ∧
     Forall2 (λ i x, training_pool c !! i = Some x) idx Xc ∧
     Forall2 (λ i y, training_oracle c !! i = Some y) idx yc ∧
     seed_phase E c w
       = Ok (Build_state label E
               (Np.delete (training_pool c) idx) (Np.delete (training_oracle c) idx)
               (promote_row E <$> Xc) (promote_label E <$> yc)
               [compute_accuracy c (classifier c) (testing_pool c) (testing_oracle c)
                  (fit E (classifier c) (promote_row E <$> Xc)
                     (promote_label E <$> yc) w0)],
             fit E (classifier c) (promote_row E <$> Xc) (promote_label E <$> yc) w0) ∧
     length (Np.delete (training_oracle c) idx) + length idx
       = length (training_oracle c) ∧
     length (Np.delete (training_pool c) idx)
       = length (Np.delete (training_oracle c) idx) ∧
     zip Xc yc ++ zip (Np.delete (training_pool c) idx) (Np.delete (training_oracle c) idx)
       ≡ₚ zip (training_pool c) (training_oracle c)).
Proof.
  intros Hs Hlen. split.
  - intros Hbad.
    assert (np_random_choice E (length (training_oracle c)) (initial_n c) w
            = Raise ValueError) as Hch.
    { destruct Hbad as [Hneg|[Hbig|[Hnil Hrej]]].
      - unfold np_random_choice. by rewrite bool_decide_eq_true_2.
      - by apply choice_too_many.
      - rewrite Hnil. simpl length. by apply choice_empty_rejected. }
    assert (seed_phase_run E c w = (w, Raise ValueError)) as Hrun.
    { unfold seed_phase_run. by rewrite Hch. }
    split; [done|]. unfold seed_phase. by rewrite Hrun.
  - intros Hrange Hne.
    assert (np_random_choice E (length (training_oracle c)) (initial_n c) w
            = Ok (rng_sample E (length (training_oracle c))
                    (Z.to_nat (initial_n c)) w)) as Hch.
    { apply choice_succeeds; [done|].
      destruct Hne as [Hne|Hne]; [left|by right].
      destruct (training_oracle c); [done|simpl; lia]. }
    destruct (rng_sample E _ _ w) as [idx w0].
    apply (choice_Ok E) in Hch as Hch'; [|done].
    destruct Hch' as (_ & Hnd & Hin & Hli).
    destruct (take_idx_in_range (training_pool c) idx) as [Xc HXc]; [by rewrite Hlen|].
    destruct (take_idx_in_range (training_oracle c) idx) as [yc Hyc]; [done|].
    exists idx, w0, Xc, yc. split_and!.
    + done.
    + done.
    + lia.
    + by apply take_idx_Ok.
    + by apply take_idx_Ok.
    + rewrite seed_phase_unfold, Hch. simpl. rewrite HXc. simpl. by rewrite Hyc.
    + by apply (take_delete_length _ _ yc).
    + by apply delete_from_length_eq.
    + rewrite <- delete_zip. apply take_delete_perm; [|done]. by apply take_idx_zip.
Qed.

Lemma seed_phase_outcome_witness :
  seed_phase_run (Demo.env true) (Demo.cfg 6 3 (-1) 4 Demo.highest_index) (7, 0)
    = ((7, 0), Raise ValueError) ∧
  seed_phase (Demo.env true) (Demo.cfg 0 3 0 4 Demo.highest_index) (7, 0)
    = Raise ValueError ∧
  ∃ idx w0 Xc yc,
    np_random_choice (Demo.env true) 6 2 (7, 0) = Ok (idx, w0) ∧
    seed_phase (Demo.env true) (Demo.cfg 6 3 2 4 Demo.highest_index) (7, 0)
      = Ok (@Build_state string (Demo.env true)
              (Np.delete (Demo.pool 6) idx) (Np.delete (Demo.oracle 6) idx)
              Xc yc [length Xc], (w0.1, length Xc)) ∧
    idx = [1; 2].
Proof.
  split_and!.
  - apply (proj1 (seed_phase_outcome (Demo.env true)
                    (Demo.cfg 6 3 (-1) 4 Demo.highest_index) (7, 0)
                    (demo_sample_ok true) eq_refl)).
    left. reflexivity.
  - apply (proj1 (seed_phase_outcome (Demo.env true)
                    (Demo.cfg 0 3 0 4 Demo.highest_index) (7, 0)
                    (demo_sample_ok true) eq_refl)).
    right. right. split; reflexivity.
  - destruct (proj2 (seed_phase_outcome (Demo.env true)
                       (Demo.cfg 6 3 2 4 Demo.highest_index) (7, 0)
                       (demo_sample_ok true) eq_refl))
      as (idx & w0 & Xc & yc & Hch & _ & _ & _ & _ & Hseed & _).
    + vm_compute. split; discriminate.
    + left. vm_compute. discriminate.
    + exists idx, w0, Xc, yc. split; [exact Hch|]. split.
      * rewrite Hseed. simpl. rewrite !length_fmap. by rewrite !list_fmap_id.
      * vm_compute in Hch. by injection Hch as <- _.
Defined.
